(** * Per-item Generalized Gauss-Newton matrices and their running averages

    A shallow embedding of [src/train_utils.py]: the step functions
    [train_step] and [test_step], the curvature engine [compute_ggn], and the
    epoch drivers [train_epoch] and [test_epoch].

    Numbers.  Floating-point arrays are read as arrays of real numbers, so
    every statement below is about the arithmetic the code denotes, free of
    rounding.  Integer arrays produced by JAX are 32-bit and wrap around;
    Python integers are unbounded.

    Arrays.  An array is its shape together with an index function; only the
    entries inside the shape are meaningful.  Binary operations follow the
    NumPy broadcasting rule and raise when the shapes do not broadcast. *)

From Stdlib Require Import Reals Lra Lia List ZArith Bool Arith Permutation.
Import ListNotations.

Open Scope R_scope.

(** ** Exceptions and the error monad *)

Inductive exn : Type :=
| ZeroDivisionError   (* integer division or modulo by zero *)
| BroadcastError      (* operands of an array operation do not broadcast *)
| ReshapeError        (* size not divisible by the known dimensions *)
| EmptyConcatenate    (* jnp.concatenate of an empty sequence *)
| EmptyAxisError.     (* jnp.argmax along an axis of size zero *)

Inductive result (A : Type) : Type :=
| Ok (a : A)
| Raise (e : exn).

Arguments Ok {A} a.
Arguments Raise {A} e.

Definition bind {A B : Type} (c : result A) (k : A -> result B) : result B :=
  match c with
  | Ok a => k a
  | Raise e => Raise e
  end.

Notation "x <- c ;; k" := (bind c (fun x => k))
  (at level 61, c at next level, right associativity).
Notation "' p <- c ;; k" := (bind c (fun x => let p := x in k))
  (at level 61, p pattern, c at next level, right associativity).

(** ** Finite sums *)

Fixpoint Rsum (n : nat) (f : nat -> R) : R :=
  match n with
  | O => 0
  | S k => Rsum k f + f k
  end.

Fixpoint Zsum (n : nat) (f : nat -> Z) : Z :=
  match n with
  | O => 0%Z
  | S k => (Zsum k f + f k)%Z
  end.

(** ** Arrays *)

Record Arr1 : Type := mkArr1 { len1 : nat; at1 : nat -> R }.
Record Arr2 : Type := mkArr2 { rows : nat; cols : nat; at2 : nat -> nat -> R }.
Record Arr3 : Type :=
  mkArr3 { dim0 : nat; dim1 : nat; dim2 : nat; at3 : nat -> nat -> nat -> R }.

(** An array of any rank, stored row-major. *)
Record NdArr : Type := mkNdArr { shape : list nat; flat : nat -> R }.

(** The number of entries of an array of shape [s]. *)
Definition prod_shape (s : list nat) : nat := fold_right Nat.mul 1%nat s.

Definition size (a : NdArr) : nat := prod_shape (shape a).

#[local] Set Warnings "-register-all".

(** A pytree of arrays: the children of a node are kept in the canonical
    (sorted-key) order of the container. *)
Inductive pytree : Type :=
| Leaf (a : NdArr)
| Node (kids : list pytree).

(** [tree_util.tree_leaves]: the leaves, left to right, depth first. *)
Fixpoint tree_leaves (t : pytree) : list NdArr :=
  match t with
  | Leaf a => [a]
  | Node kids => flat_map tree_leaves kids
  end.

(** *** Broadcasting *)

Definition bdim (a b : nat) : option nat :=
  if (a =? b)%nat then Some a
  else if (a =? 1)%nat then Some b
  else if (b =? 1)%nat then Some a
  else None.

(** The index read from an axis of size [d] when the result index is [i]. *)
Definition bidx (d i : nat) : nat := if (d =? 1)%nat then O else i.

Definition broadcast3 (op : R -> R -> R) (a b : Arr3) : result Arr3 :=
  match bdim (dim0 a) (dim0 b), bdim (dim1 a) (dim1 b), bdim (dim2 a) (dim2 b) with
  | Some n, Some p, Some q =>
      Ok (mkArr3 n p q (fun i j k =>
            op (at3 a (bidx (dim0 a) i) (bidx (dim1 a) j) (bidx (dim2 a) k))
               (at3 b (bidx (dim0 b) i) (bidx (dim1 b) j) (bidx (dim2 b) k))))
  | _, _, _ => Raise BroadcastError
  end.

Definition broadcast2 (op : R -> R -> R) (a b : Arr2) : result Arr2 :=
  match bdim (rows a) (rows b), bdim (cols a) (cols b) with
  | Some p, Some q =>
      Ok (mkArr2 p q (fun j k =>
            op (at2 a (bidx (rows a) j) (bidx (cols a) k))
               (at2 b (bidx (rows b) j) (bidx (cols b) k))))
  | _, _ => Raise BroadcastError
  end.

Definition add3 := broadcast3 Rplus.
Definition sub3 := broadcast3 Rminus.
Definition add2 := broadcast2 Rplus.

(** Division of an array by a Python number. *)
Definition div3 (a : Arr3) (r : R) : Arr3 :=
  mkArr3 (dim0 a) (dim1 a) (dim2 a) (fun i j k => at3 a i j k / r).

Definition div2 (a : Arr2) (r : R) : Arr2 :=
  mkArr2 (rows a) (cols a) (fun j k => at2 a j k / r).

(** [a.copy()] *)
Definition copy (a : Arr3) : Arr3 := a.

(** [a[None, :, :]] *)
Definition expand_dims0 (a : Arr2) : Arr3 :=
  mkArr3 1 (rows a) (cols a) (fun _ j k => at2 a j k).

(** [jnp.sum(a, axis=0)] and [jnp.mean(a, axis=0)] *)
Definition sum_axis0 (a : Arr3) : Arr2 :=
  mkArr2 (dim1 a) (dim2 a) (fun j k => Rsum (dim0 a) (fun i => at3 a i j k)).

Definition mean_axis0 (a : Arr3) : Arr2 :=
  mkArr2 (dim1 a) (dim2 a)
    (fun j k => Rsum (dim0 a) (fun i => at3 a i j k) / INR (dim0 a)).

(** [jnp.mean] of a vector *)
Definition mean1 (a : Arr1) : R := Rsum (len1 a) (at1 a) / INR (len1 a).

(** *** Reshape and concatenate *)

(** [a.reshape(N, C, -1)]: the last dimension is inferred as the size divided
    by [N * C]; the data stay in row-major order.  For an empty batch, where
    [N * C = 0], that division is by zero and the call raises. *)
Definition reshape_NC (N C : nat) (a : NdArr) : result Arr3 :=
  if (N * C =? 0)%nat then Raise ZeroDivisionError
  else if (size a mod (N * C) =? 0)%nat then
    let d := (size a / (N * C))%nat in
    Ok (mkArr3 N C d (fun n c k => flat a ((n * C + c) * d + k)%nat))
  else Raise ReshapeError.

Fixpoint mapM {A B : Type} (f : A -> result B) (l : list A) : result (list B) :=
  match l with
  | [] => Ok []
  | a :: r => b <- f a ;; bs <- mapM f r ;; Ok (b :: bs)
  end.

Fixpoint cat2_dim (ls : list Arr3) : nat :=
  match ls with
  | [] => O
  | l :: r => (dim2 l + cat2_dim r)%nat
  end.

Fixpoint cat2_at (ls : list Arr3) (n a x : nat) : R :=
  match ls with
  | [] => 0
  | l :: r => if (x <? dim2 l)%nat then at3 l n a x
              else cat2_at r n a (x - dim2 l)%nat
  end.

(** [jnp.concatenate(ls, axis=2)] *)
Definition concatenate_axis2 (ls : list Arr3) : result Arr3 :=
  match ls with
  | [] => Raise EmptyConcatenate
  | l :: _ =>
      if forallb (fun m => (dim0 m =? dim0 l)%nat && (dim1 m =? dim1 l)%nat) ls
      then Ok (mkArr3 (dim0 l) (dim1 l) (cat2_dim ls) (cat2_at ls))
      else Raise BroadcastError
  end.

Fixpoint cat1_len (ls : list Arr1) : nat :=
  match ls with
  | [] => O
  | l :: r => (len1 l + cat1_len r)%nat
  end.

Fixpoint cat1_at (ls : list Arr1) (i : nat) : R :=
  match ls with
  | [] => 0
  | l :: r => if (i <? len1 l)%nat then at1 l i else cat1_at r (i - len1 l)%nat
  end.

(** [jnp.concatenate(ls)] of vectors *)
Definition concatenate1 (ls : list Arr1) : result Arr1 :=
  match ls with
  | [] => Raise EmptyConcatenate
  | _ :: _ => Ok (mkArr1 (cat1_len ls) (cat1_at ls))
  end.

(** *** The contraction ["nax,nab,nby->nxy"] *)

Definition einsum_nax_nab_nby (A H B : Arr3) : Arr3 :=
  mkArr3 (dim0 A) (dim2 A) (dim2 B)
    (fun n x y =>
       Rsum (dim1 A) (fun a =>
         Rsum (dim1 B) (fun b => at3 A n a x * at3 H n a b * at3 B n b y))).

(** Entry [(x, y)] of [J^T H J] for a [[C, D]] matrix [J] and a [[C, C]]
    matrix [H], as the contraction writes it. *)
Definition sandwich (C : nat) (J H : nat -> nat -> R) (x y : nat) : R :=
  Rsum C (fun a => Rsum C (fun b => J a x * H a b * J b y)).

(** *** Matrices, used to state what the contraction computes *)

Definition slice0 (a : Arr3) (n : nat) : Arr2 :=
  mkArr2 (dim1 a) (dim2 a) (fun j k => at3 a n j k).

Definition transpose (m : Arr2) : Arr2 :=
  mkArr2 (cols m) (rows m) (fun j k => at2 m k j).

Definition matmul (a b : Arr2) : Arr2 :=
  mkArr2 (rows a) (cols b)
    (fun i k => Rsum (cols a) (fun j => at2 a i j * at2 b j k)).

(** Entrywise equality of two matrices of the same shape. *)
Definition mat_eq (a b : Arr2) : Prop :=
  rows a = rows b /\ cols a = cols b /\
  forall i j, (i < rows a)%nat -> (j < cols a)%nat -> at2 a i j = at2 b i j.

Definition symmetric (m : Arr2) : Prop :=
  rows m = cols m /\
  forall i j, (i < rows m)%nat -> (j < rows m)%nat -> at2 m i j = at2 m j i.

(** The quadratic form [v^T m v]. *)
Definition quad_form (m : Arr2) (v : nat -> R) : R :=
  Rsum (rows m) (fun i => Rsum (cols m) (fun j => v i * at2 m i j * v j)).

Definition psd (m : Arr2) : Prop := forall v, 0 <= quad_form m v.

(** ** 32-bit integers *)

Definition wrap32 (z : Z) : Z := ((z + 2 ^ 31) mod 2 ^ 32 - 2 ^ 31)%Z.

Definition b2z (b : bool) : Z := if b then 1%Z else 0%Z.

(** ** The loss: softmax cross-entropy against integer labels *)

Definition sum_exp (C : nat) (z : nat -> R) : R := Rsum C (fun c => exp (z c)).

Definition softmax (C : nat) (z : nat -> R) (c : nat) : R :=
  exp (z c) / sum_exp C z.

(** The class that a label selects: a negative label counts from the end.
    A label outside [-C .. C-1] selects nothing and the program returns NaN
    for the loss; reals have no such value, so every statement about the
    value of a loss is for labels inside that range. *)
Definition label_index (C : nat) (y : Z) : nat :=
  if (y <? 0)%Z then Z.to_nat (y + Z.of_nat C) else Z.to_nat y.

(** [optax.softmax_cross_entropy_with_integer_labels] on one item:
    [log(sum_c exp(z_c)) - z_y]. *)
Definition loss_fn (C : nat) (z : nat -> R) (y : Z) : R :=
  ln (sum_exp C z) - z (label_index C y).

(** [jax.grad(loss_fn)]: the gradient with respect to the logits, in closed
    form; [d_loss_fn_is_gradient] below proves that it is the gradient. *)
Definition d_loss_fn (C : nat) (z : nat -> R) (y : Z) (a : nat) : R :=
  softmax C z a - (if (a =? label_index C y)%nat then 1 else 0).

(** [jax.jacfwd(d_loss_fn)]: the Hessian with respect to the logits, in closed
    form; [H_loss_fn_is_hessian] below proves that it is the Jacobian of
    [d_loss_fn].  It does not depend on the label. *)
Definition H_loss_fn (C : nat) (z : nat -> R) (y : Z) : Arr2 :=
  mkArr2 C C (fun a b =>
    (if (a =? b)%nat then softmax C z a else 0) - softmax C z a * softmax C z b).

(** The loss on a batch of logits [[N, C]]: one value per item. *)
Definition softmax_cross_entropy_with_integer_labels
    (logits : Arr2) (y : nat -> Z) : Arr1 :=
  mkArr1 (rows logits) (fun i => loss_fn (cols logits) (at2 logits i) (y i)).

(** [jax.vmap(H_loss_fn)(logits, y)] *)
Definition vmap_H_loss_fn (logits : Arr2) (y : nat -> Z) : Arr3 :=
  mkArr3 (rows logits) (cols logits) (cols logits)
    (fun n a b => at2 (H_loss_fn (cols logits) (at2 logits n) (y n)) a b).

(** The logits with coordinate [b] moved by [t]. *)
Definition bump (z : nat -> R) (b : nat) (t : R) : nat -> R :=
  fun c => if (c =? b)%nat then z c + t else z c.

(** [jnp.argmax] along an axis of size [C]: the first index of a maximum. *)
Fixpoint argmax_row (C : nat) (z : nat -> R) : nat :=
  match C with
  | O => O
  | S C' =>
      match C' with
      | O => O
      | S _ => let b := argmax_row C' z in
               if Rlt_dec (z b) (z C') then C' else b
      end
  end.

(** [jnp.argmax(logits, -1)] as a vector of 32-bit integers. *)
Definition argmax_last (logits : Arr2) : result (nat -> Z) :=
  if (cols logits =? 0)%nat then Raise EmptyAxisError
  else Ok (fun i => Z.of_nat (argmax_row (cols logits) (at2 logits i))).

(** [jnp.sum(am == y)] over [N] items: a 32-bit integer. *)
Definition count_correct (N : nat) (am y : nat -> Z) : Z :=
  wrap32 (Zsum N (fun i => b2z (am i =? y i)%Z)).

(** ** Collaborators

    The model's forward function, the optimizer and JAX's differentiation
    transforms are supplied from outside.  [apply_fn] and [tx] are the static
    fields of the flax [TrainState]; they never change during training. *)

Class Model (Params Input OptState : Type) : Type := {
  (* state.apply_fn: parameters and input to logits [[N, C]] *)
  apply_fn : Params -> Input -> Arr2;
  (* state.tx: one optimizer update, already applied to the parameters *)
  tx : Params -> OptState -> Params -> Params * OptState;
  (* jax.grad of a scalar function of the parameter tree *)
  jax_grad : (Params -> R) -> Params -> Params;
  (* jax.jacrev of the model output with respect to the parameter tree: one
     leaf of shape [[N, C] ++ s] for each parameter leaf of shape [s] *)
  jax_jacrev : (Params -> Input -> Arr2) -> Params -> Input -> pytree
}.

Record TrainState (Params OptState : Type) : Type := mkTrainState {
  step : Z;
  params : Params;
  opt_state : OptState
}.

Arguments mkTrainState {Params OptState} step params opt_state.
Arguments step {Params OptState} t.
Arguments params {Params OptState} t.
Arguments opt_state {Params OptState} t.

Record Batch (Input : Type) : Type := mkBatch {
  batch_x : Input;       (* [[N, ...]] *)
  batch_y : nat -> Z     (* [[N]], integer-encoded *)
}.

Arguments mkBatch {Input} batch_x batch_y.
Arguments batch_x {Input} b.
Arguments batch_y {Input} b.

(** Modelled from the spec: [data_utils.DataLoader] is not among the
    sources.  It is "a finite, restartable sequence of batches and a known
    total item count, consumed fully, in order": the batches it yields on
    every iteration, and [len(dataloader.dataset)]. *)
Record DataLoader (Input : Type) : Type := mkDataLoader {
  batches : list (Batch Input);
  dataset_len : nat
}.

Arguments mkDataLoader {Input} batches dataset_len.
Arguments batches {Input} d.
Arguments dataset_len {Input} d.

(** What [save_results] was called with: the array, the step counter and,
    for the samples, the batch-size tag.  The total is [None] when the GGN
    data loader yields no batch. *)
Inductive event : Type :=
| SaveSamples (GGN_samples : Arr3) (n_steps : Z) (batch_size : nat)
| SaveTotal (GGN_total : option Arr2) (n_steps : Z).

(** Modelled from the spec: [log_utils.save_results] is not among the
    sources.  It "accepts (array, global step, destination, optional
    batch-size tag) and persists it"; here it appends the call to the store,
    and does not fail. *)
Definition save_results (store : list event) (call : event) : list event :=
  store ++ [call].

Definition is_total (e : event) : bool :=
  match e with
  | SaveTotal _ _ => true
  | SaveSamples _ _ _ => false
  end.

Definition event_n_steps (e : event) : Z :=
  match e with
  | SaveSamples _ n _ => n
  | SaveTotal _ n => n
  end.

(** The running statistics of one GGN iteration. *)
Record GGNStats : Type := mkGGNStats {
  GGN_counter : nat;
  GGN_total : option Arr2;
  GGN_samples : option Arr3
}.

Definition GGN_init : GGNStats := mkGGNStats 0 None None.

(** Lines 265-272: the running average of the GGN samples. *)
Definition update_samples
    (GGN_samples : option Arr3) (GGN : Arr3) (aggregated_batch_size : nat)
  : result Arr3 :=
  match GGN_samples with
  | None => Ok (copy GGN)
  | Some samples =>
      d <- sub3 GGN samples ;;
      add3 samples (div3 d (INR aggregated_batch_size))
  end.

(** Lines 281-286: the running average of the total GGN. *)
Definition update_total
    (GGN_total : option Arr2) (GGN : Arr3) (GGN_counter : nat) : result Arr2 :=
  match GGN_total with
  | None => Ok (mean_axis0 GGN)
  | Some total =>
      d <- sub3 GGN (expand_dims0 total) ;;
      add2 total (div2 (sum_axis0 d) (INR GGN_counter))
  end.

(** [aggregated_batch_size in ggn_batch_sizes] *)
Definition in_sizes (m : nat) (ggn_batch_sizes : list Z) : bool :=
  existsb (Z.eqb (Z.of_nat m)) ggn_batch_sizes.

(** Lines 265-286: what one GGN batch does to the running statistics and to
    the store, once its per-item GGN is known. *)
Definition ggn_accumulate
    (ggn_batch_sizes : list Z) (n_steps : Z)
    (st : GGNStats * list event) (ggn_step_idx : nat) (GGN : Arr3)
  : result (GGNStats * list event) :=
  let '(stats, store) := st in
  let aggregated_batch_size := (ggn_step_idx + 1)%nat in
  samples <- update_samples (GGN_samples stats) GGN aggregated_batch_size ;;
  let store :=
    if in_sizes aggregated_batch_size ggn_batch_sizes
    then save_results store
           (SaveSamples samples n_steps aggregated_batch_size)
    else store in
  let counter := (GGN_counter stats + dim0 GGN)%nat in
  total <- update_total (GGN_total stats) GGN counter ;;
  Ok (mkGGNStats counter (Some total) (Some samples), store).

(** Lines 259-286 without the call of [compute_ggn]: the loop over per-item
    GGN tensors that are already computed. *)
Fixpoint ggn_fold
    (ggn_batch_sizes : list Z) (n_steps : Z) (ggn_step_idx : nat)
    (gs : list Arr3) (st : GGNStats * list event)
  : result (GGNStats * list event) :=
  match gs with
  | [] => Ok st
  | GGN :: rest =>
      st' <- ggn_accumulate ggn_batch_sizes n_steps st ggn_step_idx GGN ;;
      ggn_fold ggn_batch_sizes n_steps (S ggn_step_idx) rest st'
  end.

Section Program.

Context {Params Input OptState : Type} {M : Model Params Input OptState}.

(** [model_fn] of [compute_ggn], lines 143-156. *)
Definition model_fn (p : Params) (x : Input) : Arr2 := apply_fn p x.

(** [model_loss_fn] of [train_step] and [test_step]. *)
Definition model_loss_fn (p : Params) (x : Input) (y : nat -> Z)
  : R * (Arr1 * Arr2) :=
  let logits := apply_fn p x in
  let loss_unreduced := softmax_cross_entropy_with_integer_labels logits y in
  let loss := mean1 loss_unreduced in
  (loss, (loss_unreduced, logits)).

(** [state.apply_gradients(grads=...)]; under [jax.jit] the step counter of
    the state is a 32-bit integer. *)
Definition apply_gradients
    (state : TrainState Params OptState) (grads : Params)
  : TrainState Params OptState :=
  let '(new_params, new_opt_state) :=
    tx grads (opt_state state) (params state) in
  mkTrainState (wrap32 (step state + 1)) new_params new_opt_state.

(** Lines 66 and 122: [jnp.sum(jnp.argmax(logits, -1) == y)]. *)
Definition n_correct_of (logits : Arr2) (y : nat -> Z) : result Z :=
  am <- argmax_last logits ;;
  Ok (count_correct (rows logits) am y).

(** Lines 15-71. *)
Definition train_step (state : TrainState Params OptState) (batch : Batch Input)
  : result (TrainState Params OptState * Arr1 * Z) :=
  let x := batch_x batch in
  let y := batch_y batch in
  let '(_, (loss, logits)) := model_loss_fn (params state) x y in
  let d_loss := jax_grad (fun p => fst (model_loss_fn p x y)) (params state) in
  n_correct <- n_correct_of logits y ;;
  let state := apply_gradients state d_loss in
  Ok (state, loss, n_correct).

(** Lines 74-124. *)
Definition test_step (state : TrainState Params OptState) (batch : Batch Input)
  : result (Arr1 * Z) :=
  let x := batch_x batch in
  let y := batch_y batch in
  let '(_, (loss, logits)) := model_loss_fn (params state) x y in
  n_correct <- n_correct_of logits y ;;
  Ok (loss, n_correct).

(** The per-item Jacobian in vector representation, lines 191-197. *)
Definition J_model_flat (state : TrainState Params OptState) (x : Input)
  : result Arr3 :=
  let logits := model_fn (params state) x in
  let N := rows logits in
  let C := cols logits in
  let J_model := jax_jacrev model_fn (params state) x in
  leaves <- mapM (reshape_NC N C) (tree_leaves J_model) ;;
  concatenate_axis2 leaves.

(** Lines 127-202. *)
Definition compute_ggn (state : TrainState Params OptState) (batch : Batch Input)
  : result Arr3 :=
  let x := batch_x batch in
  let y := batch_y batch in
  let logits := model_fn (params state) x in
  let H_loss := vmap_H_loss_fn logits y in
  J_model <- J_model_flat state x ;;
  Ok (einsum_nax_nab_nby J_model H_loss J_model).

(** Lines 259-286: the loop over the GGN data loader. *)
Fixpoint ggn_loop
    (state : TrainState Params OptState)
    (ggn_batch_sizes : list Z) (n_steps : Z) (ggn_step_idx : nat)
    (ggn_batches : list (Batch Input)) (st : GGNStats * list event)
  : result (GGNStats * list event) :=
  match ggn_batches with
  | [] => Ok st
  | ggn_batch :: rest =>
      GGN <- compute_ggn state ggn_batch ;;
      st' <- ggn_accumulate ggn_batch_sizes n_steps st ggn_step_idx GGN ;;
      ggn_loop state ggn_batch_sizes n_steps (S ggn_step_idx) rest st'
  end.

(** Lines 253-290: one GGN iteration; it ends by saving the total GGN. *)
Definition ggn_pass
    (state : TrainState Params OptState) (ggn_dataloader : DataLoader Input)
    (ggn_batch_sizes : list Z) (n_steps : Z) (store : list event)
  : result (list event) :=
  '(stats, store) <-
    ggn_loop state ggn_batch_sizes n_steps 0 (batches ggn_dataloader)
      (GGN_init, store) ;;
  Ok (save_results store (SaveTotal (GGN_total stats) n_steps)).

(** The running statistics of an epoch, together with the store. *)
Record Epoch : Type := mkEpoch {
  e_state : TrainState Params OptState;
  loss_epoch : list Arr1;
  n_correct_epoch : Z;
  GGN_iter_counter : Z;
  e_n_steps : Z;
  e_store : list event
}.

(** Line 252: [GGN_iter_counter < n_ggn_iterations and n_steps % ggn_freq == 0];
    the modulo is evaluated only when the first test holds. *)
Definition ggn_due (GGN_iter_counter n_ggn_iterations n_steps ggn_freq : Z)
  : result bool :=
  if (GGN_iter_counter <? n_ggn_iterations)%Z then
    if (ggn_freq =? 0)%Z then Raise ZeroDivisionError
    else Ok (n_steps mod ggn_freq =? 0)%Z
  else Ok false.

(** Lines 251-298: the body of the loop over the training data loader. *)
Definition train_iter
    (ggn_dataloader : DataLoader Input) (ggn_batch_sizes : list Z)
    (ggn_freq n_ggn_iterations : Z) (e : Epoch) (batch : Batch Input)
  : result Epoch :=
  due <- ggn_due (GGN_iter_counter e) n_ggn_iterations (e_n_steps e) ggn_freq ;;
  '(store, counter) <-
    (if due : bool then
       store <- ggn_pass (e_state e) ggn_dataloader ggn_batch_sizes
                  (e_n_steps e) (e_store e) ;;
       Ok (store, (GGN_iter_counter e + 1)%Z)
     else Ok (e_store e, GGN_iter_counter e)) ;;
  '(state, loss, n_correct) <- train_step (e_state e) batch ;;
  Ok (mkEpoch state (loss_epoch e ++ [loss])
        (wrap32 (n_correct_epoch e + n_correct))
        counter (e_n_steps e + 1)%Z store).

(** Lines 250-303: the loop over the training data loader. *)
Fixpoint train_loop
    (ggn_dataloader : DataLoader Input) (ggn_batch_sizes : list Z)
    (ggn_freq n_ggn_iterations : Z)
    (train_batches : list (Batch Input)) (e : Epoch) : result Epoch :=
  match train_batches with
  | [] => Ok e
  | batch :: rest =>
      e' <- train_iter ggn_dataloader ggn_batch_sizes ggn_freq
              n_ggn_iterations e batch ;;
      train_loop ggn_dataloader ggn_batch_sizes ggn_freq n_ggn_iterations
        rest e'
  end.

(** Lines 305-307 and 354-356: epoch loss and epoch accuracy. *)
Definition epoch_statistics
    (loss_epoch : list Arr1) (n_correct_epoch : Z) (dataset_len : nat)
  : result (R * R) :=
  all <- concatenate1 loss_epoch ;;
  Ok (mean1 all, IZR n_correct_epoch / INR dataset_len).

(** What [train_epoch] returns, and the store it leaves behind. *)
Record TrainResult : Type := mkTrainResult {
  r_state : TrainState Params OptState;
  r_loss : R;
  r_accuracy : R;
  r_n_steps : Z;
  r_remaining : Z;
  r_store : list event
}.

(** Lines 205-309. *)
Definition train_epoch
    (state : TrainState Params OptState)
    (train_dataloader ggn_dataloader : DataLoader Input)
    (ggn_batch_sizes : list Z) (ggn_freq n_ggn_iterations n_steps : Z)
  : result TrainResult :=
  e <- train_loop ggn_dataloader ggn_batch_sizes ggn_freq n_ggn_iterations
         (batches train_dataloader)
         (mkEpoch state [] 0%Z 0%Z n_steps []) ;;
  '(loss, accuracy) <-
    epoch_statistics (loss_epoch e) (n_correct_epoch e)
      (dataset_len train_dataloader) ;;
  Ok (mkTrainResult (e_state e) loss accuracy (e_n_steps e)
        (n_ggn_iterations - GGN_iter_counter e)%Z (e_store e)).

(** Lines 341-347: the body of the loop over the test data loader. *)
Definition test_iter
    (state : TrainState Params OptState) (acc : list Arr1 * Z)
    (batch : Batch Input) : result (list Arr1 * Z) :=
  let '(loss_epoch, n_correct_epoch) := acc in
  '(loss, n_correct) <- test_step state batch ;;
  Ok (loss_epoch ++ [loss], wrap32 (n_correct_epoch + n_correct)).

Fixpoint test_loop
    (state : TrainState Params OptState)
    (test_batches : list (Batch Input)) (acc : list Arr1 * Z)
  : result (list Arr1 * Z) :=
  match test_batches with
  | [] => Ok acc
  | batch :: rest =>
      acc' <- test_iter state acc batch ;;
      test_loop state rest acc'
  end.

(** Lines 312-358. *)
Definition test_epoch
    (state : TrainState Params OptState) (test_dataloader : DataLoader Input)
  : result (R * R) :=
  '(loss_epoch, n_correct_epoch) <-
    test_loop state (batches test_dataloader) ([], 0%Z) ;;
  epoch_statistics loss_epoch n_correct_epoch (dataset_len test_dataloader).

End Program.

(** ** Definitions used to state the properties *)

(** The value of [reshape_NC N C] on a leaf [a] of shape [[N, C] ++ s]. *)
Definition reshaped (N C : nat) (as_ : NdArr * list nat) : Arr3 :=
  let '(a, s) := as_ in
  mkArr3 N C (prod_shape s)
    (fun n c k => flat a ((n * C + c) * prod_shape s + k)%nat).

(** The first column that parameter leaf [i] occupies in the flattened
    Jacobian, given the shapes of the parameter leaves. *)
Definition leaf_offset (pshapes : list (list nat)) (i : nat) : nat :=
  list_sum (map prod_shape (firstn i pshapes)).

(** The sum of the entries [(x, y)] of every per-item GGN in the batches
    [gs], and the number of items in them. *)
Fixpoint items_sum (gs : list Arr3) (x y : nat) : R :=
  match gs with
  | [] => 0
  | g :: r => Rsum (dim0 g) (fun i => at3 g i x y) + items_sum r x y
  end.

Definition items_count (gs : list Arr3) : nat := list_sum (map dim0 gs).

(** The sum, over the batches [gs], of entry [(x, y)] of the per-item GGN at
    position [i] of its batch. *)
Fixpoint position_sum (gs : list Arr3) (i x y : nat) : R :=
  match gs with
  | [] => 0
  | g :: r => at3 g i x y + position_sum r i x y
  end.

(** The batch size of the samples aggregate as batches of sizes [ns] are
    folded into an aggregate of batch size [cur]; [None] when a batch does
    not broadcast against it. *)
Fixpoint broadcast_dims (cur : nat) (ns : list nat) : option nat :=
  match ns with
  | [] => Some cur
  | n :: r =>
      match bdim n cur with
      | Some d => broadcast_dims d r
      | None => None
      end
  end.

(** The batches [gs] all have [D] by [D] items, and their sizes broadcast. *)
Definition accumulable (D : nat) (gs : list Arr3) : Prop :=
  Forall (fun g => dim1 g = D /\ dim2 g = D) gs /\
  match gs with
  | [] => True
  | g :: r => broadcast_dims (dim0 g) (map dim0 r) <> None
  end.

(** The shapes of the running averages once a batch has been folded in. *)
Definition stats_shape (D d : nat) (stats : GGNStats) : Prop :=
  exists T S,
    GGN_total stats = Some T /\ GGN_samples stats = Some S /\
    rows T = D /\ cols T = D /\ dim0 S = d /\ dim1 S = D /\ dim2 S = D.

(** The tags of the saved samples, in order. *)
Fixpoint samples_tags (store : list event) : list (Z * nat) :=
  match store with
  | [] => []
  | SaveSamples _ n m :: r => (n, m) :: samples_tags r
  | SaveTotal _ _ :: r => samples_tags r
  end.

(** [c] is the first index of a maximum of [z] over [0 .. C-1]. *)
Definition first_max (C : nat) (z : nat -> R) (c : nat) : Prop :=
  (c < C)%nat /\
  (forall c', (c' < C)%nat -> z c' <= z c) /\
  (forall c', (c' < c)%nat -> z c' < z c).

(** The items of a batch of [N] items whose predicted class is their label. *)
Definition correct_items (logits : Arr2) (y : nat -> Z) : list nat :=
  filter (fun i => (Z.of_nat (argmax_row (cols logits) (at2 logits i)) =? y i)%Z)
    (seq 0 (rows logits)).

(** The number of total-GGN saves in a store. *)
Definition count_total (store : list event) : nat :=
  length (filter is_total store).

(** The sum of all per-item losses of an epoch. *)
Fixpoint losses_sum (ls : list Arr1) : R :=
  match ls with
  | [] => 0
  | l :: r => Rsum (len1 l) (at1 l) + losses_sum r
  end.

Definition correct_sum (ns : list Z) : Z := fold_right Z.add 0%Z ns.

Section Outputs.

Context {Params Input OptState : Type} {M : Model Params Input OptState}.

(** What the training steps of an epoch return, batch after batch: the
    per-item losses and the number of correct predictions. *)
Fixpoint train_outputs
    (state : TrainState Params OptState) (bs : list (Batch Input))
  : list (Arr1 * Z) :=
  match bs with
  | [] => []
  | b :: r =>
      match train_step state b with
      | Ok (state', loss, n_correct) => (loss, n_correct) :: train_outputs state' r
      | Raise _ => []
      end
  end.

(** The state after the training steps on the batches [bs]. *)
Fixpoint state_after
    (state : TrainState Params OptState) (bs : list (Batch Input))
  : TrainState Params OptState :=
  match bs with
  | [] => state
  | b :: r =>
      match train_step state b with
      | Ok (state', _, _) => state_after state' r
      | Raise _ => state
      end
  end.

Definition test_outputs
    (state : TrainState Params OptState) (bs : list (Batch Input))
  : list (Arr1 * Z) :=
  flat_map (fun b => match test_step state b with
                     | Ok o => [o]
                     | Raise _ => []
                     end) bs.

(** The model has at least one class. *)
Definition has_classes : Prop :=
  forall (p : Params) (x : Input), (0 < cols (apply_fn p x))%nat.

(** No batch of the loader is empty: the logits of each of its batches have
    at least one item and one class. *)
Definition nonempty_batches (loader : DataLoader Input) : Prop :=
  forall (p : Params) (b : Batch Input), In b (batches loader) ->
    (0 < rows (apply_fn p (batch_x b)))%nat /\
    (0 < cols (apply_fn p (batch_x b)))%nat.

(** Every GGN iteration over the data loader goes through. *)
Definition passes_succeed
    (ggn_dataloader : DataLoader Input) (ggn_batch_sizes : list Z) : Prop :=
  forall (state : TrainState Params OptState) (n_steps : Z) (store : list event),
  exists store',
    ggn_pass state ggn_dataloader ggn_batch_sizes n_steps store = Ok store'.

End Outputs.

(** The step counters of [n] consecutive training batches, from [s] on. *)
Fixpoint step_counters (s : Z) (n : nat) : list Z :=
  match n with
  | O => []
  | S k => s :: step_counters (s + 1) k
  end.

(** The first [n_ggn_iterations] step counters of an epoch that are
    multiples of [ggn_freq]. *)
Definition ggn_schedule (ggn_freq n_ggn_iterations n_steps : Z) (n : nat)
  : list Z :=
  firstn (Z.to_nat n_ggn_iterations)
    (filter (fun s => (s mod ggn_freq =? 0)%Z) (step_counters n_steps n)).

(** The step counters under which the total GGN was saved, in order. *)
Definition total_tags (store : list event) : list Z :=
  map event_n_steps (filter is_total store).

(** The sum, over all items of the batches [gs], of the quadratic forms of
    their per-item GGNs. *)
Fixpoint items_quad (gs : list Arr3) (v : nat -> R) : R :=
  match gs with
  | [] => 0
  | g :: r =>
      Rsum (dim0 g) (fun i => quad_form (slice0 g i) v) + items_quad r v
  end.

(** The sum, over the batches [gs], of the quadratic forms of the per-item
    GGNs at position [i]. *)
Fixpoint position_quad (gs : list Arr3) (i : nat) (v : nat -> R) : R :=
  match gs with
  | [] => 0
  | g :: r => quad_form (slice0 g i) v + position_quad r i v
  end.

(** The matrix-vector product [m v]. *)
Definition matvec (m : Arr2) (v : nat -> R) (i : nat) : R :=
  Rsum (cols m) (fun j => at2 m i j * v j).

(** The labels of the batches lie in [0 .. C-1]. *)
Definition labels_in_range {Params Input OptState : Type}
    {M : Model Params Input OptState}
    (state : TrainState Params OptState) (bs : list (Batch Input)) : Prop :=
  forall b i, In b bs ->
    (i < rows (apply_fn (params state) (batch_x b)))%nat ->
    (0 <= batch_y b i < Z.of_nat (cols (apply_fn (params state) (batch_x b))))%Z.

(** ** A small model, used to run the definitions

    One input feature, two classes, a bias and a kernel of two entries each:
    [logits[n][c] = kernel[c] * x[n] + bias[c]]. *)

Record ToyParams : Type := mkToyParams { bias : nat -> R; kernel : nat -> R }.

Definition toy_apply (p : ToyParams) (x : Arr1) : Arr2 :=
  mkArr2 (len1 x) 2 (fun n c => kernel p c * at1 x n + bias p c).

(** The Jacobian of [toy_apply]: one leaf of shape [[N, 2, 2]] per
    parameter leaf, the bias first. *)
Definition toy_jacrev (f : ToyParams -> Arr1 -> Arr2) (p : ToyParams) (x : Arr1)
  : pytree :=
  Node [Leaf (mkNdArr [len1 x; 2; 2]%nat
                (fun i => if ((i / 2) mod 2 =? i mod 2)%nat then 1 else 0));
        Leaf (mkNdArr [len1 x; 2; 2]%nat
                (fun i => if ((i / 2) mod 2 =? i mod 2)%nat
                          then at1 x (i / 4) else 0))].

(** The toy optimizer is plain gradient descent; the toy gradient oracle
    reports a stationary point, so the toy parameters never move. *)
Definition toy_grad (f : ToyParams -> R) (p : ToyParams) : ToyParams :=
  mkToyParams (fun _ => 0) (fun _ => 0).

Definition toy_tx (g : ToyParams) (o : unit) (p : ToyParams) : ToyParams * unit :=
  (mkToyParams (fun c => bias p c - bias g c / 10)
               (fun c => kernel p c - kernel g c / 10), o).

#[export] Instance toy_model : Model ToyParams Arr1 unit := {
  apply_fn := toy_apply;
  tx := toy_tx;
  jax_grad := toy_grad;
  jax_jacrev := toy_jacrev
}.

Definition toy_state : TrainState ToyParams unit :=
  mkTrainState 0%Z (mkToyParams (fun _ => 0) (fun _ => 0)) tt.

(** A batch of [N] items with features [1, 2, ...] and the labels
    [0, 1, 0, 1, ...] of the two classes. *)
Definition toy_batch (N : nat) : Batch Arr1 :=
  mkBatch (mkArr1 N (fun n => INR n + 1)) (fun n => Z.of_nat (n mod 2)).

(** The per-item GGN of the toy batch of [N] items. *)
Definition toy_ggn (N : nat) : Arr3 :=
  match compute_ggn toy_state (toy_batch N) with
  | Ok g => g
  | Raise _ => mkArr3 0 0 0 (fun _ _ _ => 0)
  end.

(** A data loader that yields toy batches of the given sizes. *)
Definition toy_loader (batch_sizes : list nat) : DataLoader Arr1 :=
  mkDataLoader (map toy_batch batch_sizes) (list_sum batch_sizes).

(** A second toy batch of [N] items, with other features and labels. *)
Definition toy_batch' (N : nat) : Batch Arr1 :=
  mkBatch (mkArr1 N (fun n => 3 - INR n)) (fun _ => 1%Z).

(** The per-item GGN of the second toy batch. *)
Definition toy_ggn' (N : nat) : Arr3 :=
  match compute_ggn toy_state (toy_batch' N) with
  | Ok g => g
  | Raise _ => mkArr3 0 0 0 (fun _ _ _ => 0)
  end.

(** The flattened Jacobian of the toy model on the toy batch. *)
Definition toy_J (N : nat) : Arr3 :=
  match J_model_flat toy_state (batch_x (toy_batch N)) with
  | Ok J => J
  | Raise _ => mkArr3 0 0 0 (fun _ _ _ => 0)
  end.

(** * Properties *)

(** ** Finite sums *)

Lemma Rsum_ext (n : nat) (f g : nat -> R) :
  (forall i, (i < n)%nat -> f i = g i) -> Rsum n f = Rsum n g.
Proof.
  induction n as [|n IH]; intros E; simpl.
  - reflexivity.
  - rewrite IH by (intros; apply E; lia). rewrite E by lia. reflexivity.
Qed.

Lemma Rsum_zero (n : nat) : Rsum n (fun _ => 0) = 0.
Proof. induction n; simpl; lra. Qed.

Lemma Rsum_plus (n : nat) (f g : nat -> R) :
  Rsum n (fun i => f i + g i) = Rsum n f + Rsum n g.
Proof. induction n; simpl; lra. Qed.

Lemma Rsum_minus (n : nat) (f g : nat -> R) :
  Rsum n (fun i => f i - g i) = Rsum n f - Rsum n g.
Proof. induction n; simpl; lra. Qed.

Lemma Rsum_scal_l (n : nat) (c : R) (f : nat -> R) :
  Rsum n (fun i => c * f i) = c * Rsum n f.
Proof. induction n as [|n IH]; simpl; [|rewrite IH]; lra. Qed.

Lemma Rsum_scal_r (n : nat) (c : R) (f : nat -> R) :
  Rsum n (fun i => f i * c) = Rsum n f * c.
Proof. induction n as [|n IH]; simpl; [|rewrite IH]; lra. Qed.

Lemma Rsum_const (n : nat) (c : R) : Rsum n (fun _ => c) = INR n * c.
Proof.
  induction n as [|n IH].
  - simpl. lra.
  - rewrite S_INR. simpl. rewrite IH. lra.
Qed.

Lemma Rsum_swap (n m : nat) (f : nat -> nat -> R) :
  Rsum n (fun i => Rsum m (fun j => f i j)) =
  Rsum m (fun j => Rsum n (fun i => f i j)).
Proof.
  induction n as [|n IH]; simpl.
  - symmetry. apply Rsum_zero.
  - rewrite IH. rewrite <- Rsum_plus. reflexivity.
Qed.

Lemma Rsum_nonneg (n : nat) (f : nat -> R) :
  (forall i, (i < n)%nat -> 0 <= f i) -> 0 <= Rsum n f.
Proof.
  induction n as [|n IH]; intros P; simpl.
  - lra.
  - assert (0 <= Rsum n f) by (apply IH; intros; apply P; lia).
    assert (0 <= f n) by (apply P; lia). lra.
Qed.

Lemma Rsum_pos (n : nat) (f : nat -> R) :
  (0 < n)%nat -> (forall i, (i < n)%nat -> 0 < f i) -> 0 < Rsum n f.
Proof.
  intros Hn P. destruct n as [|n]; [lia|]. simpl.
  assert (0 <= Rsum n f) by (apply Rsum_nonneg; intros; left; apply P; lia).
  assert (0 < f n) by (apply P; lia). lra.
Qed.

Lemma Rsum_app (n m : nat) (f : nat -> R) :
  Rsum (n + m) f = Rsum n f + Rsum m (fun i => f (n + i)%nat).
Proof.
  induction m as [|m IH].
  - rewrite Nat.add_0_r. simpl. lra.
  - rewrite Nat.add_succ_r. simpl. rewrite IH. lra.
Qed.

(** A sum that meets a single non-zero term. *)
Lemma Rsum_single (n k : nat) (f : nat -> R) :
  (k < n)%nat ->
  Rsum n (fun i => if (i =? k)%nat then f i else 0) = f k.
Proof.
  induction n as [|n IH]; intros Hk; [lia|]. simpl.
  destruct (Nat.eqb_spec n k) as [->|Hne].
  - rewrite (Rsum_ext k _ (fun _ => 0)).
    + rewrite Rsum_zero. lra.
    + intros i Hi. destruct (Nat.eqb_spec i k); [lia|reflexivity].
  - rewrite IH by lia. lra.
Qed.

Lemma Zsum_b2z_bounds (n : nat) (p : nat -> bool) :
  (0 <= Zsum n (fun i => b2z (p i)) <= Z.of_nat n)%Z.
Proof.
  induction n as [|n IH].
  - simpl. lia.
  - cbn [Zsum]. destruct (p n); simpl b2z; lia.
Qed.

Lemma Zsum_b2z_count (n : nat) (p : nat -> bool) :
  Zsum n (fun i => b2z (p i)) = Z.of_nat (length (filter p (seq 0 n))).
Proof.
  induction n as [|n IH].
  - reflexivity.
  - cbn [Zsum]. rewrite IH, seq_S, filter_app, length_app. simpl.
    destruct (p n); simpl; lia.
Qed.

(** ** The loss and its derivatives *)

Lemma deriv_ext (f g : R -> R) (x l l' : R) :
  (forall t, g t = f t) -> l' = l ->
  derivable_pt_lim f x l -> derivable_pt_lim g x l'.
Proof.
  intros E -> D eps Heps. destruct (D eps Heps) as [delta Hd].
  exists delta. intros h Hh Hlt. rewrite !E. apply Hd; assumption.
Qed.

Lemma deriv_shifted_exp (K c : R) :
  derivable_pt_lim (fun t => K + exp (c + t)) 0 (exp c).
Proof.
  apply (deriv_ext (fct_cte K + comp exp (fct_cte c + id))%F _ 0
           (0 + exp (c + 0) * (0 + 1))).
  - intros t. reflexivity.
  - rewrite Rplus_0_r. lra.
  - apply derivable_pt_lim_plus.
    + apply derivable_pt_lim_const.
    + apply derivable_pt_lim_comp.
      * apply derivable_pt_lim_plus;
          [apply derivable_pt_lim_const | apply derivable_pt_lim_id].
      * apply derivable_pt_lim_exp.
Qed.

Lemma sum_exp_pos (C : nat) (z : nat -> R) : (0 < C)%nat -> 0 < sum_exp C z.
Proof. intros HC. apply Rsum_pos; [assumption | intros; apply exp_pos]. Qed.

Lemma bump_0 (z : nat -> R) (b c : nat) : bump z b 0 c = z c.
Proof. unfold bump. destruct (c =? b)%nat; lra. Qed.

Lemma sum_exp_bump_out (C b : nat) (z : nat -> R) (t : R) :
  (C <= b)%nat -> sum_exp C (bump z b t) = sum_exp C z.
Proof.
  intros Hb. apply Rsum_ext. intros i Hi. unfold bump.
  destruct (Nat.eqb_spec i b); [lia | reflexivity].
Qed.

(** Moving one logit changes a single term of the normaliser. *)
Lemma sum_exp_bump (C b : nat) (z : nat -> R) (t : R) :
  (b < C)%nat ->
  sum_exp C (bump z b t) = (sum_exp C z - exp (z b)) + exp (z b + t).
Proof.
  induction C as [|C IH]; intros Hb; [lia|].
  unfold sum_exp in *. simpl.
  destruct (Nat.eq_dec b C) as [->|Hne].
  - fold (sum_exp C (bump z C t)). rewrite sum_exp_bump_out by lia.
    unfold sum_exp, bump. rewrite Nat.eqb_refl. lra.
  - rewrite IH by lia. unfold bump at 1.
    destruct (Nat.eqb_spec C b); [lia|]. lra.
Qed.

Lemma softmax_pos (C : nat) (z : nat -> R) (c : nat) :
  (0 < C)%nat -> 0 < softmax C z c.
Proof.
  intros HC. unfold softmax. apply Rdiv_lt_0_compat;
    [apply exp_pos | apply sum_exp_pos; assumption].
Qed.

Lemma softmax_sum (C : nat) (z : nat -> R) :
  (0 < C)%nat -> Rsum C (softmax C z) = 1.
Proof.
  intros HC. unfold softmax.
  rewrite (Rsum_ext C _ (fun c => exp (z c) * / sum_exp C z))
    by (intros; reflexivity).
  rewrite Rsum_scal_r. fold (sum_exp C z).
  apply Rinv_r. apply Rgt_not_eq. apply sum_exp_pos. assumption.
Qed.

(** [d_loss_fn] is the gradient of [loss_fn]: its entry [a] is the derivative
    of the loss along logit [a]. *)
Lemma d_loss_fn_is_gradient (C : nat) (z : nat -> R) (y : Z) (a : nat) :
  (a < C)%nat ->
  derivable_pt_lim (fun t => loss_fn C (bump z a t) y) 0 (d_loss_fn C z y a).
Proof.
  intros Ha.
  assert (HS : 0 < sum_exp C z) by (apply sum_exp_pos; lia).
  set (K := sum_exp C z - exp (z a)).
  set (S := fun t => K + exp (z a + t)).
  set (L := fun t : R => if (label_index C y =? a)%nat then z (label_index C y) + t
                         else z (label_index C y)).
  set (l := if (label_index C y =? a)%nat then 1 else 0).
  assert (DL : derivable_pt_lim L 0 l).
  { unfold L, l. destruct (label_index C y =? a)%nat.
    - apply (deriv_ext (fct_cte (z (label_index C y)) + id)%F _ 0 (0 + 1));
        [reflexivity | lra |].
      apply derivable_pt_lim_plus;
        [apply derivable_pt_lim_const | apply derivable_pt_lim_id].
    - apply (derivable_pt_lim_const (z (label_index C y)) 0). }
  assert (S0 : S 0 = sum_exp C z) by (unfold S, K; rewrite Rplus_0_r; lra).
  assert (DS : derivable_pt_lim (comp ln S) 0 (/ S 0 * exp (z a))).
  { apply derivable_pt_lim_comp.
    - apply deriv_shifted_exp.
    - apply derivable_pt_lim_ln. rewrite S0. assumption. }
  apply (deriv_ext (comp ln S - L)%F _ 0 (/ S 0 * exp (z a) - l)).
  - intros t. unfold loss_fn, minus_fct, comp, S, L, K.
    rewrite sum_exp_bump by assumption. unfold bump.
    destruct (label_index C y =? a)%nat; reflexivity.
  - rewrite S0. unfold d_loss_fn, softmax, l.
    rewrite (Nat.eqb_sym a). destruct (label_index C y =? a)%nat; lra.
  - apply derivable_pt_lim_minus; assumption.
Qed.

(** [H_loss_fn] is the Jacobian of [d_loss_fn]: its entry [(a, b)] is the
    derivative of gradient entry [a] along logit [b]. *)
Lemma H_loss_fn_is_hessian (C : nat) (z : nat -> R) (y : Z) (a b : nat) :
  (a < C)%nat -> (b < C)%nat ->
  derivable_pt_lim (fun t => d_loss_fn C (bump z b t) y a) 0
    (at2 (H_loss_fn C z y) a b).
Proof.
  intros Ha Hb.
  assert (HS : 0 < sum_exp C z) by (apply sum_exp_pos; lia).
  set (K := sum_exp C z - exp (z b)).
  set (S := fun t => K + exp (z b + t)).
  assert (S0 : S 0 = sum_exp C z) by (unfold S, K; rewrite Rplus_0_r; lra).
  assert (DS : derivable_pt_lim S 0 (exp (z b))) by apply deriv_shifted_exp.
  set (c := if (a =? label_index C y)%nat then 1 else 0).
  destruct (Nat.eq_dec a b) as [->|Hne].
  - set (E := fun t => 0 + exp (z b + t)).
    assert (DE : derivable_pt_lim E 0 (exp (z b))) by apply deriv_shifted_exp.
    apply (deriv_ext (E / S - fct_cte c)%F _ 0
             ((exp (z b) * S 0 - exp (z b) * E 0) / Rsqr (S 0) - 0)).
    + intros t. unfold d_loss_fn, softmax, minus_fct, div_fct, fct_cte, E, S, K, c.
      rewrite sum_exp_bump by assumption. unfold bump.
      rewrite Nat.eqb_refl. lra.
    + simpl. rewrite Nat.eqb_refl. rewrite S0. unfold E, softmax, Rsqr.
      rewrite !Rplus_0_r, Rplus_0_l. field. lra.
    + apply derivable_pt_lim_minus; [|apply derivable_pt_lim_const].
      apply derivable_pt_lim_div; [assumption | assumption | rewrite S0; lra].
  - apply (deriv_ext (fct_cte (exp (z a)) / S - fct_cte c)%F _ 0
             ((0 * S 0 - exp (z b) * fct_cte (exp (z a)) 0) / Rsqr (S 0) - 0)).
    + intros t. unfold d_loss_fn, softmax, minus_fct, div_fct, fct_cte, S, K, c.
      rewrite sum_exp_bump by assumption. unfold bump.
      destruct (Nat.eqb_spec a b); [lia|]. lra.
    + simpl. destruct (Nat.eqb_spec a b); [lia|]. rewrite S0.
      unfold fct_cte, softmax, Rsqr. field. lra.
    + apply derivable_pt_lim_minus; [|apply derivable_pt_lim_const].
      apply derivable_pt_lim_div;
        [apply derivable_pt_lim_const | assumption | rewrite S0; lra].
Qed.

Lemma H_loss_fn_symmetric (C : nat) (z : nat -> R) (y : Z) (a b : nat) :
  at2 (H_loss_fn C z y) a b = at2 (H_loss_fn C z y) b a.
Proof.
  simpl. rewrite (Nat.eqb_sym b a).
  destruct (Nat.eqb_spec a b) as [->|]; lra.
Qed.

(** The quadratic form of the Hessian is a variance under the softmax
    distribution. *)
Lemma H_loss_fn_quad_form (C : nat) (z : nat -> R) (y : Z) (v : nat -> R) :
  (0 < C)%nat ->
  quad_form (H_loss_fn C z y) v =
  Rsum C (fun a =>
    softmax C z a * Rsqr (v a - Rsum C (fun b => softmax C z b * v b))).
Proof.
  intros HC. unfold quad_form. simpl.
  set (p := softmax C z). set (mu := Rsum C (fun b => p b * v b)).
  rewrite (Rsum_ext C _ (fun i => p i * v i * v i - p i * v i * mu)).
  2:{ intros i Hi.
      rewrite (Rsum_ext C _
        (fun j => (if (j =? i)%nat then v i * p i * v j else 0)
                  - (v i * p i) * (p j * v j))).
      2:{ intros j Hj. rewrite (Nat.eqb_sym i j).
          destruct (j =? i)%nat; lra. }
      rewrite Rsum_minus, (Rsum_single C i (fun j => v i * p i * v j)) by lia.
      rewrite Rsum_scal_l. fold mu. lra. }
  rewrite (Rsum_ext C (fun a => p a * Rsqr (v a - mu))
             (fun a => (p a * v a * v a - p a * v a * mu)
                       - (mu * (p a * v a) - mu * mu * p a)))
    by (intros; unfold Rsqr; lra).
  rewrite (Rsum_minus C _ (fun a => mu * (p a * v a) - mu * mu * p a)).
  rewrite (Rsum_minus C (fun a => mu * (p a * v a))).
  rewrite !Rsum_scal_l. fold mu.
  replace (Rsum C p) with 1 by (symmetry; apply softmax_sum; assumption).
  lra.
Qed.

Lemma H_loss_fn_psd (C : nat) (z : nat -> R) (y : Z) : psd (H_loss_fn C z y).
Proof.
  intros v. destruct C as [|C].
  - unfold quad_form. simpl. lra.
  - rewrite H_loss_fn_quad_form by lia.
    apply Rsum_nonneg. intros a _.
    apply Rmult_le_pos; [left; apply softmax_pos; lia | apply Rle_0_sqr].
Qed.

(** ** The sandwich product *)

Section Sandwich.

Variables (C D : nat) (J H : nat -> nat -> R).

Lemma sandwich_matmul (x y : nat) :
  sandwich C J H x y =
  Rsum C (fun b => Rsum C (fun a => J a x * H a b) * J b y).
Proof.
  unfold sandwich. rewrite Rsum_swap. apply Rsum_ext. intros b _.
  rewrite <- Rsum_scal_r. reflexivity.
Qed.

Lemma sandwich_symmetric (x y : nat) :
  (forall a b, (a < C)%nat -> (b < C)%nat -> H a b = H b a) ->
  sandwich C J H x y = sandwich C J H y x.
Proof.
  intros Hsym. unfold sandwich. rewrite Rsum_swap.
  apply Rsum_ext. intros a Ha. apply Rsum_ext. intros b Hb.
  rewrite (Hsym b a) by assumption. lra.
Qed.

(** [v^T (J^T H J) v = (J v)^T H (J v)] *)
Lemma sandwich_quad_form (v : nat -> R) :
  Rsum D (fun x => Rsum D (fun y => v x * sandwich C J H x y * v y)) =
  Rsum C (fun a => Rsum C (fun b =>
    Rsum D (fun x => J a x * v x) * H a b * Rsum D (fun y => J b y * v y))).
Proof.
  set (F := fun a b x y => v x * (J a x * H a b * J b y) * v y).
  transitivity
    (Rsum D (fun x => Rsum D (fun y => Rsum C (fun a => Rsum C (fun b =>
       F a b x y))))).
  { apply Rsum_ext. intros x _. apply Rsum_ext. intros y _.
    unfold sandwich. rewrite <- Rsum_scal_l, <- Rsum_scal_r.
    apply Rsum_ext. intros a _. rewrite <- Rsum_scal_l, <- Rsum_scal_r.
    reflexivity. }
  transitivity
    (Rsum C (fun a => Rsum C (fun b => Rsum D (fun x => Rsum D (fun y =>
       F a b x y))))).
  { rewrite (Rsum_ext D _
      (fun x => Rsum C (fun a => Rsum D (fun y => Rsum C (fun b =>
         F a b x y)))))
      by (intros; apply Rsum_swap).
    rewrite Rsum_swap. apply Rsum_ext. intros a _.
    rewrite (Rsum_ext D _
      (fun x => Rsum C (fun b => Rsum D (fun y => F a b x y))))
      by (intros; apply Rsum_swap).
    apply Rsum_swap. }
  apply Rsum_ext. intros a _. apply Rsum_ext. intros b _.
  rewrite <- Rsum_scal_r, <- Rsum_scal_r.
  apply Rsum_ext. intros x _.
  rewrite (Rmult_comm (J a x * v x * H a b)), <- Rsum_scal_r.
  apply Rsum_ext. intros y _. unfold F. lra.
Qed.

End Sandwich.

(** ** Reshaping and concatenating the Jacobian leaves *)

Lemma mapM_Forall2 {A B : Type} (f : A -> result B) (l : list A) (l' : list B) :
  mapM f l = Ok l' -> Forall2 (fun a b => f a = Ok b) l l'.
Proof.
  revert l'. induction l as [|a l IH]; intros l' E; simpl in E.
  - inversion E. constructor.
  - destruct (f a) as [b|] eqn:Ea; simpl in E; [|discriminate].
    destruct (mapM f l) as [bs|] eqn:El; simpl in E; [|discriminate].
    inversion E; subst. constructor; [assumption | apply IH; reflexivity].
Qed.

Lemma Forall2_mapM {A B : Type} (f : A -> result B) (l : list A) (l' : list B) :
  Forall2 (fun a b => f a = Ok b) l l' -> mapM f l = Ok l'.
Proof.
  induction 1 as [|a b l l' E _ IH]; simpl.
  - reflexivity.
  - rewrite E, IH. reflexivity.
Qed.

Lemma reshape_NC_dims (N C : nat) (a : NdArr) (r : Arr3) :
  reshape_NC N C a = Ok r ->
  dim0 r = N /\ dim1 r = C /\ dim2 r = (size a / (N * C))%nat.
Proof.
  unfold reshape_NC. destruct (N * C =? 0)%nat; [discriminate|].
  destruct (size a mod (N * C) =? 0)%nat; [|discriminate].
  intros E. inversion E. simpl. auto.
Qed.

(** A leaf of shape [[N, C] ++ s] is read as [[N, C, prod s]], row-major. *)
Lemma reshape_NC_leaf (N C : nat) (a : NdArr) (s : list nat) :
  (0 < N)%nat -> (0 < C)%nat -> shape a = N :: C :: s ->
  reshape_NC N C a =
  Ok (mkArr3 N C (prod_shape s)
        (fun n c k => flat a ((n * C + c) * prod_shape s + k)%nat)).
Proof.
  intros HN HC Hs. unfold reshape_NC, size. rewrite Hs. simpl.
  replace (N * (C * prod_shape s))%nat with (prod_shape s * (N * C))%nat by lia.
  assert (Hnz : (N * C <> 0)%nat) by lia.
  destruct (Nat.eqb_spec (N * C) 0); [contradiction|].
  rewrite Nat.Div0.mod_mul, Nat.div_mul by assumption.
  reflexivity.
Qed.

Lemma concatenate_axis2_dims (ls : list Arr3) (J : Arr3) (N C : nat) :
  concatenate_axis2 ls = Ok J ->
  Forall (fun m => dim0 m = N /\ dim1 m = C) ls ->
  dim0 J = N /\ dim1 J = C /\ dim2 J = cat2_dim ls /\ at3 J = cat2_at ls.
Proof.
  unfold concatenate_axis2. destruct ls as [|l r]; [discriminate|].
  destruct (forallb _ _); [|discriminate].
  intros E F. inversion E. simpl. inversion F as [|? ? [Hd0 Hd1] _]. auto.
Qed.

Lemma concatenate_axis2_ok (ls : list Arr3) (N C : nat) :
  ls <> [] -> Forall (fun m => dim0 m = N /\ dim1 m = C) ls ->
  concatenate_axis2 ls = Ok (mkArr3 N C (cat2_dim ls) (cat2_at ls)).
Proof.
  intros Hne F. unfold concatenate_axis2.
  destruct ls as [|l r]; [contradiction|].
  assert (Hl : dim0 l = N /\ dim1 l = C) by (inversion F; assumption).
  destruct Hl as [-> ->].
  replace (forallb _ (l :: r)) with true; [reflexivity|].
  symmetry. apply forallb_forall. intros m Hm.
  rewrite Forall_forall in F. destruct (F m Hm) as [-> ->].
  rewrite !Nat.eqb_refl. reflexivity.
Qed.

(** Column [offset + k] of the concatenation is column [k] of the leaf that
    starts at [offset]. *)
Lemma cat2_at_nth (ls : list Arr3) (i : nat) (l : Arr3) (n a k : nat) :
  nth_error ls i = Some l -> (k < dim2 l)%nat ->
  cat2_at ls n a (cat2_dim (firstn i ls) + k) = at3 l n a k.
Proof.
  revert i. induction ls as [|m ls IH]; intros i Hi Hk.
  - destruct i; discriminate.
  - destruct i as [|i]; simpl in *.
    + inversion Hi; subst. destruct (Nat.ltb_spec k (dim2 l)); [reflexivity|lia].
    + destruct (Nat.ltb_spec (dim2 m + cat2_dim (firstn i ls) + k) (dim2 m));
        [lia|].
      replace (dim2 m + cat2_dim (firstn i ls) + k - dim2 m)%nat
        with (cat2_dim (firstn i ls) + k)%nat by lia.
      apply IH; assumption.
Qed.

Section Jacobian.

Context {Params Input OptState : Type} {M : Model Params Input OptState}.

Lemma J_model_flat_dims (state : TrainState Params OptState) (x : Input)
    (J : Arr3) :
  J_model_flat state x = Ok J ->
  dim0 J = rows (apply_fn (params state) x) /\
  dim1 J = cols (apply_fn (params state) x).
Proof.
  unfold J_model_flat, model_fn.
  set (N := rows _). set (C := cols _).
  destruct (mapM _ _) as [leaves|] eqn:E; simpl; [|discriminate].
  intros HJ. apply mapM_Forall2 in E.
  assert (F : Forall (fun m => dim0 m = N /\ dim1 m = C) leaves).
  { clear HJ. induction E as [|a r l l' Ea _ IH]; constructor; [|assumption].
    apply reshape_NC_dims in Ea. tauto. }
  destruct (concatenate_axis2_dims _ _ _ _ HJ F) as (? & ? & _). auto.
Qed.

(** The reshaped leaves, when the Jacobian leaves have the shapes that
    [jax.jacrev] gives them. *)
Lemma J_model_flat_leaves (state : TrainState Params OptState) (x : Input)
    (pshapes : list (list nat)) :
  let N := rows (apply_fn (params state) x) in
  let C := cols (apply_fn (params state) x) in
  let leaves := tree_leaves (jax_jacrev model_fn (params state) x) in
  let ls := map (reshaped N C) (combine leaves pshapes) in
  (0 < N)%nat -> (0 < C)%nat -> pshapes <> [] ->
  Forall2 (fun a s => shape a = N :: C :: s) leaves pshapes ->
  J_model_flat state x = Ok (mkArr3 N C (cat2_dim ls) (cat2_at ls)).
Proof.
  intros N C leaves ls HN HC Hne F.
  unfold J_model_flat. cbv zeta.
  change (model_fn (params state) x) with (apply_fn (params state) x).
  fold N C leaves.
  assert (G : Forall2 (fun a b => reshape_NC N C a = Ok b) leaves ls).
  { subst ls. clear Hne. induction F as [|a s l ps Ha _ IH]; simpl.
    - constructor.
    - constructor; [apply (reshape_NC_leaf N C a s HN HC Ha) | exact IH]. }
  rewrite (Forall2_mapM _ _ _ G). simpl.
  apply concatenate_axis2_ok.
  - subst ls. inversion F; subst; [contradiction | discriminate].
  - clear -G. induction G as [|a r l l' Ea _ IH]; constructor; [|assumption].
    apply reshape_NC_dims in Ea. tauto.
Qed.

End Jacobian.

Lemma cat2_dim_reshaped (N C : nat) (leaves : list NdArr)
    (pshapes : list (list nat)) :
  length leaves = length pshapes ->
  cat2_dim (map (reshaped N C) (combine leaves pshapes)) =
  list_sum (map prod_shape pshapes).
Proof.
  revert pshapes. induction leaves as [|a l IH]; intros [|s ps] E;
    simpl in *; try discriminate; try reflexivity.
  rewrite IH by lia. reflexivity.
Qed.

Lemma cat2_dim_reshaped_firstn (N C i : nat) (leaves : list NdArr)
    (pshapes : list (list nat)) :
  length leaves = length pshapes ->
  cat2_dim (firstn i (map (reshaped N C) (combine leaves pshapes))) =
  leaf_offset pshapes i.
Proof.
  intros E. unfold leaf_offset.
  rewrite firstn_map, combine_firstn. apply cat2_dim_reshaped.
  rewrite !length_firstn, E. reflexivity.
Qed.

Lemma nth_error_reshaped (N C i : nat) (leaves : list NdArr)
    (pshapes : list (list nat)) (a : NdArr) (s : list nat) :
  nth_error leaves i = Some a -> nth_error pshapes i = Some s ->
  nth_error (map (reshaped N C) (combine leaves pshapes)) i =
  Some (reshaped N C (a, s)).
Proof.
  revert leaves pshapes. induction i as [|i IH];
    intros [|a' l] [|s' ps] Ea Es; simpl in *; try discriminate.
  - inversion Ea; inversion Es; reflexivity.
  - apply IH; assumption.
Qed.

(** ** [compute_ggn] *)

Section ComputeGGN.

Context {Params Input OptState : Type} {M : Model Params Input OptState}.

(** C1.  For a non-empty batch of [N] items with [C] classes, and Jacobian
    leaves of shape [[N, C] ++ s] for the parameter leaves of shapes [s] in
    [pshapes], [compute_ggn] returns a tensor of shape [[N, D, D]], where [D]
    is the total number of parameter entries.  The flattened Jacobian [J] has
    shape [[N, C, D]]; leaf [i], in the order of [tree_leaves], occupies the
    columns that start at [leaf_offset pshapes i], in row-major order.  For
    every item [n], [GGN[n]] is the matrix product [J[n]^T @ H[n] @ J[n]],
    where [H[n]] is the Hessian of the loss of item [n] in its logits: the
    Jacobian of the gradient [d_loss_fn], itself the gradient of [loss_fn]. *)
Theorem compute_ggn_sandwich
    (state : TrainState Params OptState) (batch : Batch Input)
    (pshapes : list (list nat)) :
  let x := batch_x batch in
  let y := batch_y batch in
  let logits := apply_fn (params state) x in
  let N := rows logits in
  let C := cols logits in
  let leaves := tree_leaves (jax_jacrev model_fn (params state) x) in
  let D := list_sum (map prod_shape pshapes) in
  (0 < N)%nat -> (0 < C)%nat -> pshapes <> [] ->
  Forall2 (fun a s => shape a = N :: C :: s) leaves pshapes ->
  exists J GGN,
    J_model_flat state x = Ok J /\
    compute_ggn state batch = Ok GGN /\
    (dim0 J, dim1 J, dim2 J) = (N, C, D) /\
    (dim0 GGN, dim1 GGN, dim2 GGN) = (N, D, D) /\
    (forall i a s n c k,
        nth_error leaves i = Some a -> nth_error pshapes i = Some s ->
        (n < N)%nat -> (c < C)%nat -> (k < prod_shape s)%nat ->
        at3 J n c (leaf_offset pshapes i + k) =
        flat a ((n * C + c) * prod_shape s + k)%nat) /\
    (forall n, (n < N)%nat ->
        mat_eq (slice0 GGN n)
          (matmul (matmul (transpose (slice0 J n))
                          (H_loss_fn C (at2 logits n) (y n)))
                  (slice0 J n))) /\
    (forall n a b, (n < N)%nat -> (a < C)%nat -> (b < C)%nat ->
        derivable_pt_lim (fun t => loss_fn C (bump (at2 logits n) a t) (y n)) 0
          (d_loss_fn C (at2 logits n) (y n) a) /\
        derivable_pt_lim
          (fun t => d_loss_fn C (bump (at2 logits n) b t) (y n) a) 0
          (at2 (H_loss_fn C (at2 logits n) (y n)) a b)).
Proof.
  intros x y logits N C leaves D HN HC Hne F.
  pose proof (J_model_flat_leaves state x pshapes HN HC Hne F) as HJ.
  cbv zeta in HJ. fold logits N C leaves in HJ.
  set (ls := map (reshaped N C) (combine leaves pshapes)) in HJ.
  assert (Hlen : length leaves = length pshapes)
    by (eapply Forall2_length; eassumption).
  assert (HD : cat2_dim ls = D) by (apply cat2_dim_reshaped; assumption).
  exists (mkArr3 N C (cat2_dim ls) (cat2_at ls)).
  eexists. split; [exact HJ|]. split.
  { unfold compute_ggn. cbv zeta. fold x. rewrite HJ. simpl. reflexivity. }
  split; [simpl; rewrite HD; reflexivity|].
  split; [simpl; rewrite HD; reflexivity|].
  split; [|split].
  - intros i a s n c k Ea Es Hn Hc Hk. simpl.
    rewrite <- (cat2_dim_reshaped_firstn N C i leaves pshapes Hlen). fold ls.
    rewrite (cat2_at_nth ls i (reshaped N C (a, s))).
    + reflexivity.
    + apply nth_error_reshaped; assumption.
    + exact Hk.
  - intros n Hn. split; [reflexivity | split; [reflexivity|]].
    intros i j _ _. simpl.
    change (model_fn (params state) x) with logits. fold C.
    apply (sandwich_matmul C (fun a k => cat2_at ls n a k)
             (fun a b => at2 (H_loss_fn C (at2 logits n) (y n)) a b)).
  - intros n a b _ Ha Hb. split.
    + apply d_loss_fn_is_gradient. exact Ha.
    + apply H_loss_fn_is_hessian; assumption.
Qed.

(** C7.  Every per-item matrix [GGN[n]] that [compute_ggn] returns is
    symmetric and positive semi-definite. *)
Theorem compute_ggn_symmetric_psd
    (state : TrainState Params OptState) (batch : Batch Input) (GGN : Arr3) :
  compute_ggn state batch = Ok GGN ->
  forall n, (n < dim0 GGN)%nat ->
    symmetric (slice0 GGN n) /\ psd (slice0 GGN n).
Proof.
  unfold compute_ggn. cbv zeta.
  destruct (J_model_flat state (batch_x batch)) as [J|] eqn:HJ; [|discriminate].
  simpl. intros E n _. inversion E; subst GGN; clear E.
  destruct (J_model_flat_dims _ _ _ HJ) as [_ HC].
  change (model_fn (params state) (batch_x batch))
    with (apply_fn (params state) (batch_x batch)).
  set (logits := apply_fn (params state) (batch_x batch)) in *.
  set (Hn := H_loss_fn (cols logits) (at2 logits n) (batch_y batch n)).
  split.
  - split; [reflexivity|]. intros i j _ _. simpl.
    apply (sandwich_symmetric (dim1 J) (fun a k => at3 J n a k) (at2 Hn)).
    intros a b _ _. apply H_loss_fn_symmetric.
  - intros v.
    eapply Rle_trans;
      [apply (H_loss_fn_psd (cols logits) (at2 logits n) (batch_y batch n)
                (fun a => Rsum (dim2 J) (fun x => at3 J n a x * v x)))|].
    right. symmetry. unfold quad_form. simpl. rewrite HC.
    exact (sandwich_quad_form (cols logits) (dim2 J)
             (fun a k => at3 J n a k) (at2 Hn) v).
Qed.

End ComputeGGN.

(** ** Broadcasting *)

Lemma bdim_refl (d : nat) : bdim d d = Some d.
Proof. unfold bdim. rewrite Nat.eqb_refl. reflexivity. Qed.

Lemma bdim_one_r (d : nat) : bdim d 1 = Some d.
Proof.
  unfold bdim. destruct (Nat.eqb_spec d 1) as [->|]; [reflexivity|].
  reflexivity.
Qed.

Lemma bdim_absorb (n cur d : nat) : bdim n cur = Some d -> bdim cur d = Some d.
Proof.
  unfold bdim.
  destruct (Nat.eqb_spec n cur) as [->|Hne].
  - intros E; inversion E; subst. rewrite Nat.eqb_refl. reflexivity.
  - destruct (Nat.eqb_spec n 1) as [->|Hn1].
    + intros E; inversion E; subst. rewrite Nat.eqb_refl. reflexivity.
    + destruct (Nat.eqb_spec cur 1) as [->|Hc1]; [|discriminate].
      intros E; inversion E; subst.
      destruct (Nat.eqb_spec 1 d); [congruence|]. reflexivity.
Qed.

(** Two sizes broadcast exactly when they are equal or one of them is one. *)
Lemma bdim_None (a b : nat) :
  bdim a b = None <-> a <> b /\ a <> 1%nat /\ b <> 1%nat.
Proof.
  unfold bdim.
  destruct (Nat.eqb_spec a b); [split; [discriminate | tauto]|].
  destruct (Nat.eqb_spec a 1); [split; [discriminate | tauto]|].
  destruct (Nat.eqb_spec b 1); [split; [discriminate | tauto]|].
  tauto.
Qed.

Lemma bidx_lt (d i : nat) : (i < d)%nat -> bidx d i = i.
Proof.
  unfold bidx. intros Hi. destruct (Nat.eqb_spec d 1); [lia | reflexivity].
Qed.

(** ** One update of the running averages *)

Lemma update_total_next (T : Arr2) (g : Arr3) (cnt D : nat) :
  rows T = D -> cols T = D -> dim1 g = D -> dim2 g = D ->
  exists T',
    update_total (Some T) g cnt = Ok T' /\ rows T' = D /\ cols T' = D /\
    forall x y, (x < D)%nat -> (y < D)%nat ->
      at2 T' x y =
      at2 T x y + Rsum (dim0 g) (fun i => at3 g i x y - at2 T x y) / INR cnt.
Proof.
  intros Hr Hc H1 H2.
  unfold update_total, sub3, add2, broadcast3, broadcast2. simpl.
  rewrite Hr, Hc, H1, H2, bdim_one_r, !bdim_refl. simpl.
  rewrite !bdim_refl.
  eexists. split; [reflexivity|]. split; [reflexivity|]. split; [reflexivity|].
  intros x y Hx Hy. simpl. rewrite !(bidx_lt D) by assumption.
  f_equal. f_equal. apply Rsum_ext. intros i Hi.
  rewrite (bidx_lt (dim0 g)) by assumption. reflexivity.
Qed.

(** The samples update succeeds exactly when the two batch sizes broadcast. *)
Lemma update_samples_shape (S g : Arr3) (m D : nat) :
  dim1 S = D -> dim2 S = D -> dim1 g = D -> dim2 g = D ->
  match bdim (dim0 g) (dim0 S) with
  | Some d =>
      exists S', update_samples (Some S) g m = Ok S' /\
                 dim0 S' = d /\ dim1 S' = D /\ dim2 S' = D
  | None => update_samples (Some S) g m = Raise BroadcastError
  end.
Proof.
  intros S1 S2 G1 G2.
  unfold update_samples, sub3, add3, broadcast3.
  rewrite S1, S2, G1, G2, !bdim_refl.
  destruct (bdim (dim0 g) (dim0 S)) as [d|] eqn:E; simpl; [|reflexivity].
  rewrite (bdim_absorb _ _ _ E), !bdim_refl.
  eexists. split; [reflexivity|]. simpl. auto.
Qed.

Lemma update_samples_next (S g : Arr3) (m N D : nat) :
  dim0 S = N -> dim1 S = D -> dim2 S = D ->
  dim0 g = N -> dim1 g = D -> dim2 g = D ->
  exists S',
    update_samples (Some S) g m = Ok S' /\
    dim0 S' = N /\ dim1 S' = D /\ dim2 S' = D /\
    forall i x y, (i < N)%nat -> (x < D)%nat -> (y < D)%nat ->
      at3 S' i x y = at3 S i x y + (at3 g i x y - at3 S i x y) / INR m.
Proof.
  intros S0 S1 S2 G0 G1 G2.
  unfold update_samples, sub3, add3, broadcast3.
  rewrite S0, S1, S2, G0, G1, G2, !bdim_refl. simpl. rewrite !bdim_refl.
  eexists. split; [reflexivity|]. simpl. repeat (split; [reflexivity|]).
  intros i x y Hi Hx Hy.
  rewrite !(bidx_lt N), !(bidx_lt D) by assumption. reflexivity.
Qed.

(** ** The loop over the GGN batches *)

Lemma ggn_fold_app (sizes : list Z) (n_steps : Z) (k : nat)
    (l1 l2 : list Arr3) (st : GGNStats * list event) :
  ggn_fold sizes n_steps k (l1 ++ l2) st =
  (st' <- ggn_fold sizes n_steps k l1 st ;;
   ggn_fold sizes n_steps (k + length l1) l2 st').
Proof.
  revert k st. induction l1 as [|g l1 IH]; intros k st; simpl.
  - rewrite Nat.add_0_r. reflexivity.
  - destruct (ggn_accumulate sizes n_steps st k g) as [st'|]; simpl;
      [|reflexivity].
    rewrite IH. replace (S k + length l1)%nat with (k + S (length l1))%nat by lia.
    reflexivity.
Qed.

Lemma ggn_fold_snoc (sizes : list Z) (n_steps : Z)
    (gs : list Arr3) (g : Arr3) (st st' : GGNStats * list event) :
  ggn_fold sizes n_steps 0 (gs ++ [g]) st = Ok st' ->
  exists st1,
    ggn_fold sizes n_steps 0 gs st = Ok st1 /\
    ggn_accumulate sizes n_steps st1 (length gs) g = Ok st'.
Proof.
  rewrite ggn_fold_app. destruct (ggn_fold sizes n_steps 0 gs st) as [st1|];
    simpl; [|discriminate].
  destruct (ggn_accumulate _ _ _ _ _) as [st2|] eqn:E; simpl; [|discriminate].
  intros H; inversion H; subst. eauto.
Qed.

Lemma items_sum_app (l1 l2 : list Arr3) (x y : nat) :
  items_sum (l1 ++ l2) x y = items_sum l1 x y + items_sum l2 x y.
Proof. induction l1 as [|g l1 IH]; simpl; [|rewrite IH]; lra. Qed.

Lemma items_count_app (l1 l2 : list Arr3) :
  items_count (l1 ++ l2) = (items_count l1 + items_count l2)%nat.
Proof. unfold items_count. rewrite map_app, list_sum_app. reflexivity. Qed.

Lemma position_sum_app (l1 l2 : list Arr3) (i x y : nat) :
  position_sum (l1 ++ l2) i x y = position_sum l1 i x y + position_sum l2 i x y.
Proof. induction l1 as [|g l1 IH]; simpl; [|rewrite IH]; lra. Qed.

Lemma broadcast_dims_app (cur : nat) (l1 l2 : list nat) :
  broadcast_dims cur (l1 ++ l2) =
  match broadcast_dims cur l1 with
  | Some d => broadcast_dims d l2
  | None => None
  end.
Proof.
  revert cur. induction l1 as [|n l1 IH]; intros cur; simpl; [reflexivity|].
  destruct (bdim n cur); [apply IH | reflexivity].
Qed.

Lemma ggn_accumulate_inv (sizes : list Z) (n_steps : Z)
    (stats stats' : GGNStats) (store store' : list event) (k : nat) (g : Arr3) :
  ggn_accumulate sizes n_steps (stats, store) k g = Ok (stats', store') <->
  exists S' T',
    update_samples (GGN_samples stats) g (k + 1) = Ok S' /\
    update_total (GGN_total stats) g (GGN_counter stats + dim0 g) = Ok T' /\
    stats' = mkGGNStats (GGN_counter stats + dim0 g) (Some T') (Some S') /\
    store' = if in_sizes (k + 1) sizes
             then store ++ [SaveSamples S' n_steps (k + 1)] else store.
Proof.
  unfold ggn_accumulate. split.
  - destruct (update_samples _ _ _) as [S'|]; simpl; [|discriminate].
    destruct (update_total _ _ _) as [T'|]; simpl; [|discriminate].
    intros E; inversion E; subst. exists S', T'. auto.
  - intros (S' & T' & -> & -> & -> & ->). reflexivity.
Qed.

Lemma ggn_accumulate_first (sizes : list Z) (n_steps : Z)
    (store : list event) (g : Arr3) :
  ggn_accumulate sizes n_steps (GGN_init, store) 0 g =
  Ok (mkGGNStats (dim0 g) (Some (mean_axis0 g)) (Some g),
      if in_sizes 1 sizes then store ++ [SaveSamples g n_steps 1] else store).
Proof. reflexivity. Qed.

Section Accumulation.

Variables (sizes : list Z) (n_steps : Z) (D : nat).

(** The loop goes through when the items have one size [D] and the batch
    sizes broadcast. *)
Lemma ggn_fold_succeeds_from (rest : list Arr3) :
  forall (k : nat) (stats : GGNStats) (store : list event) (d d' : nat),
    stats_shape D d stats ->
    Forall (fun g => dim1 g = D /\ dim2 g = D) rest ->
    broadcast_dims d (map dim0 rest) = Some d' ->
    exists stats' store',
      ggn_fold sizes n_steps k rest (stats, store) = Ok (stats', store') /\
      stats_shape D d' stats'.
Proof.
  induction rest as [|g rest IH]; intros k stats store d d' Hs F B.
  - simpl in *. inversion B; subst. eauto.
  - simpl in B. destruct (bdim (dim0 g) d) as [d1|] eqn:E; [|discriminate].
    pose proof (Forall_inv F) as [G1 G2]. pose proof (Forall_inv_tail F) as F'.
    destruct Hs as (T & S & HT & HS & Tr & Tc & S0 & S1 & S2).
    pose proof (update_samples_shape S g (k + 1) _ S1 S2 G1 G2) as US.
    rewrite S0, E in US. destruct US as (S' & US & S0' & S1' & S2').
    destruct (update_total_next T g (GGN_counter stats + dim0 g) _
                Tr Tc G1 G2) as (T' & UT & Tr' & Tc' & _).
    cbn [ggn_fold]. unfold ggn_accumulate. rewrite HS, HT, US. cbn [bind].
    rewrite UT. cbn [bind].
    eapply IH; [|exact F'|exact B].
    exists T', S'. simpl. rewrite S1', S2'. auto 10.
Qed.

(** It stops with a broadcasting error when a batch size does not
    broadcast against the samples aggregate. *)
Lemma ggn_fold_fails_from (rest : list Arr3) :
  forall (k : nat) (stats : GGNStats) (store : list event) (d : nat),
    stats_shape D d stats ->
    Forall (fun g => dim1 g = D /\ dim2 g = D) rest ->
    broadcast_dims d (map dim0 rest) = None ->
    ggn_fold sizes n_steps k rest (stats, store) = Raise BroadcastError.
Proof.
  induction rest as [|g rest IH]; intros k stats store d Hs F B.
  - discriminate.
  - simpl in B.
    pose proof (Forall_inv F) as [G1 G2]. pose proof (Forall_inv_tail F) as F'.
    destruct Hs as (T & S & HT & HS & Tr & Tc & S0 & S1 & S2).
    pose proof (update_samples_shape S g (k + 1) _ S1 S2 G1 G2) as US.
    rewrite S0 in US.
    cbn [ggn_fold]. unfold ggn_accumulate. rewrite HS, HT.
    destruct (bdim (dim0 g) d) as [d1|] eqn:E.
    + destruct US as (S' & US & S0' & S1' & S2').
      destruct (update_total_next T g (GGN_counter stats + dim0 g) _
                  Tr Tc G1 G2) as (T' & UT & Tr' & Tc' & _).
      rewrite US. cbn [bind]. rewrite UT. cbn [bind].
      eapply IH; [|exact F'|exact B].
      exists T', S'. simpl. rewrite S1', S2'. auto 10.
    + rewrite US. reflexivity.
Qed.

(** The loop stops with a broadcasting error when the batch sizes do not
    broadcast. *)
Lemma ggn_fold_fails (g0 : Arr3) (rest : list Arr3) (store0 : list event) :
  Forall (fun g => dim1 g = D /\ dim2 g = D) (g0 :: rest) ->
  broadcast_dims (dim0 g0) (map dim0 rest) = None ->
  ggn_fold sizes n_steps 0 (g0 :: rest) (GGN_init, store0)
    = Raise BroadcastError.
Proof.
  intros F B. cbn [ggn_fold]. rewrite ggn_accumulate_first. cbn [bind].
  pose proof (Forall_inv F) as [G1 G2].
  apply (ggn_fold_fails_from rest 1 _ _ (dim0 g0)).
  - exists (mean_axis0 g0), g0. simpl. auto 10.
  - exact (Forall_inv_tail F).
  - exact B.
Qed.

Lemma ggn_fold_succeeds (gs : list Arr3) (store0 : list event) :
  accumulable D gs ->
  exists stats store,
    ggn_fold sizes n_steps 0 gs (GGN_init, store0) = Ok (stats, store).
Proof.
  intros [F B]. destruct gs as [|g rest].
  - simpl. eauto.
  - cbn [ggn_fold]. rewrite ggn_accumulate_first. cbn [bind].
    pose proof (Forall_inv F) as [G1 G2]. pose proof (Forall_inv_tail F) as F'.
    destruct (broadcast_dims (dim0 g) (map dim0 rest)) as [d'|] eqn:E;
      [|contradiction].
    destruct (ggn_fold_succeeds_from rest 1
                (mkGGNStats (dim0 g) (Some (mean_axis0 g)) (Some g))
                (if in_sizes 1 sizes
                 then store0 ++ [SaveSamples g n_steps 1] else store0)
                (dim0 g) d') as (stats' & store' & H & _).
    + exists (mean_axis0 g), g. simpl. auto 10.
    + exact F'.
    + exact E.
    + eauto.
Qed.

(** The total aggregate times the number of items is the sum of the items. *)
Lemma ggn_fold_total (gs : list Arr3) :
  forall (store0 : list event) (stats : GGNStats) (store : list event),
    gs <> [] ->
    Forall (fun g => dim1 g = D /\ dim2 g = D) gs ->
    ggn_fold sizes n_steps 0 gs (GGN_init, store0) = Ok (stats, store) ->
    GGN_counter stats = items_count gs /\
    exists T,
      GGN_total stats = Some T /\ rows T = D /\ cols T = D /\
      forall x y, (x < D)%nat -> (y < D)%nat ->
        at2 T x y * INR (items_count gs) = items_sum gs x y.
Proof.
  induction gs as [|g pre IH] using rev_ind;
    intros store0 stats store Hne F H; [contradiction|].
  apply Forall_app in F. destruct F as [Fpre Fg].
  pose proof (Forall_inv Fg) as [G1 G2].
  apply ggn_fold_snoc in H. destruct H as ([stats1 store1] & Hpre & Hacc).
  destruct pre as [|g0 pre'].
  - simpl in Hpre. injection Hpre as <- <-. cbn [length] in Hacc.
    rewrite ggn_accumulate_first in Hacc. injection Hacc as <- _. simpl.
    unfold items_count. simpl. rewrite Nat.add_0_r.
    split; [reflexivity|]. eexists. split; [reflexivity|].
    split; [exact G1|]. split; [exact G2|].
    intros x y _ _. simpl. rewrite Rplus_0_r.
    destruct (dim0 g) as [|N] eqn:E.
    + simpl. lra.
    + field. apply not_0_INR. lia.
  - remember (g0 :: pre') as pre eqn:Epre.
    destruct (IH store0 stats1 store1) as (Hc & T & HT & Tr & Tc & HV);
      [rewrite Epre; discriminate | exact Fpre | exact Hpre |].
    apply ggn_accumulate_inv in Hacc.
    destruct Hacc as (S' & T' & _ & UT & -> & _). cbn [GGN_counter GGN_total].
    rewrite HT in UT.
    destruct (update_total_next T g (GGN_counter stats1 + dim0 g) _
                Tr Tc G1 G2) as (T'' & UT' & Tr' & Tc' & HV').
    rewrite UT in UT'. inversion UT'; subst T''.
    rewrite items_count_app.
    replace (items_count [g]) with (dim0 g) by (unfold items_count; simpl; lia).
    rewrite Hc. split; [reflexivity|]. exists T'. split; [reflexivity|].
    repeat (split; [assumption|]).
    intros x y Hx Hy. rewrite items_sum_app. simpl. rewrite Rplus_0_r.
    rewrite HV' by assumption. rewrite <- HV by assumption.
    rewrite Rsum_minus, Rsum_const, Hc, plus_INR.
    set (c := INR (items_count pre)). set (n := INR (dim0 g)).
    destruct (Req_dec (c + n) 0) as [Z0|NZ].
    + assert (0 <= c) by apply pos_INR. assert (0 <= n) by apply pos_INR.
      assert (n = 0) by lra. assert (c = 0) by lra.
      assert (E0 : dim0 g = 0%nat) by (apply INR_eq; exact H1).
      rewrite E0 in *. simpl. rewrite Z0, H2. lra.
    + field. exact NZ.
Qed.

(** With one batch size [N], position [i] of the samples aggregate times
    the number of batches is the sum of the items at position [i]. *)
Lemma ggn_fold_samples (N : nat) (gs : list Arr3) :
  forall (store0 : list event) (stats : GGNStats) (store : list event),
    gs <> [] ->
    Forall (fun g => dim0 g = N /\ dim1 g = D /\ dim2 g = D) gs ->
    ggn_fold sizes n_steps 0 gs (GGN_init, store0) = Ok (stats, store) ->
    exists S,
      GGN_samples stats = Some S /\ dim0 S = N /\ dim1 S = D /\ dim2 S = D /\
      forall i x y, (i < N)%nat -> (x < D)%nat -> (y < D)%nat ->
        at3 S i x y * INR (length gs) = position_sum gs i x y.
Proof.
  induction gs as [|g pre IH] using rev_ind;
    intros store0 stats store Hne F H; [contradiction|].
  apply Forall_app in F. destruct F as [Fpre Fg].
  pose proof (Forall_inv Fg) as (G0 & G1 & G2).
  apply ggn_fold_snoc in H. destruct H as ([stats1 store1] & Hpre & Hacc).
  destruct pre as [|g0 pre'].
  - simpl in Hpre. injection Hpre as <- <-. cbn [length] in Hacc.
    rewrite ggn_accumulate_first in Hacc. injection Hacc as <- _. simpl.
    exists g. split; [reflexivity|]. repeat (split; [assumption|]).
    intros i x y _ _ _. lra.
  - remember (g0 :: pre') as pre eqn:Epre.
    destruct (IH store0 stats1 store1) as (S & HS & S0 & S1 & S2 & HV);
      [rewrite Epre; discriminate | exact Fpre | exact Hpre |].
    apply ggn_accumulate_inv in Hacc.
    destruct Hacc as (S' & T' & US & _ & -> & _). cbn [GGN_samples].
    rewrite HS in US.
    destruct (update_samples_next S g (length pre + 1) N D
                S0 S1 S2 G0 G1 G2) as (S'' & US' & S0' & S1' & S2' & HV').
    rewrite US in US'. inversion US'; subst S''.
    exists S'. split; [reflexivity|]. repeat (split; [assumption|]).
    intros i x y Hi Hx Hy. rewrite position_sum_app. simpl position_sum.
    rewrite Rplus_0_r, HV' by assumption. rewrite <- HV by assumption.
    rewrite length_app. simpl length. rewrite !plus_INR. simpl INR.
    set (c := INR (length pre)).
    assert (0 <= c) by apply pos_INR.
    field. lra.
Qed.

End Accumulation.

(** ** What a GGN iteration saves *)

Lemma samples_tags_app (l1 l2 : list event) :
  samples_tags (l1 ++ l2) = samples_tags l1 ++ samples_tags l2.
Proof.
  induction l1 as [|e l1 IH]; simpl; [reflexivity|].
  destruct e; simpl; rewrite IH; reflexivity.
Qed.

Section Store.

Variables (sizes : list Z) (n_steps : Z).

(** The samples saved while the batches [gs] are folded in: one for each
    batch count of [1 .. length gs] found in [sizes], in increasing order,
    each holding the samples aggregate as it stands after that many
    batches. *)
Lemma ggn_fold_store (gs : list Arr3) :
  forall (store0 : list event) (stats : GGNStats) (store : list event),
    ggn_fold sizes n_steps 0 gs (GGN_init, store0) = Ok (stats, store) ->
    exists new,
      store = store0 ++ new /\
      samples_tags new =
        map (fun m => (n_steps, m))
          (filter (fun m => in_sizes m sizes) (seq 1 (length gs))) /\
      Forall (fun e => is_total e = false) new /\
      forall S n m, In (SaveSamples S n m) new ->
        (1 <= m <= length gs)%nat /\
        exists stats_m store_m,
          ggn_fold sizes n_steps 0 (firstn m gs) (GGN_init, store0) =
            Ok (stats_m, store_m) /\
          GGN_samples stats_m = Some S.
Proof.
  induction gs as [|g pre IH] using rev_ind; intros store0 stats store H.
  - simpl in H. injection H as <- <-. exists []. simpl.
    rewrite app_nil_r. repeat split; try constructor; contradiction.
  - pose proof H as Hall.
    apply ggn_fold_snoc in H. destruct H as ([stats1 store1] & Hpre & Hacc).
    destruct (IH store0 stats1 store1 Hpre) as (new & -> & Htags & Hnt & Hval).
    apply ggn_accumulate_inv in Hacc.
    destruct Hacc as (S' & T' & _ & _ & Hst & ->).
    replace (length (pre ++ [g])) with (S (length pre))
      by (rewrite length_app; simpl; lia).
    rewrite seq_S, filter_app, map_app. simpl filter.
    replace (length pre + 1)%nat with (S (length pre)) by lia.
    replace (1 + length pre)%nat with (S (length pre)) by lia.
    destruct (in_sizes (S (length pre)) sizes).
    + exists (new ++ [SaveSamples S' n_steps (S (length pre))]).
      split; [rewrite app_assoc; reflexivity|].
      split; [rewrite samples_tags_app, Htags; reflexivity|].
      split; [apply Forall_app; split; [exact Hnt | repeat constructor]|].
      intros S n m Hin. apply in_app_or in Hin. destruct Hin as [Hin|Hin].
      * destruct (Hval S n m Hin) as (Hm & stats_m & store_m & Hf & HS).
        split; [lia|]. exists stats_m, store_m.
        rewrite firstn_app. replace (m - length pre)%nat with 0%nat by lia.
        simpl. rewrite app_nil_r. auto.
      * destruct Hin as [Hin|[]]. injection Hin as <- <- <-.
        split; [lia|]. eexists stats, _.
        replace (S (length pre)) with (length (pre ++ [g]))
          by (rewrite length_app; simpl; lia).
        rewrite firstn_all. split; [exact Hall|].
        rewrite Hst. reflexivity.
    + exists new. simpl. rewrite app_nil_r.
      split; [reflexivity|]. split; [exact Htags|]. split; [exact Hnt|].
      intros S n m Hin.
      destruct (Hval S n m Hin) as (Hm & stats_m & store_m & Hf & HS).
      split; [lia|]. exists stats_m, store_m.
      rewrite firstn_app. replace (m - length pre)%nat with 0%nat by lia.
      simpl. rewrite app_nil_r. auto.
Qed.

End Store.

Lemma uniform_accumulable (N D : nat) (gs : list Arr3) :
  Forall (fun g => dim0 g = N /\ dim1 g = D /\ dim2 g = D) gs ->
  accumulable D gs.
Proof.
  intros F. split.
  - eapply Forall_impl; [|exact F]. simpl. tauto.
  - destruct gs as [|g rest]; [exact I|].
    pose proof (Forall_inv F) as (-> & _). apply Forall_inv_tail in F.
    assert (E : broadcast_dims N (map dim0 rest) = Some N).
    { induction rest as [|h rest IH]; simpl; [reflexivity|].
      pose proof (Forall_inv F) as (-> & _). rewrite bdim_refl.
      apply IH. eapply Forall_inv_tail; exact F. }
    rewrite E. discriminate.
Qed.

Section Loop.

Context {Params Input OptState : Type} {M : Model Params Input OptState}.

Variables (state : TrainState Params OptState) (sizes : list Z) (n_steps : Z).

(** The loop over the batches is the fold over their per-item GGNs. *)
Lemma ggn_loop_fold (bs : list (Batch Input)) (gs : list Arr3) :
  Forall2 (fun b g => compute_ggn state b = Ok g) bs gs ->
  forall k st,
    ggn_loop state sizes n_steps k bs st = ggn_fold sizes n_steps k gs st.
Proof.
  induction 1 as [|b g bs gs E _ IH]; intros k st; simpl.
  - reflexivity.
  - rewrite E. simpl. destruct (ggn_accumulate _ _ _ _ _); simpl;
      [apply IH | reflexivity].
Qed.

(** A GGN iteration goes through when the per-item GGNs can be computed,
    have one item size and batch sizes that broadcast. *)
Lemma ggn_pass_succeeds (loader : DataLoader Input) (gs : list Arr3)
    (D : nat) (store0 : list event) :
  Forall2 (fun b g => compute_ggn state b = Ok g) (batches loader) gs ->
  accumulable D gs ->
  exists store', ggn_pass state loader sizes n_steps store0 = Ok store'.
Proof.
  intros F2 Hacc.
  destruct (ggn_fold_succeeds sizes n_steps D gs store0 Hacc)
    as (stats & store & Hf).
  unfold ggn_pass. rewrite (ggn_loop_fold _ _ F2), Hf. simpl. eauto.
Qed.

Lemma Forall2_firstn {A B : Type} (R : A -> B -> Prop) (n : nat)
    (l : list A) (l' : list B) :
  Forall2 R l l' -> Forall2 R (firstn n l) (firstn n l').
Proof.
  intros F. revert n. induction F; intros [|n]; simpl; constructor; auto.
Qed.

End Loop.

(** ** The running averages of a GGN iteration *)

Section RunningAverages.

Context {Params Input OptState : Type} {M : Model Params Input OptState}.

Variables (state : TrainState Params OptState) (sizes : list Z) (n_steps : Z).

(** C2, amended.  Let [g0 :: rest] be the per-item GGNs of the batches
    processed so far, with [D] by [D] items and a non-empty first batch.  If
    the batch sizes broadcast against the samples aggregate (they are equal,
    or differ only by batches of one item), the loop has succeeded and
    [GGN_total] is a [[D, D]] matrix whose entries are the sum of all
    per-item GGNs divided by their number, whatever the sizes of the batches;
    after the first batch alone it is that batch's mean.  If they do not
    broadcast, the loop has raised a broadcasting error in the update of the
    samples aggregate, and there is no total. *)
Theorem total_running_mean
    (batches : list (Batch Input)) (g0 : Arr3) (rest : list Arr3) (D : nat)
    (store0 : list event) :
  Forall2 (fun b g => compute_ggn state b = Ok g) batches (g0 :: rest) ->
  (0 < dim0 g0)%nat ->
  (accumulable D (g0 :: rest) ->
   exists stats store T,
     ggn_loop state sizes n_steps 0 batches (GGN_init, store0) =
       Ok (stats, store) /\
     GGN_total stats = Some T /\ rows T = D /\ cols T = D /\
     (forall x y, (x < D)%nat -> (y < D)%nat ->
        at2 T x y =
        items_sum (g0 :: rest) x y / INR (items_count (g0 :: rest))) /\
     (rest = [] -> T = mean_axis0 g0)) /\
  (Forall (fun g => dim1 g = D /\ dim2 g = D) (g0 :: rest) ->
   broadcast_dims (dim0 g0) (map dim0 rest) = None ->
   ggn_loop state sizes n_steps 0 batches (GGN_init, store0) =
     Raise BroadcastError).
Proof.
  intros F2 Hpos. split.
  - intros Hacc.
    destruct (ggn_fold_succeeds sizes n_steps D (g0 :: rest) store0 Hacc)
      as (stats & store & Hf).
    destruct (ggn_fold_total sizes n_steps D (g0 :: rest) store0 stats store)
      as (Hc & T & HT & Tr & Tc & HV);
      [discriminate | exact (proj1 Hacc) | exact Hf |].
    exists stats, store, T.
    rewrite (ggn_loop_fold state sizes n_steps _ _ F2).
    repeat (split; [assumption|]). split.
    + intros x y Hx Hy. rewrite <- HV by assumption. field.
      apply not_0_INR. unfold items_count. simpl. lia.
    + intros ->. simpl in Hf. injection Hf as <- _. simpl in HT.
      injection HT as <-. reflexivity.
  - intros FD B. rewrite (ggn_loop_fold state sizes n_steps _ _ F2).
    apply (ggn_fold_fails sizes n_steps D g0 rest store0 FD B).
Qed.

(** C3.  When every batch processed so far has the same shape [[N, D, D]],
    the loop has succeeded and [GGN_samples] is an [[N, D, D]] tensor whose
    position [i] is the sum, over the batches, of the per-item GGN at
    position [i], divided by the number of batches; after the first batch
    alone it is that batch's per-item tensor itself. *)
Theorem samples_running_mean
    (batches : list (Batch Input)) (g0 : Arr3) (rest : list Arr3) (N D : nat)
    (store0 : list event) :
  Forall2 (fun b g => compute_ggn state b = Ok g) batches (g0 :: rest) ->
  Forall (fun g => dim0 g = N /\ dim1 g = D /\ dim2 g = D) (g0 :: rest) ->
  exists stats store S,
    ggn_loop state sizes n_steps 0 batches (GGN_init, store0) =
      Ok (stats, store) /\
    GGN_samples stats = Some S /\
    (dim0 S, dim1 S, dim2 S) = (N, D, D) /\
    (forall i x y, (i < N)%nat -> (x < D)%nat -> (y < D)%nat ->
       at3 S i x y =
       position_sum (g0 :: rest) i x y / INR (length (g0 :: rest))) /\
    (rest = [] -> S = g0).
Proof.
  intros F2 FU.
  destruct (ggn_fold_succeeds sizes n_steps D (g0 :: rest) store0
              (uniform_accumulable N D _ FU)) as (stats & store & Hf).
  destruct (ggn_fold_samples sizes n_steps D N (g0 :: rest) store0 stats store)
    as (S & HS & S0 & S1 & S2 & HV);
    [discriminate | exact FU | exact Hf |].
  exists stats, store, S.
  rewrite (ggn_loop_fold state sizes n_steps _ _ F2).
  split; [assumption|]. split; [assumption|].
  split; [rewrite S0, S1, S2; reflexivity|]. split.
  - intros i x y Hi Hx Hy. rewrite <- HV by assumption. field.
    apply not_0_INR. simpl. lia.
  - intros ->. simpl in Hf. injection Hf as <- _. simpl in HS.
    injection HS as <-. reflexivity.
Qed.

(** C5.  A GGN iteration over batches whose per-item GGNs [gs] have [D] by
    [D] items and batch sizes that broadcast appends to the store, in this
    order: one save of the samples aggregate for each batch count [m] of
    [1 .. length gs] that occurs in [ggn_batch_sizes], tagged with the step
    counter and with [m] and holding the aggregate as it stands after [m]
    batches; then a single save of the total aggregate, tagged with the step
    counter alone. *)
Theorem ggn_pass_persists
    (ggn_dataloader : DataLoader Input) (gs : list Arr3) (D : nat)
    (store0 : list event) :
  Forall2 (fun b g => compute_ggn state b = Ok g) (batches ggn_dataloader) gs ->
  accumulable D gs ->
  exists stats new,
    ggn_loop state sizes n_steps 0 (batches ggn_dataloader) (GGN_init, store0)
      = Ok (stats, store0 ++ new) /\
    ggn_pass state ggn_dataloader sizes n_steps store0 =
      Ok (store0 ++ new ++ [SaveTotal (GGN_total stats) n_steps]) /\
    samples_tags new =
      map (fun m => (n_steps, m))
        (filter (fun m => in_sizes m sizes) (seq 1 (length gs))) /\
    Forall (fun e => is_total e = false) new /\
    (forall S n m, In (SaveSamples S n m) new ->
       exists stats_m store_m,
         ggn_loop state sizes n_steps 0 (firstn m (batches ggn_dataloader))
           (GGN_init, store0) = Ok (stats_m, store_m) /\
         GGN_samples stats_m = Some S).
Proof.
  intros F2 Hacc.
  destruct (ggn_fold_succeeds sizes n_steps D gs store0 Hacc)
    as (stats & store & Hf).
  destruct (ggn_fold_store sizes n_steps gs store0 stats store Hf)
    as (new & -> & Htags & Hnt & Hval).
  exists stats, new.
  assert (HL : ggn_loop state sizes n_steps 0 (batches ggn_dataloader)
                 (GGN_init, store0) = Ok (stats, store0 ++ new))
    by (rewrite (ggn_loop_fold state sizes n_steps _ _ F2); exact Hf).
  split; [exact HL|]. split.
  { unfold ggn_pass. rewrite HL. simpl. rewrite app_assoc. reflexivity. }
  split; [exact Htags|]. split; [exact Hnt|].
  intros S n m Hin. destruct (Hval S n m Hin) as (_ & stats_m & store_m & H1 & H2).
  exists stats_m, store_m. split; [|exact H2].
  rewrite (ggn_loop_fold state sizes n_steps _ (firstn m gs)); [exact H1|].
  apply Forall2_firstn. exact F2.
Qed.

End RunningAverages.

(** C8, amended.  When the batch size of a new per-item GGN differs from
    that of the samples aggregate, the samples update raises, and with it the
    GGN iteration, only if neither batch size is one.  If one of them is one,
    that operand is broadcast: the update succeeds and the aggregate takes the
    other batch size. *)
Theorem samples_mismatch_broadcasts (S g : Arr3) (m D : nat) :
  dim1 S = D -> dim2 S = D -> dim1 g = D -> dim2 g = D ->
  dim0 g <> dim0 S ->
  (dim0 g <> 1%nat /\ dim0 S <> 1%nat ->
     update_samples (Some S) g m = Raise BroadcastError /\
     forall sizes n_steps stats store k,
       GGN_samples stats = Some S ->
       ggn_accumulate sizes n_steps (stats, store) k g = Raise BroadcastError) /\
  (dim0 g = 1%nat \/ dim0 S = 1%nat ->
     exists S',
       update_samples (Some S) g m = Ok S' /\
       dim0 S' = (if (dim0 g =? 1)%nat then dim0 S else dim0 g) /\
       dim1 S' = D /\ dim2 S' = D /\
       forall i x y, (i < dim0 S')%nat -> (x < D)%nat -> (y < D)%nat ->
         at3 S' i x y =
         at3 S (bidx (dim0 S) i) x y +
         (at3 g (bidx (dim0 g) i) x y - at3 S (bidx (dim0 S) i) x y) / INR m).
Proof.
  intros S1 S2 G1 G2 Hne. split.
  - intros [Hg HS].
    assert (E : bdim (dim0 g) (dim0 S) = None) by (apply bdim_None; tauto).
    pose proof (update_samples_shape S g m D S1 S2 G1 G2) as U.
    rewrite E in U. split; [exact U|].
    intros sizes n_steps stats store k Hs. unfold ggn_accumulate. rewrite Hs.
    pose proof (update_samples_shape S g (k + 1) D S1 S2 G1 G2) as U'.
    rewrite E in U'. rewrite U'. reflexivity.
  - intros Hone.
    assert (E : bdim (dim0 g) (dim0 S) =
                Some (if (dim0 g =? 1)%nat then dim0 S else dim0 g)).
    { unfold bdim. destruct (Nat.eqb_spec (dim0 g) (dim0 S)); [contradiction|].
      destruct (Nat.eqb_spec (dim0 g) 1); [reflexivity|].
      destruct (Nat.eqb_spec (dim0 S) 1); [reflexivity | tauto]. }
    unfold update_samples, sub3, add3, broadcast3.
    rewrite S1, S2, G1, G2, !bdim_refl, E. simpl.
    rewrite (bdim_absorb _ _ _ E), !bdim_refl.
    eexists. split; [reflexivity|]. simpl. repeat (split; [reflexivity|]).
    intros i x y Hi Hx Hy. rewrite !(bidx_lt D) by assumption.
    rewrite !(bidx_lt (if (dim0 g =? 1)%nat then dim0 S else dim0 g) i)
      by exact Hi.
    reflexivity.
Qed.

(** ** Counting correct predictions *)

Lemma wrap32_small (z : Z) :
  (- 2 ^ 31 <= z < 2 ^ 31)%Z -> wrap32 z = z.
Proof.
  intros Hz. unfold wrap32. rewrite Z.mod_small; lia.
Qed.

Lemma argmax_row_first_max (C : nat) (z : nat -> R) :
  (0 < C)%nat -> first_max C z (argmax_row C z).
Proof.
  intros HC. destruct C as [|C]; [lia|]. clear HC.
  induction C as [|C IH].
  - simpl. split; [lia|]. split; intros c' Hc'; [|lia].
    replace c' with 0%nat by lia. lra.
  - destruct IH as (Hb & Hmax & Hfirst).
    change (argmax_row (S (S C)) z)
      with (if Rlt_dec (z (argmax_row (S C) z)) (z (S C))
            then S C else argmax_row (S C) z).
    set (b := argmax_row (S C) z) in *.
    destruct (Rlt_dec (z b) (z (S C))) as [Hlt|Hge].
    + split; [lia|]. split.
      * intros c' Hc'. destruct (Nat.eq_dec c' (S C)) as [->|]; [lra|].
        assert (z c' <= z b) by (apply Hmax; lia). lra.
      * intros c' Hc'. assert (z c' <= z b) by (apply Hmax; lia). lra.
    + split; [lia|]. split; [|exact Hfirst].
      intros c' Hc'. destruct (Nat.eq_dec c' (S C)) as [->|]; [lra|].
      apply Hmax. lia.
Qed.

Lemma count_correct_spec (logits : Arr2) (y : nat -> Z) :
  (Z.of_nat (rows logits) < 2 ^ 31)%Z ->
  count_correct (rows logits)
    (fun i => Z.of_nat (argmax_row (cols logits) (at2 logits i))) y =
  Z.of_nat (length (correct_items logits y)).
Proof.
  intros HN. unfold count_correct, correct_items.
  rewrite (Zsum_b2z_count (rows logits)
             (fun i => (Z.of_nat (argmax_row (cols logits) (at2 logits i))
                        =? y i)%Z)).
  apply wrap32_small.
  pose proof (Zsum_b2z_bounds (rows logits)
                (fun i => (Z.of_nat (argmax_row (cols logits) (at2 logits i))
                           =? y i)%Z)) as B.
  rewrite Zsum_b2z_count in B. lia.
Qed.

Lemma correct_items_length (logits : Arr2) (y : nat -> Z) :
  (length (correct_items logits y) <= rows logits)%nat.
Proof.
  unfold correct_items.
  rewrite <- (length_seq (rows logits) 0) at 2. apply filter_length_le.
Qed.

Section Steps.

Context {Params Input OptState : Type} {M : Model Params Input OptState}.

Lemma n_correct_of_spec (logits : Arr2) (y : nat -> Z) :
  (0 < cols logits)%nat -> (Z.of_nat (rows logits) < 2 ^ 31)%Z ->
  n_correct_of logits y = Ok (Z.of_nat (length (correct_items logits y))).
Proof.
  intros HC HN. unfold n_correct_of, argmax_last.
  destruct (Nat.eqb_spec (cols logits) 0); [lia|]. simpl.
  rewrite count_correct_spec by assumption. reflexivity.
Qed.

(** C10.  For a batch of [N] items (fewer than [2^31]) and a model with at
    least one class, [train_step] and [test_step] return as [n_correct] the
    integer number of items [i] whose label [y[i]] is the first index of a
    maximum of [logits[i]]; it lies between [0] and [N]. *)
Theorem n_correct_exact
    (state : TrainState Params OptState) (batch : Batch Input) :
  let logits := apply_fn (params state) (batch_x batch) in
  let y := batch_y batch in
  (0 < cols logits)%nat -> (Z.of_nat (rows logits) < 2 ^ 31)%Z ->
  exists state' loss n_correct,
    train_step state batch = Ok (state', loss, n_correct) /\
    test_step state batch = Ok (loss, n_correct) /\
    n_correct = Z.of_nat (length (correct_items logits y)) /\
    (0 <= n_correct <= Z.of_nat (rows logits))%Z /\
    (forall i, In i (correct_items logits y) <->
       (i < rows logits)%nat /\
       exists c, first_max (cols logits) (at2 logits i) c /\ Z.of_nat c = y i).
Proof.
  intros logits y HC HN.
  unfold train_step, test_step, model_loss_fn. cbv zeta.
  fold logits y. rewrite (n_correct_of_spec logits y HC HN). simpl.
  do 3 eexists. split; [reflexivity|]. split; [reflexivity|].
  split; [reflexivity|]. split.
  - pose proof (correct_items_length logits y). lia.
  - intros i. unfold correct_items. rewrite filter_In, in_seq.
    pose proof (argmax_row_first_max (cols logits) (at2 logits i) HC) as FM.
    split.
    + intros [Hi E]. split; [lia|].
      exists (argmax_row (cols logits) (at2 logits i)).
      split; [exact FM | apply Z.eqb_eq; exact E].
    + intros [Hi (c & FMc & E)]. split; [lia|]. apply Z.eqb_eq.
      rewrite <- E. f_equal.
      destruct FM as (Ha & Hamax & Hafirst). destruct FMc as (Hc & Hcmax & Hcfirst).
      set (a := argmax_row (cols logits) (at2 logits i)) in *.
      destruct (Nat.lt_trichotomy a c) as [Hlt|[Heq|Hgt]]; [|exact Heq|].
      * pose proof (Hcfirst a Hlt). pose proof (Hamax c Hc). lra.
      * pose proof (Hafirst c Hgt). pose proof (Hcmax a Ha). lra.
Qed.

End Steps.

(** ** The epoch drivers *)

Lemma losses_sum_app (l1 l2 : list Arr1) :
  losses_sum (l1 ++ l2) = losses_sum l1 + losses_sum l2.
Proof. induction l1 as [|l l1 IH]; simpl; [|rewrite IH]; lra. Qed.

Lemma cat1_len_app (l1 l2 : list Arr1) :
  cat1_len (l1 ++ l2) = (cat1_len l1 + cat1_len l2)%nat.
Proof. induction l1 as [|l l1 IH]; simpl; [|rewrite IH]; lia. Qed.

(** The sum of a concatenation is the sum of the sums of its parts. *)
Lemma Rsum_cat1 (ls : list Arr1) :
  Rsum (cat1_len ls) (cat1_at ls) = losses_sum ls.
Proof.
  induction ls as [|l ls IH]; simpl; [reflexivity|].
  rewrite Rsum_app. f_equal.
  - apply Rsum_ext. intros i Hi.
    destruct (Nat.ltb_spec i (len1 l)); [reflexivity | lia].
  - rewrite <- IH. apply Rsum_ext. intros i Hi.
    destruct (Nat.ltb_spec (len1 l + i) (len1 l)); [lia|].
    f_equal. lia.
Qed.

Lemma count_total_app (l1 l2 : list event) :
  count_total (l1 ++ l2) = (count_total l1 + count_total l2)%nat.
Proof. unfold count_total. rewrite filter_app, length_app. reflexivity. Qed.

Lemma count_total_samples (new : list event) :
  Forall (fun e => is_total e = false) new -> count_total new = 0%nat.
Proof.
  unfold count_total. induction 1 as [|e l He _ IH]; simpl; [reflexivity|].
  rewrite He. exact IH.
Qed.

Section Epochs.

Context {Params Input OptState : Type} {M : Model Params Input OptState}.

Variables (ggn_dataloader : DataLoader Input) (ggn_batch_sizes : list Z).
Variables (ggn_freq n_ggn_iterations : Z).

Lemma ggn_loop_computed (state : TrainState Params OptState) (n_steps : Z)
    (bs : list (Batch Input)) :
  forall k st st',
    ggn_loop state ggn_batch_sizes n_steps k bs st = Ok st' ->
    exists gs, Forall2 (fun b g => compute_ggn state b = Ok g) bs gs.
Proof.
  induction bs as [|b bs IH]; intros k st st' H; simpl in H.
  - exists []. constructor.
  - destruct (compute_ggn state b) as [g|] eqn:Eg; simpl in H; [|discriminate].
    destruct (ggn_accumulate _ _ _ _ _) as [st1|]; simpl in H; [|discriminate].
    destruct (IH _ _ _ H) as (gs & F). exists (g :: gs). constructor; assumption.
Qed.

(** A GGN iteration appends saves of samples and then one save of the
    total. *)
Lemma ggn_pass_store (state : TrainState Params OptState) (n_steps : Z)
    (store store' : list event) :
  ggn_pass state ggn_dataloader ggn_batch_sizes n_steps store = Ok store' ->
  exists new total,
    store' = store ++ new ++ [SaveTotal total n_steps] /\
    Forall (fun e => is_total e = false) new.
Proof.
  unfold ggn_pass.
  destruct (ggn_loop _ _ _ _ _ _) as [[stats st1]|] eqn:E; simpl; [|discriminate].
  intros H. injection H as <-.
  destruct (ggn_loop_computed _ _ _ _ _ _ E) as (gs & F).
  rewrite (ggn_loop_fold state ggn_batch_sizes n_steps _ _ F) in E.
  destruct (ggn_fold_store _ _ _ _ _ _ E) as (new & -> & _ & Hnt & _).
  exists new, (GGN_total stats). rewrite app_assoc. auto.
Qed.

Lemma ggn_pass_count (state : TrainState Params OptState) (n_steps : Z)
    (store store' : list event) :
  ggn_pass state ggn_dataloader ggn_batch_sizes n_steps store = Ok store' ->
  count_total store' = S (count_total store).
Proof.
  intros H. destruct (ggn_pass_store _ _ _ _ H) as (new & total & -> & Hnt).
  rewrite !count_total_app, (count_total_samples new Hnt).
  unfold count_total at 2. simpl. lia.
Qed.

Lemma ggn_due_spec (c n s : Z) :
  ggn_freq <> 0%Z ->
  ggn_due c n s ggn_freq = Ok ((c <? n)%Z && (s mod ggn_freq =? 0)%Z).
Proof.
  intros Hf. unfold ggn_due. destruct (c <? n)%Z; [|reflexivity].
  destruct (Z.eqb_spec ggn_freq 0); [contradiction | reflexivity].
Qed.

Lemma train_step_ok (state : TrainState Params OptState) (b : Batch Input) :
  has_classes ->
  let logits := apply_fn (params state) (batch_x b) in
  exists state',
    train_step state b =
    Ok (state',
        softmax_cross_entropy_with_integer_labels logits (batch_y b),
        count_correct (rows logits)
          (fun i => Z.of_nat (argmax_row (cols logits) (at2 logits i)))
          (batch_y b)).
Proof.
  intros HC logits. unfold train_step, model_loss_fn, n_correct_of, argmax_last.
  cbv zeta. fold logits.
  destruct (Nat.eqb_spec (cols logits) 0) as [E|_].
  - pose proof (HC (params state) (batch_x b)). fold logits in H. lia.
  - simpl. eauto.
Qed.

Lemma test_step_ok (state : TrainState Params OptState) (b : Batch Input) :
  has_classes ->
  let logits := apply_fn (params state) (batch_x b) in
  test_step state b =
  Ok (softmax_cross_entropy_with_integer_labels logits (batch_y b),
      count_correct (rows logits)
        (fun i => Z.of_nat (argmax_row (cols logits) (at2 logits i)))
        (batch_y b)).
Proof.
  intros HC logits. unfold test_step, model_loss_fn, n_correct_of, argmax_last.
  cbv zeta. fold logits.
  destruct (Nat.eqb_spec (cols logits) 0) as [E|_].
  - pose proof (HC (params state) (batch_x b)). fold logits in H. lia.
  - reflexivity.
Qed.

Hypothesis freq_nonzero : ggn_freq <> 0%Z.
Hypothesis classes : has_classes.
Hypothesis passes : passes_succeed ggn_dataloader ggn_batch_sizes.

(** One turn of the training loop: a GGN iteration when it is due, run on
    the state and under the step counter as they stand before the training
    step, then the training step. *)
Lemma train_iter_spec (e : Epoch) (b : Batch Input) :
  let due := ((GGN_iter_counter e <? n_ggn_iterations)%Z
              && (e_n_steps e mod ggn_freq =? 0)%Z) in
  exists store' state' loss n_correct,
    (if due
     then ggn_pass (e_state e) ggn_dataloader ggn_batch_sizes
            (e_n_steps e) (e_store e) = Ok store'
     else store' = e_store e) /\
    train_step (e_state e) b = Ok (state', loss, n_correct) /\
    train_iter ggn_dataloader ggn_batch_sizes ggn_freq n_ggn_iterations e b =
    Ok (mkEpoch state' (loss_epoch e ++ [loss])
          (wrap32 (n_correct_epoch e + n_correct))
          (if due then GGN_iter_counter e + 1 else GGN_iter_counter e)%Z
          (e_n_steps e + 1)%Z store').
Proof.
  intros due. unfold train_iter.
  rewrite (ggn_due_spec _ _ _ freq_nonzero). fold due. simpl.
  destruct (train_step_ok (e_state e) b classes) as (state' & Hs).
  destruct due.
  - destruct (passes (e_state e) (e_n_steps e) (e_store e)) as (store' & Hp).
    rewrite Hp. simpl. rewrite Hs. simpl.
    do 4 eexists. split; [reflexivity|]. split; reflexivity.
  - simpl. rewrite Hs. simpl.
    do 4 eexists. split; [reflexivity|]. split; reflexivity.
Qed.

Lemma train_loop_app (l1 l2 : list (Batch Input)) (e : Epoch) :
  train_loop ggn_dataloader ggn_batch_sizes ggn_freq n_ggn_iterations
    (l1 ++ l2) e =
  (e' <- train_loop ggn_dataloader ggn_batch_sizes ggn_freq n_ggn_iterations
           l1 e ;;
   train_loop ggn_dataloader ggn_batch_sizes ggn_freq n_ggn_iterations l2 e').
Proof.
  revert e. induction l1 as [|b l1 IH]; intros e; simpl; [reflexivity|].
  destruct (train_iter _ _ _ _ e b) as [e1|]; simpl; [apply IH | reflexivity].
Qed.

(** The training loop goes through, and the epoch statistics follow the
    training steps. *)
Lemma train_loop_run (bs : list (Batch Input)) :
  forall e : Epoch,
  exists e',
    train_loop ggn_dataloader ggn_batch_sizes ggn_freq n_ggn_iterations bs e
      = Ok e' /\
    e_n_steps e' = (e_n_steps e + Z.of_nat (length bs))%Z /\
    e_state e' = state_after (e_state e) bs /\
    loss_epoch e' = loss_epoch e ++ map fst (train_outputs (e_state e) bs) /\
    (Z.of_nat (count_total (e_store e')) - GGN_iter_counter e' =
     Z.of_nat (count_total (e_store e)) - GGN_iter_counter e)%Z /\
    length (train_outputs (e_state e) bs) = length bs /\
    n_correct_epoch e' =
      fold_left (fun acc o => wrap32 (acc + snd o))
        (train_outputs (e_state e) bs) (n_correct_epoch e).
Proof.
  induction bs as [|b bs IH]; intros e.
  - exists e. simpl. rewrite app_nil_r, Z.add_0_r. auto 10.
  - destruct (train_iter_spec e b)
      as (store' & state' & loss & n & Hdue & Hstep & Hiter).
    cbn [train_loop]. rewrite Hiter. cbn [bind].
    match goal with |- context [train_loop _ _ _ _ bs ?e1] =>
      destruct (IH e1) as (e' & Hl & Hn & Hs & Hloss & Hcnt & Hlen & Hnc) end.
    exists e'.
    cbn [e_n_steps e_state loss_epoch e_store GGN_iter_counter n_correct_epoch]
      in *.
    cbn [train_outputs state_after]. rewrite Hstep.
    split; [exact Hl|]. split; [rewrite Hn; simpl length; lia|].
    split; [exact Hs|].
    split; [rewrite Hloss, <- app_assoc; reflexivity|].
    split; [|split; [simpl; rewrite Hlen; reflexivity | exact Hnc]].
    rewrite Hcnt.
    destruct ((GGN_iter_counter e <? n_ggn_iterations)%Z
              && (e_n_steps e mod ggn_freq =? 0)%Z).
    + rewrite (ggn_pass_count _ _ _ _ Hdue). lia.
    + rewrite Hdue. reflexivity.
Qed.

End Epochs.

(** ** No stray modulo by zero *)

Lemma bind_no_zde {A B : Type} (c : result A) (k : A -> result B) :
  c <> Raise ZeroDivisionError ->
  (forall a, k a <> Raise ZeroDivisionError) ->
  bind c k <> Raise ZeroDivisionError.
Proof.
  intros Hc Hk. destruct c as [a|e]; simpl; [apply Hk|].
  intros E. apply Hc. injection E as ->. reflexivity.
Qed.

Lemma broadcast3_no_zde (op : R -> R -> R) (a b : Arr3) :
  broadcast3 op a b <> Raise ZeroDivisionError.
Proof.
  unfold broadcast3.
  destruct (bdim (dim0 a) (dim0 b)), (bdim (dim1 a) (dim1 b)),
    (bdim (dim2 a) (dim2 b)); discriminate.
Qed.

Lemma broadcast2_no_zde (op : R -> R -> R) (a b : Arr2) :
  broadcast2 op a b <> Raise ZeroDivisionError.
Proof.
  unfold broadcast2.
  destruct (bdim (rows a) (rows b)), (bdim (cols a) (cols b)); discriminate.
Qed.

Lemma ggn_accumulate_no_zde (sizes : list Z) (n_steps : Z)
    (st : GGNStats * list event) (k : nat) (g : Arr3) :
  ggn_accumulate sizes n_steps st k g <> Raise ZeroDivisionError.
Proof.
  destruct st as [stats store]. unfold ggn_accumulate.
  apply bind_no_zde.
  - unfold update_samples. destruct (GGN_samples stats); [|discriminate].
    apply bind_no_zde; [apply broadcast3_no_zde|].
    intros d. apply broadcast3_no_zde.
  - intros S'. apply bind_no_zde; [|discriminate].
    unfold update_total. destruct (GGN_total stats); [|discriminate].
    apply bind_no_zde; [apply broadcast3_no_zde|].
    intros d. apply broadcast2_no_zde.
Qed.

Lemma mapM_no_zde {A B : Type} (f : A -> result B) (l : list A) :
  (forall a, f a <> Raise ZeroDivisionError) ->
  mapM f l <> Raise ZeroDivisionError.
Proof.
  intros Hf. induction l as [|a l IH]; simpl; [discriminate|].
  apply bind_no_zde; [apply Hf|]. intros b.
  apply bind_no_zde; [exact IH | discriminate].
Qed.

Section NoZeroDivision.

Context {Params Input OptState : Type} {M : Model Params Input OptState}.

Lemma compute_ggn_no_zde (state : TrainState Params OptState)
    (b : Batch Input) :
  (0 < rows (apply_fn (params state) (batch_x b)))%nat ->
  (0 < cols (apply_fn (params state) (batch_x b)))%nat ->
  compute_ggn state b <> Raise ZeroDivisionError.
Proof.
  intros HN HC.
  unfold compute_ggn. cbv zeta. apply bind_no_zde; [|discriminate].
  unfold J_model_flat. cbv zeta. apply bind_no_zde.
  - apply mapM_no_zde. intros a. unfold reshape_NC, model_fn.
    destruct (Nat.eqb_spec
                (rows (apply_fn (params state) (batch_x b)) *
                 cols (apply_fn (params state) (batch_x b))) 0) as [E|_];
      [nia|].
    destruct (_ =? 0)%nat; discriminate.
  - intros ls. unfold concatenate_axis2. destruct ls; [discriminate|].
    destruct (forallb _ _); discriminate.
Qed.

Lemma ggn_pass_no_zde (state : TrainState Params OptState)
    (loader : DataLoader Input) (sizes : list Z) (n : Z) (store : list event) :
  nonempty_batches loader ->
  ggn_pass state loader sizes n store <> Raise ZeroDivisionError.
Proof.
  intros Hne.
  unfold ggn_pass. apply bind_no_zde; [|intros [? ?]; discriminate].
  assert (Hin : forall b, In b (batches loader) ->
            (0 < rows (apply_fn (params state) (batch_x b)))%nat /\
            (0 < cols (apply_fn (params state) (batch_x b)))%nat)
    by (intros b Hb; apply Hne; exact Hb).
  clear Hne.
  enough (Hloop : forall k st, ggn_loop state sizes n k (batches loader) st
                               <> Raise ZeroDivisionError) by apply Hloop.
  induction (batches loader) as [|b bs IH]; intros k st; simpl;
    [discriminate|].
  apply bind_no_zde.
  - apply compute_ggn_no_zde; apply Hin; left; reflexivity.
  - intros g. apply bind_no_zde; [apply ggn_accumulate_no_zde|].
    intros st'. apply IH. intros b' Hb'. apply Hin. right. exact Hb'.
Qed.

Lemma train_step_no_zde (state : TrainState Params OptState)
    (b : Batch Input) : train_step state b <> Raise ZeroDivisionError.
Proof.
  unfold train_step, model_loss_fn. cbv zeta.
  apply bind_no_zde; [|discriminate].
  unfold n_correct_of. apply bind_no_zde; [|discriminate].
  unfold argmax_last. destruct (_ =? 0)%nat; discriminate.
Qed.

Lemma train_loop_no_zde (loader : DataLoader Input) (sizes : list Z)
    (ggn_freq n_ggn_iterations : Z) (bs : list (Batch Input)) :
  ggn_freq <> 0%Z -> nonempty_batches loader ->
  forall e, train_loop loader sizes ggn_freq n_ggn_iterations bs e
            <> Raise ZeroDivisionError.
Proof.
  intros Hf Hne. induction bs as [|b bs IH]; intros e; simpl; [discriminate|].
  apply bind_no_zde; [|exact IH].
  unfold train_iter. apply bind_no_zde.
  - rewrite (ggn_due_spec _ _ _ _ Hf). discriminate.
  - intros due. apply bind_no_zde.
    + destruct due; [|discriminate].
      apply bind_no_zde; [apply ggn_pass_no_zde; exact Hne | discriminate].
    + intros [store counter]. apply bind_no_zde; [apply train_step_no_zde|].
      intros [[state loss] n]. discriminate.
Qed.

(** C9.  With [ggn_freq = 0], a positive [n_ggn_iterations] and at least one
    training batch, the trigger test of the first batch raises a modulo by
    zero, and so does [train_epoch]: nothing is computed before it.  With
    [ggn_freq >= 1] the trigger test returns its truth value for every
    counter and every step count, so that this error cannot come from it;
    and when no batch of the GGN data loader is empty, [train_epoch] as a
    whole never raises it. *)
Theorem ggn_freq_zero_raises
    (state : TrainState Params OptState)
    (train_dataloader ggn_dataloader : DataLoader Input)
    (ggn_batch_sizes : list Z) (ggn_freq n_ggn_iterations n_steps : Z) :
  (ggn_freq = 0%Z -> (0 < n_ggn_iterations)%Z ->
   batches train_dataloader <> [] ->
     ggn_due 0 n_ggn_iterations n_steps ggn_freq = Raise ZeroDivisionError /\
     (forall b, hd_error (batches train_dataloader) = Some b ->
        train_iter ggn_dataloader ggn_batch_sizes ggn_freq n_ggn_iterations
          (mkEpoch state [] 0%Z 0%Z n_steps []) b = Raise ZeroDivisionError) /\
     train_epoch state train_dataloader ggn_dataloader ggn_batch_sizes
       ggn_freq n_ggn_iterations n_steps = Raise ZeroDivisionError) /\
  ((1 <= ggn_freq)%Z ->
     (forall GGN_iter_counter steps : Z,
        ggn_due GGN_iter_counter n_ggn_iterations steps ggn_freq =
        Ok ((GGN_iter_counter <? n_ggn_iterations)%Z &&
            (steps mod ggn_freq =? 0)%Z)) /\
     (nonempty_batches ggn_dataloader ->
        train_epoch state train_dataloader ggn_dataloader ggn_batch_sizes
          ggn_freq n_ggn_iterations n_steps <> Raise ZeroDivisionError)).
Proof.
  split.
  - intros -> Hn Hne.
    assert (Hdue : ggn_due 0 n_ggn_iterations n_steps 0
                   = Raise ZeroDivisionError).
    { unfold ggn_due. destruct (Z.ltb_spec 0 n_ggn_iterations); [|lia].
      reflexivity. }
    split; [exact Hdue|].
    assert (Hiter : forall b,
      train_iter ggn_dataloader ggn_batch_sizes 0 n_ggn_iterations
        (mkEpoch state [] 0%Z 0%Z n_steps []) b = Raise ZeroDivisionError).
    { intros b. unfold train_iter. cbn [GGN_iter_counter e_n_steps].
      rewrite Hdue. reflexivity. }
    split; [intros b _; apply Hiter|].
    unfold train_epoch. destruct (batches train_dataloader) as [|b bs];
      [contradiction|].
    cbn [train_loop]. rewrite Hiter. reflexivity.
  - intros Hf. assert (Hnz : ggn_freq <> 0%Z) by lia. split.
    + intros c s. apply ggn_due_spec. exact Hnz.
    + intros Hne. unfold train_epoch. apply bind_no_zde.
      * apply train_loop_no_zde; assumption.
      * intros e. apply bind_no_zde; [|intros [? ?]; discriminate].
        unfold epoch_statistics. apply bind_no_zde; [|discriminate].
        unfold concatenate1. destruct (loss_epoch e); discriminate.
Qed.

End NoZeroDivision.

(** ** Trigger timing and epoch statistics *)

Section EpochTheorems.

Context {Params Input OptState : Type} {M : Model Params Input OptState}.

(** C4.  Let the training loop have reached batch [b], after the batches
    [pre].  The step counter is then [n_steps + length pre], the state is the
    one the training steps on [pre] left, and [GGN_iter_counter] is the number
    of total-GGN saves so far.  A GGN iteration runs for [b] if and only if
    [GGN_iter_counter < n_ggn_iterations] and the step counter is a multiple
    of [ggn_freq]; it runs to its end, on the state as it stands before the
    training step on [b], and only then is that step applied to the same
    state.  [train_epoch] returns [n_ggn_iterations] minus the number of GGN
    iterations of the epoch. *)
Theorem ggn_trigger_timing
    (state : TrainState Params OptState)
    (train_dataloader ggn_dataloader : DataLoader Input)
    (ggn_batch_sizes : list Z) (ggn_freq n_ggn_iterations n_steps : Z) :
  ggn_freq <> 0%Z -> has_classes ->
  passes_succeed ggn_dataloader ggn_batch_sizes ->
  batches train_dataloader <> [] ->
  let loop := train_loop ggn_dataloader ggn_batch_sizes ggn_freq
                n_ggn_iterations in
  let e0 := mkEpoch state [] 0%Z 0%Z n_steps [] in
  (forall pre b post, batches train_dataloader = pre ++ b :: post ->
     exists e e',
       loop pre e0 = Ok e /\ loop (pre ++ [b]) e0 = Ok e' /\
       e_n_steps e = (n_steps + Z.of_nat (length pre))%Z /\
       e_state e = state_after state pre /\
       GGN_iter_counter e = Z.of_nat (count_total (e_store e)) /\
       (if ((GGN_iter_counter e <? n_ggn_iterations)%Z
            && (e_n_steps e mod ggn_freq =? 0)%Z)
        then ggn_pass (e_state e) ggn_dataloader ggn_batch_sizes
               (e_n_steps e) (e_store e) = Ok (e_store e') /\
             count_total (e_store e') = S (count_total (e_store e))
        else e_store e' = e_store e) /\
       exists loss n_correct,
         train_step (e_state e) b = Ok (e_state e', loss, n_correct)) /\
  exists r,
    train_epoch state train_dataloader ggn_dataloader ggn_batch_sizes
      ggn_freq n_ggn_iterations n_steps = Ok r /\
    r_n_steps r =
      (n_steps + Z.of_nat (length (batches train_dataloader)))%Z /\
    r_remaining r =
      (n_ggn_iterations - Z.of_nat (count_total (r_store r)))%Z.
Proof.
  intros Hf HC HP Hne loop e0. subst loop. cbv beta. split.
  - intros pre b post _.
    destruct (train_loop_run ggn_dataloader ggn_batch_sizes ggn_freq
                n_ggn_iterations Hf HC HP pre e0)
      as (e & Hl & Hn & Hs & _ & Hcnt & _ & _).
    destruct (train_iter_spec ggn_dataloader ggn_batch_sizes ggn_freq
                n_ggn_iterations Hf HC HP e b)
      as (store' & state' & loss & n & Hdue & Hstep & Hiter).
    eexists e, _. split; [exact Hl|]. split.
    { rewrite train_loop_app, Hl.
      cbn [bind train_loop]. rewrite Hiter. reflexivity. }
    cbn [e_state e_store].
    split; [exact Hn|]. split; [exact Hs|].
    split; [simpl in Hcnt; lia|]. split.
    + destruct ((GGN_iter_counter e <? n_ggn_iterations)%Z
                && (e_n_steps e mod ggn_freq =? 0)%Z).
      * split; [exact Hdue|].
        apply (ggn_pass_count _ _ _ _ _ _ Hdue).
      * exact Hdue.
    + exists loss, n. exact Hstep.
  - destruct (train_loop_run ggn_dataloader ggn_batch_sizes ggn_freq
                n_ggn_iterations Hf HC HP (batches train_dataloader) e0)
      as (e & Hl & Hn & _ & Hloss & Hcnt & Hlen & _).
    unfold train_epoch. fold e0. rewrite Hl. cbn [bind].
    unfold epoch_statistics, concatenate1.
    assert (Hlen' : length (loss_epoch e)
                    = length (batches train_dataloader))
      by (rewrite Hloss; unfold e0; simpl; rewrite length_map; exact Hlen).
    destruct (loss_epoch e) as [|l ls] eqn:El.
    + exfalso.
      destruct (batches train_dataloader); [contradiction | discriminate].
    + cbn [bind]. eexists. split; [reflexivity|]. cbn [r_n_steps r_remaining r_store].
      split; [exact Hn|]. simpl in Hcnt. lia.
Qed.

End EpochTheorems.

Lemma wrap32_accumulate (outs : list (Arr1 * Z)) :
  forall a : Z,
    Forall (fun o => (0 <= snd o <= Z.of_nat (len1 (fst o)))%Z) outs ->
    (0 <= a)%Z ->
    (a + Z.of_nat (cat1_len (map fst outs)) < 2 ^ 31)%Z ->
    fold_left (fun acc o => wrap32 (acc + snd o)) outs a =
      (a + correct_sum (map snd outs))%Z /\
    (0 <= correct_sum (map snd outs)
       <= Z.of_nat (cat1_len (map fst outs)))%Z.
Proof.
  induction outs as [|[l n] outs IH]; intros a F Ha Hb; simpl in *.
  - split; lia.
  - pose proof (Forall_inv F) as Hn. simpl in Hn.
    apply Forall_inv_tail in F.
    rewrite wrap32_small by lia.
    destruct (IH (a + n)%Z F) as [E B]; [lia | lia |].
    rewrite E. split; lia.
Qed.

Section Statistics.

Context {Params Input OptState : Type} {M : Model Params Input OptState}.

Hypothesis classes : has_classes.

Lemma train_outputs_bounds (bs : list (Batch Input)) :
  forall state : TrainState Params OptState,
    (Z.of_nat (cat1_len (map fst (train_outputs state bs))) < 2 ^ 31)%Z ->
    Forall (fun o => (0 <= snd o <= Z.of_nat (len1 (fst o)))%Z)
      (train_outputs state bs).
Proof.
  induction bs as [|b bs IH]; intros state Hb; simpl in *; [constructor|].
  destruct (train_step_ok state b classes) as (state' & Hs).
  rewrite Hs in *. simpl in Hb. constructor.
  - cbn [fst snd softmax_cross_entropy_with_integer_labels len1].
    rewrite count_correct_spec by lia.
    pose proof (correct_items_length
                  (apply_fn (params state) (batch_x b)) (batch_y b)). lia.
  - apply IH. lia.
Qed.

Lemma test_outputs_bounds (state : TrainState Params OptState)
    (bs : list (Batch Input)) :
  (Z.of_nat (cat1_len (map fst (test_outputs state bs))) < 2 ^ 31)%Z ->
  Forall (fun o => (0 <= snd o <= Z.of_nat (len1 (fst o)))%Z)
    (test_outputs state bs).
Proof.
  unfold test_outputs.
  induction bs as [|b bs IH]; intros Hb; simpl in *; [constructor|].
  rewrite (test_step_ok state b classes) in *. simpl in Hb |- *. constructor.
  - cbn [fst snd softmax_cross_entropy_with_integer_labels len1].
    rewrite count_correct_spec by lia.
    pose proof (correct_items_length
                  (apply_fn (params state) (batch_x b)) (batch_y b)). lia.
  - apply IH. lia.
Qed.

Lemma test_loop_run (state : TrainState Params OptState)
    (bs : list (Batch Input)) :
  forall acc : list Arr1 * Z,
    test_loop state bs acc =
    Ok (fst acc ++ map fst (test_outputs state bs),
        fold_left (fun a o => wrap32 (a + snd o)) (test_outputs state bs)
          (snd acc)) /\
    length (test_outputs state bs) = length bs.
Proof.
  unfold test_outputs.
  induction bs as [|b bs IH]; intros [ls n]; simpl.
  - rewrite app_nil_r. auto.
  - rewrite (test_step_ok state b classes). simpl.
    destruct (IH (ls ++ [softmax_cross_entropy_with_integer_labels
                           (apply_fn (params state) (batch_x b)) (batch_y b)],
                  wrap32 (n + count_correct
                                (rows (apply_fn (params state) (batch_x b)))
                                (fun i => Z.of_nat
                                   (argmax_row
                                      (cols (apply_fn (params state) (batch_x b)))
                                      (at2 (apply_fn (params state) (batch_x b)) i)))
                                (batch_y b)))) as [E L].
    rewrite E. simpl. rewrite <- app_assoc, L. auto.
Qed.

(** The statistics of an epoch with at least one batch. *)
Lemma epoch_statistics_spec (ls : list Arr1) (n : Z) (len : nat) :
  ls <> [] ->
  epoch_statistics ls n len =
  Ok (losses_sum ls / INR (cat1_len ls), IZR n / INR len).
Proof.
  intros Hne. unfold epoch_statistics, concatenate1.
  destruct ls as [|l ls]; [contradiction|]. cbn [bind].
  unfold mean1. cbn [len1 at1]. rewrite Rsum_cat1. reflexivity.
Qed.

(** C6.  An epoch over at least one batch and fewer than [2^31] items
    returns as loss the sum of all per-item losses that its steps returned,
    divided by their number, and as accuracy the sum of the numbers of correct
    predictions that its steps returned, divided by the size of the
    dataset. *)
Theorem epoch_loss_accuracy_exact
    (state : TrainState Params OptState)
    (train_dataloader test_dataloader ggn_dataloader : DataLoader Input)
    (ggn_batch_sizes : list Z) (ggn_freq n_ggn_iterations n_steps : Z) :
  let train_outs := train_outputs state (batches train_dataloader) in
  let test_outs := test_outputs state (batches test_dataloader) in
  (ggn_freq <> 0%Z -> passes_succeed ggn_dataloader ggn_batch_sizes ->
   batches train_dataloader <> [] ->
   (Z.of_nat (cat1_len (map fst train_outs)) < 2 ^ 31)%Z ->
   exists r,
     train_epoch state train_dataloader ggn_dataloader ggn_batch_sizes
       ggn_freq n_ggn_iterations n_steps = Ok r /\
     r_loss r =
       losses_sum (map fst train_outs) / INR (cat1_len (map fst train_outs)) /\
     r_accuracy r =
       IZR (correct_sum (map snd train_outs))
       / INR (dataset_len train_dataloader)) /\
  (batches test_dataloader <> [] ->
   (Z.of_nat (cat1_len (map fst test_outs)) < 2 ^ 31)%Z ->
   test_epoch state test_dataloader =
   Ok (losses_sum (map fst test_outs) / INR (cat1_len (map fst test_outs)),
       IZR (correct_sum (map snd test_outs))
       / INR (dataset_len test_dataloader))).
Proof.
  intros train_outs test_outs. split.
  - intros Hf HP Hne Hb.
    destruct (train_loop_run ggn_dataloader ggn_batch_sizes ggn_freq
                n_ggn_iterations Hf classes HP (batches train_dataloader)
                (mkEpoch state [] 0%Z 0%Z n_steps []))
      as (e & Hl & _ & _ & Hloss & _ & Hlen & Hnc).
    cbn [e_state loss_epoch n_correct_epoch app] in Hloss, Hlen, Hnc.
    fold train_outs in Hloss, Hlen, Hnc.
    destruct (wrap32_accumulate train_outs 0%Z) as [E _];
      [apply train_outputs_bounds; exact Hb | lia | lia |].
    unfold train_epoch. rewrite Hl. cbn [bind].
    rewrite epoch_statistics_spec.
    + cbn [bind]. eexists. split; [reflexivity|].
      cbn [r_loss r_accuracy]. rewrite Hloss, Hnc, E. auto.
    + rewrite Hloss. intros E0. apply (f_equal (@length _)) in E0.
      rewrite length_map, Hlen in E0.
      destruct (batches train_dataloader); [contradiction | discriminate].
  - intros Hne Hb.
    destruct (test_loop_run state (batches test_dataloader) ([], 0%Z))
      as [Hl Hlen].
    cbn [fst snd app] in Hl. fold test_outs in Hl, Hlen.
    destruct (wrap32_accumulate test_outs 0%Z) as [E _];
      [apply test_outputs_bounds; exact Hb | lia | lia |].
    unfold test_epoch. rewrite Hl. cbn [bind].
    rewrite epoch_statistics_spec.
    + rewrite E. reflexivity.
    + intros E0. apply (f_equal (@length _)) in E0.
      rewrite length_map, Hlen in E0.
      destruct (batches test_dataloader); [contradiction | discriminate].
Qed.

End Statistics.

(** * The definitions at work on the toy model *)

Lemma toy_has_classes : has_classes (M := toy_model).
Proof. intros p x. simpl. lia. Qed.

Lemma toy_compute_ggn (state : TrainState ToyParams unit) :
  (exists g, compute_ggn state (toy_batch 1) = Ok g
             /\ (dim0 g, dim1 g, dim2 g) = (1, 4, 4)%nat) /\
  (exists g, compute_ggn state (toy_batch 2) = Ok g
             /\ (dim0 g, dim1 g, dim2 g) = (2, 4, 4)%nat).
Proof. split; eexists; split; reflexivity. Qed.

Lemma toy_passes_succeed (sizes : list Z) :
  passes_succeed (M := toy_model) (toy_loader [2; 2; 2; 2; 2]%nat) sizes.
Proof.
  intros state n store.
  destruct (toy_compute_ggn state) as [_ (g & Hg & Hd)].
  injection Hd as H0 H1 H2.
  apply (ggn_pass_succeeds state sizes n (toy_loader [2; 2; 2; 2; 2]%nat)
           [g; g; g; g; g] 4 store).
  - repeat constructor; exact Hg.
  - apply (uniform_accumulable 2). repeat constructor; assumption.
Qed.

Lemma compute_ggn_sandwich_witness :
  exists GGN,
    compute_ggn toy_state (toy_batch 2) = Ok GGN /\
    (dim0 GGN, dim1 GGN, dim2 GGN) = (2, 4, 4)%nat.
Proof.
  destruct (compute_ggn_sandwich toy_state (toy_batch 2) [[2]; [2]]%nat)
    as (J & GGN & _ & H & _ & Hd & _).
  - simpl. lia.
  - simpl. lia.
  - discriminate.
  - repeat constructor.
  - exists GGN. split; [exact H | exact Hd].
Defined.

Lemma compute_ggn_symmetric_psd_witness :
  symmetric (slice0 (toy_ggn 2) 1) /\ psd (slice0 (toy_ggn 2) 1).
Proof.
  apply (compute_ggn_symmetric_psd toy_state (toy_batch 2) (toy_ggn 2)).
  - reflexivity.
  - simpl. lia.
Defined.

(** C2, as stated, fails for batches of unequal size: with five items in
    batches of three and two, both per-item GGNs are computed, but the update
    of the samples aggregate on the second batch does not broadcast; the loop
    raises there, before the total of that iteration is updated, and no total
    over the five items exists. *)
Lemma total_unequal_batches_raise :
  compute_ggn toy_state (toy_batch 3) = Ok (toy_ggn 3) /\
  compute_ggn toy_state (toy_batch 2) = Ok (toy_ggn 2) /\
  dim0 (toy_ggn 3) = 3%nat /\ dim0 (toy_ggn 2) = 2%nat /\
  update_samples (Some (toy_ggn 3)) (toy_ggn 2) 2 = Raise BroadcastError /\
  ggn_loop toy_state [] 0 0 (batches (toy_loader [3; 2]%nat)) (GGN_init, []) =
    Raise BroadcastError /\
  ggn_loop toy_state [] 0 0 (batches (toy_loader [4; 4; 2]%nat))
    (GGN_init, []) = Raise BroadcastError.
Proof.
  repeat split; reflexivity.
Qed.

(** Three batches of sizes two, two and one: the last one is broadcast.
    Two batches of sizes three and two: the loop raises. *)
Lemma total_running_mean_witness :
  accumulable 4 [toy_ggn 2; toy_ggn 2; toy_ggn 1] /\
  (exists stats store T,
     ggn_loop toy_state [1%Z; 3%Z] 0 0 (batches (toy_loader [2; 2; 1]%nat))
       (GGN_init, []) = Ok (stats, store) /\
     GGN_total stats = Some T /\
     at2 T 0 0 =
       items_sum [toy_ggn 2; toy_ggn 2; toy_ggn 1] 0 0 / INR 5) /\
  broadcast_dims (dim0 (toy_ggn' 3)) (map dim0 [toy_ggn' 2]) = None /\
  ggn_loop toy_state [1%Z; 3%Z] 0 0 [toy_batch' 3; toy_batch' 2]
    (GGN_init, []) = Raise BroadcastError.
Proof.
  assert (A : accumulable 4 [toy_ggn 2; toy_ggn 2; toy_ggn 1]).
  { split; [repeat constructor | discriminate]. }
  split; [exact A|]. split; [|split; [reflexivity|]].
  - destruct (total_running_mean toy_state [1%Z; 3%Z] 0
                (batches (toy_loader [2; 2; 1]%nat))
                (toy_ggn 2) [toy_ggn 2; toy_ggn 1] 4 [])
      as [H _].
    + repeat constructor.
    + simpl. lia.
    + destruct (H A) as (stats & store & T & Hl & HT & _ & _ & HV & _).
      exists stats, store, T. split; [exact Hl|]. split; [exact HT|].
      apply (HV 0%nat 0%nat); lia.
  - apply (total_running_mean toy_state [1%Z; 3%Z] 0
             [toy_batch' 3; toy_batch' 2] (toy_ggn' 3) [toy_ggn' 2] 4 []).
    + repeat constructor.
    + simpl. lia.
    + repeat constructor.
    + reflexivity.
Defined.

Lemma samples_running_mean_witness :
  exists stats store S,
    ggn_loop toy_state [1%Z; 3%Z] 0 0 (batches (toy_loader [2; 2; 2]%nat))
      (GGN_init, []) = Ok (stats, store) /\
    GGN_samples stats = Some S /\
    at3 S 1 0 0 =
      position_sum [toy_ggn 2; toy_ggn 2; toy_ggn 2] 1 0 0 / INR 3.
Proof.
  destruct (samples_running_mean toy_state [1%Z; 3%Z] 0
              (batches (toy_loader [2; 2; 2]%nat))
              (toy_ggn 2) [toy_ggn 2; toy_ggn 2] 2 4 [])
    as (stats & store & S & Hl & HS & _ & HV & _).
  - repeat constructor.
  - repeat constructor.
  - exists stats, store, S. split; [exact Hl|]. split; [exact HS|].
    apply (HV 1%nat 0%nat 0%nat); lia.
Defined.

(** Checkpoints at one and three batches, five GGN batches: two saves of the
    samples, at [m = 1] and [m = 3], then the save of the total. *)
Lemma ggn_pass_persists_witness :
  exists stats new,
    ggn_pass toy_state (toy_loader [2; 2; 2; 2; 2]%nat) [1%Z; 3%Z] 7 [] =
      Ok (new ++ [SaveTotal (GGN_total stats) 7]) /\
    samples_tags new = [(7%Z, 1%nat); (7%Z, 3%nat)] /\
    count_total new = 0%nat.
Proof.
  destruct (ggn_pass_persists toy_state [1%Z; 3%Z] 7
              (toy_loader [2; 2; 2; 2; 2]%nat)
              [toy_ggn 2; toy_ggn 2; toy_ggn 2; toy_ggn 2; toy_ggn 2] 4 [])
    as (stats & new & _ & Hp & Htags & Hnt & _).
  - repeat constructor.
  - split; [repeat constructor | discriminate].
  - exists stats, new. split; [exact Hp|]. split; [exact Htags|].
    apply count_total_samples. exact Hnt.
Defined.

(** C8, as stated, fails: a batch of one item against an aggregate of two
    items raises nothing, and the loop goes on. *)
Lemma samples_mismatch_not_fatal :
  compute_ggn toy_state (toy_batch 2) = Ok (toy_ggn 2) /\
  compute_ggn toy_state (toy_batch 1) = Ok (toy_ggn 1) /\
  dim0 (toy_ggn 2) = 2%nat /\ dim0 (toy_ggn 1) = 1%nat /\
  (exists S',
     update_samples (Some (toy_ggn 2)) (toy_ggn 1) 2 = Ok S' /\
     dim0 S' = 2%nat) /\
  (exists st,
     ggn_loop toy_state [] 0 0 (batches (toy_loader [2; 1]%nat))
       (GGN_init, []) = Ok st).
Proof.
  repeat split; try reflexivity.
  - eexists. split; reflexivity.
  - eexists. reflexivity.
Qed.

Lemma samples_mismatch_broadcasts_witness :
  update_samples (Some (toy_ggn 3)) (toy_ggn 2) 2 = Raise BroadcastError /\
  exists S',
    update_samples (Some (toy_ggn 2)) (toy_ggn 1) 2 = Ok S' /\
    dim0 S' = 2%nat.
Proof.
  split.
  - apply (samples_mismatch_broadcasts (toy_ggn 3) (toy_ggn 2) 2 4);
      try reflexivity; simpl; lia.
  - destruct (samples_mismatch_broadcasts (toy_ggn 2) (toy_ggn 1) 2 4)
      as [_ H]; try reflexivity.
    + simpl. lia.
    + destruct H as (S' & HS & Hd & _); [left; reflexivity|].
      exists S'. split; [exact HS | exact Hd].
Defined.

(** Seven training batches, [ggn_freq = 3], [n_ggn_iterations = 2], step
    counter starting at zero. *)
Lemma ggn_trigger_timing_witness :
  exists r,
    train_epoch toy_state (toy_loader [2; 2; 2; 2; 2; 2; 2]%nat)
      (toy_loader [2; 2; 2; 2; 2]%nat) [1%Z; 3%Z] 3 2 0 = Ok r /\
    r_n_steps r = 7%Z /\
    r_remaining r = (2 - Z.of_nat (count_total (r_store r)))%Z.
Proof.
  destruct (ggn_trigger_timing toy_state (toy_loader [2; 2; 2; 2; 2; 2; 2]%nat)
              (toy_loader [2; 2; 2; 2; 2]%nat) [1%Z; 3%Z] 3 2 0)
    as [_ (r & Hr & Hn & Hrem)].
  - lia.
  - exact toy_has_classes.
  - apply toy_passes_succeed.
  - discriminate.
  - exists r. split; [exact Hr|]. split; [exact Hn | exact Hrem].
Defined.

(** The GGN iterations of that epoch run at steps 0 and 3 and not at step 6,
    and no GGN iteration remains. *)
Example ggn_trigger_example :
  match train_epoch toy_state (toy_loader [2; 2; 2; 2; 2; 2; 2]%nat)
          (toy_loader [2; 2; 2; 2; 2]%nat) [1%Z; 3%Z] 3 2 0 with
  | Ok r => (map event_n_steps (filter is_total (r_store r)), r_remaining r)
  | Raise _ => ([], (-1)%Z)
  end = ([0%Z; 3%Z], 0%Z).
Proof. reflexivity. Qed.

(** Training batches of sizes two, two and one. *)
Lemma epoch_loss_accuracy_exact_witness :
  let outs := train_outputs toy_state (batches (toy_loader [2; 2; 1]%nat)) in
  cat1_len (map fst outs) = 5%nat /\
  exists r,
    train_epoch toy_state (toy_loader [2; 2; 1]%nat)
      (toy_loader [2; 2; 2; 2; 2]%nat) [1%Z; 3%Z] 3 2 0 = Ok r /\
    r_loss r = losses_sum (map fst outs) / INR 5 /\
    r_accuracy r = IZR (correct_sum (map snd outs)) / INR 5.
Proof.
  intros outs.
  assert (L : cat1_len (map fst outs) = 5%nat) by reflexivity.
  split; [exact L|].
  destruct (epoch_loss_accuracy_exact toy_has_classes toy_state
              (toy_loader [2; 2; 1]%nat) (toy_loader [2; 2; 1]%nat)
              (toy_loader [2; 2; 2; 2; 2]%nat) [1%Z; 3%Z] 3 2 0)
    as [H _].
  destruct H as (r & Hr & Hloss & Hacc).
  - lia.
  - apply toy_passes_succeed.
  - discriminate.
  - fold outs. rewrite L. simpl. lia.
  - fold outs in Hloss, Hacc. rewrite L in Hloss.
    exists r. split; [exact Hr|]. split; [exact Hloss | exact Hacc].
Defined.

(** The epoch loss is the mean over the items, not the mean of the batch
    means: two items of loss 1 and one item of loss 4 give 2, not 5/2. *)
Example epoch_loss_not_mean_of_means :
  let l1 := mkArr1 2 (fun _ => 1) in
  let l2 := mkArr1 1 (fun _ => 4) in
  epoch_statistics [l1; l2] 3 3 = Ok (2, 1) /\
  (mean1 l1 + mean1 l2) / 2 = 5 / 2.
Proof.
  intros l1 l2. split.
  - rewrite epoch_statistics_spec by discriminate.
    f_equal. f_equal; simpl; field.
  - unfold mean1. simpl. field.
Qed.

Lemma ggn_freq_zero_raises_witness :
  train_epoch toy_state (toy_loader [2]%nat) (toy_loader [2; 2; 2; 2; 2]%nat)
    [] 0 1 0 = Raise ZeroDivisionError /\
  ggn_due 0 1 4 2 = Ok true /\
  train_epoch toy_state (toy_loader [2]%nat) (toy_loader [2; 2; 2; 2; 2]%nat)
    [] 2 1 0 <> Raise ZeroDivisionError.
Proof.
  split; [|split].
  - apply (ggn_freq_zero_raises toy_state (toy_loader [2]%nat)
             (toy_loader [2; 2; 2; 2; 2]%nat) [] 0 1 0);
      [reflexivity | lia | discriminate].
  - apply (ggn_freq_zero_raises toy_state (toy_loader [2]%nat)
             (toy_loader [2; 2; 2; 2; 2]%nat) [] 2 1 0). lia.
  - apply (ggn_freq_zero_raises toy_state (toy_loader [2]%nat)
             (toy_loader [2; 2; 2; 2; 2]%nat) [] 2 1 0); [lia|].
    intros p b Hb. simpl in Hb.
    repeat (destruct Hb as [<- | Hb]; [simpl; lia|]). contradiction.
Defined.

Lemma n_correct_exact_witness :
  exists state' loss n_correct,
    train_step toy_state (toy_batch 2) = Ok (state', loss, n_correct) /\
    test_step toy_state (toy_batch 2) = Ok (loss, n_correct) /\
    (0 <= n_correct <= 2)%Z.
Proof.
  destruct (n_correct_exact toy_state (toy_batch 2))
    as (state' & loss & n & Htrain & Htest & _ & Hb & _).
  - simpl. lia.
  - simpl. lia.
  - exists state', loss, n. split; [exact Htrain|]. split; [exact Htest|].
    exact Hb.
Defined.

(** * Further properties of the epoch drivers *)

Lemma total_tags_app (l1 l2 : list event) :
  total_tags (l1 ++ l2) = total_tags l1 ++ total_tags l2.
Proof. unfold total_tags. rewrite filter_app, map_app. reflexivity. Qed.

Lemma total_tags_samples (new : list event) :
  Forall (fun e => is_total e = false) new -> total_tags new = [].
Proof.
  unfold total_tags. induction 1 as [|e l He _ IH]; simpl; [reflexivity|].
  rewrite He. exact IH.
Qed.

Lemma total_tags_length (store : list event) :
  length (total_tags store) = count_total store.
Proof. unfold total_tags, count_total. apply length_map. Qed.

Section Schedule.

Context {Params Input OptState : Type} {M : Model Params Input OptState}.

Variables (ggn_dataloader : DataLoader Input) (ggn_batch_sizes : list Z).
Variables (ggn_freq n_ggn_iterations : Z).

Lemma ggn_pass_tags (state : TrainState Params OptState) (n_steps : Z)
    (store store' : list event) :
  ggn_pass state ggn_dataloader ggn_batch_sizes n_steps store = Ok store' ->
  total_tags store' = total_tags store ++ [n_steps].
Proof.
  intros H.
  destruct (ggn_pass_store _ _ _ _ _ _ H) as (new & total & -> & Hnt).
  rewrite !total_tags_app, (total_tags_samples new Hnt). reflexivity.
Qed.

(** The total GGN is saved at the first step counters that are multiples of
    [ggn_freq], as long as GGN iterations remain. *)
Lemma train_loop_schedule :
  ggn_freq <> 0%Z -> has_classes ->
  passes_succeed ggn_dataloader ggn_batch_sizes ->
  forall (bs : list (Batch Input)) (e e' : Epoch),
    train_loop ggn_dataloader ggn_batch_sizes ggn_freq n_ggn_iterations bs e
      = Ok e' ->
    total_tags (e_store e') =
    total_tags (e_store e) ++
    firstn (Z.to_nat (n_ggn_iterations - GGN_iter_counter e))
      (filter (fun s => (s mod ggn_freq =? 0)%Z)
         (step_counters (e_n_steps e) (length bs))).
Proof.
  intros Hf HC HP. induction bs as [|b bs IH]; intros e e' H.
  - simpl in H. injection H as <-. simpl. rewrite firstn_nil, app_nil_r.
    reflexivity.
  - destruct (train_iter_spec ggn_dataloader ggn_batch_sizes ggn_freq
                n_ggn_iterations Hf HC HP e b)
      as (store' & state' & loss & n & Hdue & _ & Hiter).
    cbn [train_loop] in H. rewrite Hiter in H. cbn [bind] in H.
    rewrite (IH _ _ H). cbn [e_store GGN_iter_counter e_n_steps].
    cbn [length step_counters filter].
    destruct (Z.ltb_spec (GGN_iter_counter e) n_ggn_iterations) as [Hlt|Hge];
      cbn [andb] in *.
    + destruct (e_n_steps e mod ggn_freq =? 0)%Z.
      * rewrite (ggn_pass_tags _ _ _ _ Hdue), <- app_assoc.
        replace (Z.to_nat (n_ggn_iterations - GGN_iter_counter e))
          with (S (Z.to_nat (n_ggn_iterations - (GGN_iter_counter e + 1))))
          by lia.
        reflexivity.
      * rewrite Hdue. reflexivity.
    + rewrite Hdue.
      replace (Z.to_nat (n_ggn_iterations - GGN_iter_counter e)) with 0%nat
        by lia.
      reflexivity.
Qed.

(** The training loop when no GGN iteration remains: the trigger test stops
    at its first half, whatever [ggn_freq] is. *)
Lemma train_loop_idle :
  has_classes ->
  forall (bs : list (Batch Input)) (e : Epoch),
    (n_ggn_iterations <= GGN_iter_counter e)%Z ->
    exists e',
      train_loop ggn_dataloader ggn_batch_sizes ggn_freq n_ggn_iterations bs e
        = Ok e' /\
      e_store e' = e_store e /\
      GGN_iter_counter e' = GGN_iter_counter e /\
      e_n_steps e' = (e_n_steps e + Z.of_nat (length bs))%Z /\
      e_state e' = state_after (e_state e) bs /\
      loss_epoch e' = loss_epoch e ++ map fst (train_outputs (e_state e) bs) /\
      length (train_outputs (e_state e) bs) = length bs /\
      n_correct_epoch e' =
        fold_left (fun acc o => wrap32 (acc + snd o))
          (train_outputs (e_state e) bs) (n_correct_epoch e).
Proof.
  intros HC. induction bs as [|b bs IH]; intros e Hge.
  - exists e. simpl. rewrite app_nil_r, Z.add_0_r. auto 10.
  - destruct (train_step_ok (e_state e) b HC) as (state' & Hs).
    cbn [train_loop]. unfold train_iter, ggn_due.
    destruct (Z.ltb_spec (GGN_iter_counter e) n_ggn_iterations); [lia|].
    cbn [bind]. rewrite Hs. cbn [bind].
    match goal with |- context [train_loop _ _ _ _ bs ?e1] =>
      destruct (IH e1) as (e' & Hl & Hst & Hc & Hn & Hstate & Hloss & Hlen & Hnc)
    end; [exact Hge|].
    exists e'.
    cbn [e_n_steps e_state loss_epoch e_store GGN_iter_counter n_correct_epoch]
      in *.
    cbn [train_outputs state_after]. rewrite Hs.
    split; [exact Hl|]. split; [exact Hst|]. split; [exact Hc|].
    split; [rewrite Hn; simpl length; lia|]. split; [exact Hstate|].
    split; [rewrite Hloss, <- app_assoc; reflexivity|].
    split; [simpl; rewrite Hlen; reflexivity | exact Hnc].
Qed.

End Schedule.

Section FurtherEpochs.

Context {Params Input OptState : Type} {M : Model Params Input OptState}.

(** X1.  In a training epoch that goes through, the total GGN is saved
    exactly under the first [n_ggn_iterations] step counters of the epoch
    that are multiples of [ggn_freq], in increasing order, and the number of
    GGN iterations returned as remaining is [n_ggn_iterations] minus the
    number of those step counters. *)
Theorem ggn_passes_follow_schedule
    (state : TrainState Params OptState)
    (train_dataloader ggn_dataloader : DataLoader Input)
    (ggn_batch_sizes : list Z) (ggn_freq n_ggn_iterations n_steps : Z) :
  ggn_freq <> 0%Z -> has_classes ->
  passes_succeed ggn_dataloader ggn_batch_sizes ->
  batches train_dataloader <> [] ->
  let schedule :=
    ggn_schedule ggn_freq n_ggn_iterations n_steps
      (length (batches train_dataloader)) in
  exists r,
    train_epoch state train_dataloader ggn_dataloader ggn_batch_sizes
      ggn_freq n_ggn_iterations n_steps = Ok r /\
    total_tags (r_store r) = schedule /\
    r_remaining r = (n_ggn_iterations - Z.of_nat (length schedule))%Z /\
    ((0 <= n_ggn_iterations)%Z ->
     (0 <= r_remaining r <= n_ggn_iterations)%Z).
Proof.
  intros Hf HC HP Hne schedule.
  set (e0 := mkEpoch state [] 0%Z 0%Z n_steps []).
  assert (Hsl : (length schedule <= Z.to_nat n_ggn_iterations)%nat)
    by (unfold schedule, ggn_schedule; apply firstn_le_length).
  destruct (train_loop_run ggn_dataloader ggn_batch_sizes ggn_freq
              n_ggn_iterations Hf HC HP (batches train_dataloader) e0)
    as (e & Hl & _ & _ & Hloss & Hcnt & Hlen & _).
  pose proof (train_loop_schedule ggn_dataloader ggn_batch_sizes ggn_freq
                n_ggn_iterations Hf HC HP _ _ _ Hl) as Htags.
  assert (Htags' : total_tags (e_store e) = schedule).
  { rewrite Htags. unfold schedule, ggn_schedule, e0.
    cbn [e_store GGN_iter_counter e_n_steps]. rewrite Z.sub_0_r.
    reflexivity. }
  clear Htags. rename Htags' into Htags.
  unfold train_epoch. fold e0. rewrite Hl. cbn [bind].
  rewrite epoch_statistics_spec.
  - cbn [bind]. eexists. split; [reflexivity|].
    cbn [r_store r_remaining]. split; [exact Htags|].
    assert (Hrem : (n_ggn_iterations - GGN_iter_counter e =
                    n_ggn_iterations - Z.of_nat (length schedule))%Z)
      by (rewrite <- Htags, total_tags_length; simpl in Hcnt; lia).
    split; [exact Hrem | lia].
  - rewrite Hloss. unfold e0. simpl. intros E.
    apply (f_equal (@length _)) in E. rewrite length_map in E.
    simpl in E, Hlen. rewrite Hlen in E.
    destruct (batches train_dataloader); [contradiction | discriminate].
Qed.

(** X2.  With [n_ggn_iterations <= 0] a training epoch over at least one
    batch runs no GGN iteration and never evaluates the modulo, so it goes
    through for every [ggn_freq], zero included, and whatever the GGN data
    loader holds: nothing is saved, and [n_ggn_iterations] is returned as it
    came. *)
Theorem no_ggn_iteration_without_budget
    (state : TrainState Params OptState)
    (train_dataloader ggn_dataloader : DataLoader Input)
    (ggn_batch_sizes : list Z) (ggn_freq n_ggn_iterations n_steps : Z) :
  (n_ggn_iterations <= 0)%Z -> has_classes ->
  batches train_dataloader <> [] ->
  exists r,
    train_epoch state train_dataloader ggn_dataloader ggn_batch_sizes
      ggn_freq n_ggn_iterations n_steps = Ok r /\
    r_store r = [] /\
    r_remaining r = n_ggn_iterations /\
    r_n_steps r = (n_steps + Z.of_nat (length (batches train_dataloader)))%Z /\
    r_state r = state_after state (batches train_dataloader).
Proof.
  intros Hn HC Hne.
  set (e0 := mkEpoch state [] 0%Z 0%Z n_steps []).
  destruct (train_loop_idle ggn_dataloader ggn_batch_sizes ggn_freq
              n_ggn_iterations HC (batches train_dataloader) e0)
    as (e & Hl & Hst & Hc & Hns & Hs & Hloss & Hlen & _); [exact Hn|].
  unfold train_epoch. fold e0. rewrite Hl. cbn [bind].
  rewrite epoch_statistics_spec.
  - cbn [bind]. eexists. split; [reflexivity|].
    cbn [r_store r_remaining r_n_steps r_state].
    split; [exact Hst|]. split; [rewrite Hc; simpl; lia|].
    split; [exact Hns | exact Hs].
  - rewrite Hloss. unfold e0. simpl. intros E.
    apply (f_equal (@length _)) in E. rewrite length_map in E.
    simpl in E, Hlen. rewrite Hlen in E.
    destruct (batches train_dataloader); [contradiction | discriminate].
Qed.

(** X3.  The GGN iterations do not touch the training: a training epoch
    that runs GGN iterations returns the same state, loss, accuracy and step
    counter as the same epoch run with [n_ggn_iterations = 0]. *)
Theorem ggn_iterations_leave_training_alone
    (state : TrainState Params OptState)
    (train_dataloader ggn_dataloader : DataLoader Input)
    (ggn_batch_sizes : list Z) (ggn_freq n_ggn_iterations n_steps : Z) :
  ggn_freq <> 0%Z -> has_classes ->
  passes_succeed ggn_dataloader ggn_batch_sizes ->
  batches train_dataloader <> [] ->
  exists r r0,
    train_epoch state train_dataloader ggn_dataloader ggn_batch_sizes
      ggn_freq n_ggn_iterations n_steps = Ok r /\
    train_epoch state train_dataloader ggn_dataloader ggn_batch_sizes
      ggn_freq 0 n_steps = Ok r0 /\
    r_state r = r_state r0 /\ r_loss r = r_loss r0 /\
    r_accuracy r = r_accuracy r0 /\ r_n_steps r = r_n_steps r0.
Proof.
  intros Hf HC HP Hne.
  set (e0 := mkEpoch state [] 0%Z 0%Z n_steps []).
  destruct (train_loop_run ggn_dataloader ggn_batch_sizes ggn_freq
              n_ggn_iterations Hf HC HP (batches train_dataloader) e0)
    as (e & Hl & Hns & Hs & Hloss & _ & Hlen & Hnc).
  destruct (train_loop_idle ggn_dataloader ggn_batch_sizes ggn_freq
              0 HC (batches train_dataloader) e0)
    as (e' & Hl' & _ & _ & Hns' & Hs' & Hloss' & _ & Hnc'); [simpl; lia|].
  assert (Hnonempty : loss_epoch e <> []).
  { rewrite Hloss. unfold e0. simpl. intros E.
    apply (f_equal (@length _)) in E. rewrite length_map in E.
    simpl in E, Hlen. rewrite Hlen in E.
    destruct (batches train_dataloader); [contradiction | discriminate]. }
  unfold train_epoch. fold e0. rewrite Hl, Hl'. cbn [bind].
  rewrite <- Hloss in Hloss'. rewrite <- Hnc in Hnc'.
  rewrite Hloss', Hnc'.
  rewrite (epoch_statistics_spec (loss_epoch e) _ _ Hnonempty). cbn [bind].
  do 2 eexists. split; [reflexivity|]. split; [reflexivity|].
  cbn [r_state r_loss r_accuracy r_n_steps].
  rewrite Hs, Hs', Hns, Hns'. auto.
Qed.

(** X4.  An epoch over a data loader that yields no batch does not return:
    the concatenation of no losses raises, in [train_epoch] (whatever the GGN
    settings) and in [test_epoch]. *)
Theorem empty_epoch_raises
    (state : TrainState Params OptState) (ggn_dataloader : DataLoader Input)
    (ggn_batch_sizes : list Z) (ggn_freq n_ggn_iterations n_steps : Z)
    (dataset_len : nat) :
  train_epoch state (mkDataLoader [] dataset_len) ggn_dataloader
    ggn_batch_sizes ggn_freq n_ggn_iterations n_steps
    = Raise EmptyConcatenate /\
  test_epoch state (mkDataLoader [] dataset_len) = Raise EmptyConcatenate.
Proof. split; reflexivity. Qed.

End FurtherEpochs.

(** * Further properties of the per-item GGN and its aggregates *)

(** The rows of the Hessian sum to zero: the loss does not change when all
    logits move together. *)
Lemma H_loss_fn_row_sum (C : nat) (z : nat -> R) (y : Z) (a : nat) :
  (a < C)%nat -> Rsum C (fun b => at2 (H_loss_fn C z y) a b) = 0.
Proof.
  intros Ha. simpl.
  rewrite (Rsum_ext C _
    (fun b => (if (b =? a)%nat then softmax C z a else 0)
              - softmax C z a * softmax C z b)).
  2:{ intros b _. rewrite (Nat.eqb_sym a b). reflexivity. }
  rewrite Rsum_minus, (Rsum_single C a (fun _ => softmax C z a)) by exact Ha.
  rewrite Rsum_scal_l, softmax_sum by lia. lra.
Qed.

(** [(J^T H J) v = J^T (H (J v))] *)
Lemma sandwich_matvec (C D : nat) (J H : nat -> nat -> R) (v : nat -> R)
    (x : nat) :
  Rsum D (fun y => sandwich C J H x y * v y) =
  Rsum C (fun a => J a x *
    Rsum C (fun b => H a b * Rsum D (fun y => J b y * v y))).
Proof.
  unfold sandwich.
  rewrite (Rsum_ext D _
    (fun y => Rsum C (fun a => Rsum C (fun b =>
       J a x * H a b * J b y * v y)))).
  2:{ intros y _. rewrite <- Rsum_scal_r. apply Rsum_ext. intros a _.
      rewrite <- Rsum_scal_r. reflexivity. }
  rewrite Rsum_swap. apply Rsum_ext. intros a _.
  rewrite Rsum_swap, <- Rsum_scal_l. apply Rsum_ext. intros b _.
  rewrite <- !Rsum_scal_l. apply Rsum_ext. intros y _. lra.
Qed.

Lemma items_sum_perm (gs gs' : list Arr3) (x y : nat) :
  Permutation gs gs' -> items_sum gs x y = items_sum gs' x y.
Proof. induction 1; simpl; lra. Qed.

Lemma items_count_perm (gs gs' : list Arr3) :
  Permutation gs gs' -> items_count gs = items_count gs'.
Proof. unfold items_count. induction 1; simpl; lia. Qed.

Lemma position_sum_perm (gs gs' : list Arr3) (i x y : nat) :
  Permutation gs gs' -> position_sum gs i x y = position_sum gs' i x y.
Proof. induction 1; simpl; lra. Qed.

Lemma items_count_uniform (N D : nat) (gs : list Arr3) :
  Forall (fun g => dim0 g = N /\ dim1 g = D /\ dim2 g = D) gs ->
  items_count gs = (N * length gs)%nat.
Proof.
  unfold items_count. induction 1 as [|g l (G0 & _) _ IH]; simpl; [lia|].
  rewrite IH, G0. lia.
Qed.

(** The quadratic form of the sum of the items is the sum of their quadratic
    forms. *)
Lemma items_sum_quad (D : nat) (gs : list Arr3) (v : nat -> R) :
  Forall (fun g => dim1 g = D /\ dim2 g = D) gs ->
  Rsum D (fun x => Rsum D (fun y => v x * items_sum gs x y * v y)) =
  items_quad gs v.
Proof.
  induction 1 as [|g l [G1 G2] _ IH]; simpl.
  - rewrite (Rsum_ext D _ (fun _ => 0)); [apply Rsum_zero|].
    intros x _. rewrite (Rsum_ext D _ (fun _ => 0)); [apply Rsum_zero|].
    intros y _. lra.
  - rewrite <- IH. unfold quad_form. simpl. rewrite G1, G2.
    rewrite (Rsum_swap (dim0 g) D
               (fun i x => Rsum D (fun y => v x * at3 g i x y * v y))).
    rewrite <- Rsum_plus. apply Rsum_ext. intros x _.
    rewrite (Rsum_swap (dim0 g) D (fun i y => v x * at3 g i x y * v y)).
    rewrite <- Rsum_plus. apply Rsum_ext. intros y _.
    rewrite (Rsum_ext (dim0 g) (fun i => v x * at3 g i x y * v y)
               (fun i => (v x * v y) * at3 g i x y)) by (intros; lra).
    rewrite Rsum_scal_l. lra.
Qed.

Section PerItem.

Context {Params Input OptState : Type} {M : Model Params Input OptState}.

(** What [compute_ggn] returns, in terms of the flattened Jacobian. *)
Lemma compute_ggn_inv (state : TrainState Params OptState)
    (batch : Batch Input) (GGN : Arr3) :
  compute_ggn state batch = Ok GGN ->
  let logits := apply_fn (params state) (batch_x batch) in
  exists J,
    J_model_flat state (batch_x batch) = Ok J /\
    dim0 J = rows logits /\ dim1 J = cols logits /\
    dim0 GGN = dim0 J /\ dim1 GGN = dim2 J /\ dim2 GGN = dim2 J /\
    forall n x y,
      at3 GGN n x y =
      sandwich (cols logits) (fun a k => at3 J n a k)
        (at2 (H_loss_fn (cols logits) (at2 logits n) (batch_y batch n))) x y.
Proof.
  unfold compute_ggn. cbv zeta.
  destruct (J_model_flat state (batch_x batch)) as [J|] eqn:HJ; [|discriminate].
  cbn [bind]. intros E. injection E as <-. cbv zeta.
  destruct (J_model_flat_dims _ _ _ HJ) as [H0 H1].
  exists J. split; [reflexivity|]. simpl.
  repeat (split; [assumption || reflexivity|]).
  intros n x y. unfold sandwich, model_fn. rewrite H1. reflexivity.
Qed.

Lemma compute_ggn_item_symmetric (state : TrainState Params OptState)
    (batch : Batch Input) (GGN : Arr3) :
  compute_ggn state batch = Ok GGN ->
  dim1 GGN = dim2 GGN /\ forall n x y, at3 GGN n x y = at3 GGN n y x.
Proof.
  intros H. destruct (compute_ggn_inv _ _ _ H)
    as (J & _ & _ & _ & _ & D1 & D2 & HV).
  split; [congruence|]. intros n x y. rewrite !HV.
  apply sandwich_symmetric. intros a b _ _. apply H_loss_fn_symmetric.
Qed.

Lemma compute_ggn_item_psd (state : TrainState Params OptState)
    (batch : Batch Input) (GGN : Arr3) (n : nat) (v : nat -> R) :
  compute_ggn state batch = Ok GGN -> 0 <= quad_form (slice0 GGN n) v.
Proof.
  intros H. destruct (compute_ggn_inv _ _ _ H)
    as (J & _ & _ & _ & _ & D1 & D2 & HV).
  set (logits := apply_fn (params state) (batch_x batch)) in *.
  unfold quad_form. simpl. rewrite D1, D2.
  rewrite (Rsum_ext (dim2 J) _
    (fun x => Rsum (dim2 J) (fun y =>
       v x * sandwich (cols logits) (fun a k => at3 J n a k)
               (at2 (H_loss_fn (cols logits) (at2 logits n)
                       (batch_y batch n))) x y * v y))).
  2:{ intros x _. apply Rsum_ext. intros y _. rewrite HV. reflexivity. }
  rewrite sandwich_quad_form.
  apply (H_loss_fn_psd (cols logits) (at2 logits n) (batch_y batch n)
           (fun a => Rsum (dim2 J) (fun x => at3 J n a x * v x))).
Qed.

(** X5.  The per-item GGN annihilates every parameter direction that moves
    all logits of the item by the same amount: if [J[n] v] is constant over
    the classes, then [GGN[n] v = 0].  The GGN of a softmax classifier is
    therefore singular whenever such a direction exists, as for a bias added
    to every class. *)
Theorem ggn_annihilates_class_shifts
    (state : TrainState Params OptState) (batch : Batch Input)
    (GGN J : Arr3) (n : nat) (v : nat -> R) (c : R) :
  compute_ggn state batch = Ok GGN ->
  J_model_flat state (batch_x batch) = Ok J ->
  (forall a, (a < dim1 J)%nat ->
     Rsum (dim2 J) (fun x => at3 J n a x * v x) = c) ->
  forall x, matvec (slice0 GGN n) v x = 0.
Proof.
  intros HG HJ Hc x.
  destruct (compute_ggn_inv _ _ _ HG) as (J' & HJ' & _ & H1 & _ & _ & D2 & HV).
  rewrite HJ in HJ'. injection HJ' as <-.
  set (logits := apply_fn (params state) (batch_x batch)) in *.
  unfold matvec. simpl. rewrite D2.
  rewrite (Rsum_ext (dim2 J) _
    (fun y => sandwich (cols logits) (fun a k => at3 J n a k)
                (at2 (H_loss_fn (cols logits) (at2 logits n)
                        (batch_y batch n))) x y * v y))
    by (intros y _; rewrite HV; reflexivity).
  rewrite sandwich_matvec.
  rewrite (Rsum_ext (cols logits) _ (fun _ => 0)); [apply Rsum_zero|].
  intros a Ha.
  rewrite (Rsum_ext (cols logits) _
    (fun b => at2 (H_loss_fn (cols logits) (at2 logits n)
                     (batch_y batch n)) a b * c)).
  2:{ intros b Hb. rewrite Hc by (rewrite H1; exact Hb). reflexivity. }
  rewrite Rsum_scal_r, H_loss_fn_row_sum by exact Ha. lra.
Qed.

End PerItem.

Lemma Forall2_right {A B : Type} (R : A -> B -> Prop) (P : B -> Prop)
    (l : list A) (l' : list B) :
  (forall a b, R a b -> P b) -> Forall2 R l l' -> Forall P l'.
Proof. intros H. induction 1; constructor; eauto. Qed.

Lemma items_sum_symmetric (gs : list Arr3) (x y : nat) :
  Forall (fun g => forall n x y, at3 g n x y = at3 g n y x) gs ->
  items_sum gs x y = items_sum gs y x.
Proof.
  induction 1 as [|g l Hg _ IH]; simpl; [reflexivity|].
  rewrite IH. f_equal. apply Rsum_ext. intros i _. apply Hg.
Qed.

Lemma items_quad_nonneg (gs : list Arr3) (v : nat -> R) :
  Forall (fun g => forall n v, 0 <= quad_form (slice0 g n) v) gs ->
  0 <= items_quad gs v.
Proof.
  induction 1 as [|g l Hg _ IH]; simpl; [lra|].
  assert (0 <= Rsum (dim0 g) (fun i => quad_form (slice0 g i) v))
    by (apply Rsum_nonneg; intros; apply Hg).
  lra.
Qed.

Section Aggregates.

Context {Params Input OptState : Type} {M : Model Params Input OptState}.

Variables (state : TrainState Params OptState) (sizes : list Z) (n_steps : Z).

(** X7.  The total aggregate is symmetric and positive semi-definite, like
    the per-item GGNs it averages (first batch non-empty, [D] by [D] items,
    batch sizes that broadcast). *)
Theorem total_aggregate_symmetric_psd
    (batches : list (Batch Input)) (g0 : Arr3) (rest : list Arr3) (D : nat)
    (store0 : list event) :
  Forall2 (fun b g => compute_ggn state b = Ok g) batches (g0 :: rest) ->
  accumulable D (g0 :: rest) ->
  (0 < dim0 g0)%nat ->
  exists stats store T,
    ggn_loop state sizes n_steps 0 batches (GGN_init, store0) =
      Ok (stats, store) /\
    GGN_total stats = Some T /\ symmetric T /\ psd T.
Proof.
  intros F2 Hacc Hpos.
  destruct (ggn_fold_succeeds sizes n_steps D (g0 :: rest) store0 Hacc)
    as (stats & store & Hf).
  destruct (ggn_fold_total sizes n_steps D (g0 :: rest) store0 stats store)
    as (Hc & T & HT & Tr & Tc & HV);
    [discriminate | exact (proj1 Hacc) | exact Hf |].
  set (gs := g0 :: rest) in *.
  assert (Hcnt : INR (items_count gs) <> 0).
  { apply not_0_INR. unfold gs, items_count. simpl. lia. }
  assert (Hcpos : 0 < INR (items_count gs)).
  { apply lt_0_INR. unfold gs, items_count. simpl. lia. }
  assert (HE : forall x y, (x < D)%nat -> (y < D)%nat ->
             at2 T x y = items_sum gs x y / INR (items_count gs)).
  { intros x y Hx Hy. rewrite <- HV by assumption. field. exact Hcnt. }
  exists stats, store, T.
  rewrite (ggn_loop_fold state sizes n_steps _ _ F2).
  split; [exact Hf|]. split; [exact HT|]. split.
  - split; [congruence|]. intros i j Hi Hj. rewrite Tr in Hi, Hj.
    rewrite !HE by assumption. f_equal. apply items_sum_symmetric.
    apply (Forall2_right _ _ _ _
             (fun b g H => proj2 (compute_ggn_item_symmetric state b g H)) F2).
  - intros v. unfold quad_form. rewrite Tr, Tc.
    rewrite (Rsum_ext D _
      (fun x => Rsum D (fun y => v x * items_sum gs x y * v y)
                * / INR (items_count gs))).
    2:{ intros x Hx. rewrite <- Rsum_scal_r. apply Rsum_ext. intros y Hy.
        rewrite HE by assumption. unfold Rdiv. ring. }
    rewrite Rsum_scal_r, (items_sum_quad D gs v (proj1 Hacc)).
    apply Rmult_le_pos.
    + apply items_quad_nonneg.
      apply (Forall2_right _ _ _ _
               (fun b g H n v => compute_ggn_item_psd state b g n v H) F2).
    + left. apply Rinv_0_lt_compat. exact Hcpos.
Qed.

(** X8.  With one batch shape [[N, D, D]], [N >= 1], the aggregates do not
    depend on the order in which the data loader yields its batches: the
    total aggregate is the same entry by entry, and so is the samples
    aggregate. *)
Theorem aggregates_ignore_batch_order
    (batches batches' : list (Batch Input)) (gs : list Arr3) (N D : nat)
    (store0 store0' : list event) :
  Permutation batches batches' ->
  Forall2 (fun b g => compute_ggn state b = Ok g) batches gs ->
  Forall (fun g => dim0 g = N /\ dim1 g = D /\ dim2 g = D) gs ->
  gs <> [] -> (0 < N)%nat ->
  exists stats stats' store store' T T' S S',
    ggn_loop state sizes n_steps 0 batches (GGN_init, store0) =
      Ok (stats, store) /\
    ggn_loop state sizes n_steps 0 batches' (GGN_init, store0') =
      Ok (stats', store') /\
    GGN_total stats = Some T /\ GGN_total stats' = Some T' /\
    GGN_samples stats = Some S /\ GGN_samples stats' = Some S' /\
    (forall x y, (x < D)%nat -> (y < D)%nat -> at2 T x y = at2 T' x y) /\
    (forall i x y, (i < N)%nat -> (x < D)%nat -> (y < D)%nat ->
       at3 S i x y = at3 S' i x y).
Proof.
  intros HP F2 FU Hne HN.
  destruct (Permutation_Forall2 HP F2) as (gs' & HP' & F2').
  assert (FU' : Forall (fun g => dim0 g = N /\ dim1 g = D /\ dim2 g = D) gs')
    by (eapply Permutation_Forall; eassumption).
  assert (Hne' : gs' <> [])
    by (intros ->; apply Permutation_sym, Permutation_nil in HP'; contradiction).
  assert (FD : forall l, Forall (fun g => dim0 g = N /\ dim1 g = D /\ dim2 g = D) l
                         -> Forall (fun g => dim1 g = D /\ dim2 g = D) l)
    by (intros l Hl; eapply Forall_impl; [|exact Hl]; simpl; tauto).
  destruct (ggn_fold_succeeds sizes n_steps D gs store0
              (uniform_accumulable N D _ FU)) as (stats & store & Hf).
  destruct (ggn_fold_succeeds sizes n_steps D gs' store0'
              (uniform_accumulable N D _ FU')) as (stats' & store' & Hf').
  destruct (ggn_fold_total sizes n_steps D gs store0 stats store Hne
              (FD _ FU) Hf) as (_ & T & HT & _ & _ & HV).
  destruct (ggn_fold_total sizes n_steps D gs' store0' stats' store' Hne'
              (FD _ FU') Hf') as (_ & T' & HT' & _ & _ & HV').
  destruct (ggn_fold_samples sizes n_steps D N gs store0 stats store Hne
              FU Hf) as (S & HS & _ & _ & _ & HW).
  destruct (ggn_fold_samples sizes n_steps D N gs' store0' stats' store' Hne'
              FU' Hf') as (S' & HS' & _ & _ & _ & HW').
  exists stats, stats', store, store', T, T', S, S'.
  rewrite (ggn_loop_fold state sizes n_steps _ _ F2).
  rewrite (ggn_loop_fold state sizes n_steps _ _ F2').
  repeat (split; [assumption|]). split.
  - intros x y Hx Hy.
    apply (Rmult_eq_reg_r (INR (items_count gs))).
    + rewrite HV by assumption.
      rewrite (items_count_perm _ _ HP'), HV' by assumption.
      apply items_sum_perm. exact HP'.
    + apply not_0_INR. rewrite (items_count_uniform N D gs FU).
      destruct gs; [contradiction | simpl; lia].
  - intros i x y Hi Hx Hy.
    apply (Rmult_eq_reg_r (INR (length gs))).
    + rewrite HW by assumption.
      rewrite (Permutation_length HP'), HW' by assumption.
      apply position_sum_perm. exact HP'.
    + apply not_0_INR. destruct gs; [contradiction | simpl; lia].
Qed.

(** X9.  With one batch shape [[N, D, D]], [N >= 1], the total aggregate
    of a data loader that yields the batches of one loader and then those of
    another is the mean of the two loaders' total aggregates, weighted by
    their numbers of items. *)
Theorem total_of_concatenated_loaders
    (batches1 batches2 : list (Batch Input)) (gs1 gs2 : list Arr3)
    (N D : nat) (store0 : list event) :
  Forall2 (fun b g => compute_ggn state b = Ok g) batches1 gs1 ->
  Forall2 (fun b g => compute_ggn state b = Ok g) batches2 gs2 ->
  Forall (fun g => dim0 g = N /\ dim1 g = D /\ dim2 g = D) (gs1 ++ gs2) ->
  gs1 <> [] -> gs2 <> [] -> (0 < N)%nat ->
  exists stats1 stats2 stats store1 store2 store T1 T2 T,
    ggn_loop state sizes n_steps 0 batches1 (GGN_init, store0) =
      Ok (stats1, store1) /\
    ggn_loop state sizes n_steps 0 batches2 (GGN_init, store0) =
      Ok (stats2, store2) /\
    ggn_loop state sizes n_steps 0 (batches1 ++ batches2) (GGN_init, store0) =
      Ok (stats, store) /\
    GGN_total stats1 = Some T1 /\ GGN_total stats2 = Some T2 /\
    GGN_total stats = Some T /\
    GGN_counter stats = (GGN_counter stats1 + GGN_counter stats2)%nat /\
    forall x y, (x < D)%nat -> (y < D)%nat ->
      at2 T x y =
      (INR (GGN_counter stats1) * at2 T1 x y
       + INR (GGN_counter stats2) * at2 T2 x y)
      / INR (GGN_counter stats1 + GGN_counter stats2).
Proof.
  intros F1 F2 FU Hne1 Hne2 HN.
  pose proof (proj1 (Forall_app _ _ _) FU) as [FU1 FU2].
  assert (FD : forall l, Forall (fun g => dim0 g = N /\ dim1 g = D /\ dim2 g = D) l
                         -> Forall (fun g => dim1 g = D /\ dim2 g = D) l)
    by (intros l Hl; eapply Forall_impl; [|exact Hl]; simpl; tauto).
  assert (Hne : gs1 ++ gs2 <> [])
    by (destruct gs1; [contradiction | discriminate]).
  destruct (ggn_fold_succeeds sizes n_steps D gs1 store0
              (uniform_accumulable N D _ FU1)) as (stats1 & store1 & Hf1).
  destruct (ggn_fold_succeeds sizes n_steps D gs2 store0
              (uniform_accumulable N D _ FU2)) as (stats2 & store2 & Hf2).
  destruct (ggn_fold_succeeds sizes n_steps D (gs1 ++ gs2) store0
              (uniform_accumulable N D _ FU)) as (stats & store & Hf).
  destruct (ggn_fold_total sizes n_steps D gs1 store0 stats1 store1 Hne1
              (FD _ FU1) Hf1) as (Hc1 & T1 & HT1 & _ & _ & HV1).
  destruct (ggn_fold_total sizes n_steps D gs2 store0 stats2 store2 Hne2
              (FD _ FU2) Hf2) as (Hc2 & T2 & HT2 & _ & _ & HV2).
  destruct (ggn_fold_total sizes n_steps D (gs1 ++ gs2) store0 stats store Hne
              (FD _ FU) Hf) as (Hc & T & HT & _ & _ & HV).
  exists stats1, stats2, stats, store1, store2, store, T1, T2, T.
  rewrite (ggn_loop_fold state sizes n_steps _ _ F1).
  rewrite (ggn_loop_fold state sizes n_steps _ _ F2).
  rewrite (ggn_loop_fold state sizes n_steps _ _ (Forall2_app F1 F2)).
  repeat (split; [assumption|]).
  split; [rewrite Hc, Hc1, Hc2; apply items_count_app|].
  intros x y Hx Hy. rewrite Hc1, Hc2, <- items_count_app.
  rewrite (Rmult_comm _ (at2 T1 x y)), (Rmult_comm _ (at2 T2 x y)).
  rewrite HV1, HV2, <- items_sum_app, <- HV by assumption.
  field. apply not_0_INR. rewrite (items_count_uniform N D _ FU).
  destruct gs1; [contradiction | simpl; lia].
Qed.

(** X10.  Let the per-item GGNs of the GGN data loader have [D] by [D]
    items.  If their batch sizes do not broadcast (a smaller last batch of
    more than one item, say), the GGN iteration raises a broadcasting error,
    and so does a training epoch whose first batch triggers it; nothing is
    returned.  If they broadcast, the GGN iteration goes through. *)
Theorem ragged_ggn_batches_abort
    (ggn_dataloader : DataLoader Input) (g0 : Arr3) (rest : list Arr3)
    (D : nat) :
  Forall2 (fun b g => compute_ggn state b = Ok g)
    (batches ggn_dataloader) (g0 :: rest) ->
  Forall (fun g => dim1 g = D /\ dim2 g = D) (g0 :: rest) ->
  (broadcast_dims (dim0 g0) (map dim0 rest) = None ->
     (forall store,
        ggn_pass state ggn_dataloader sizes n_steps store
          = Raise BroadcastError) /\
     (forall train_dataloader ggn_freq n_ggn_iterations,
        batches train_dataloader <> [] -> ggn_freq <> 0%Z ->
        (0 < n_ggn_iterations)%Z -> (n_steps mod ggn_freq = 0)%Z ->
        train_epoch state train_dataloader ggn_dataloader sizes ggn_freq
          n_ggn_iterations n_steps = Raise BroadcastError)) /\
  (broadcast_dims (dim0 g0) (map dim0 rest) <> None ->
     forall store, exists store',
       ggn_pass state ggn_dataloader sizes n_steps store = Ok store').
Proof.
  intros F2 FD. split.
  - intros B.
    assert (HP : forall store,
      ggn_pass state ggn_dataloader sizes n_steps store
        = Raise BroadcastError).
    { intros store. unfold ggn_pass.
      rewrite (ggn_loop_fold state sizes n_steps _ _ F2).
      rewrite (ggn_fold_fails sizes n_steps D g0 rest store FD B).
      reflexivity. }
    split; [exact HP|].
    intros train_dataloader ggn_freq n_ggn_iterations Hne Hf Hn Hmod.
    unfold train_epoch.
    destruct (batches train_dataloader) as [|b bs]; [contradiction|].
    cbn [train_loop]. unfold train_iter.
    cbn [GGN_iter_counter e_n_steps e_state e_store].
    rewrite (ggn_due_spec _ _ _ _ Hf).
    destruct (Z.ltb_spec 0 n_ggn_iterations); [|lia].
    rewrite Hmod. cbn [andb Z.eqb bind]. rewrite HP. reflexivity.
  - intros B store.
    apply (ggn_pass_succeeds state sizes n_steps ggn_dataloader
             (g0 :: rest) D store F2).
    split; assumption.
Qed.

End Aggregates.

(** * Further edge cases of the epochs *)

Lemma Rsum_term_le (n k : nat) (f : nat -> R) :
  (forall i, (i < n)%nat -> 0 <= f i) -> (k < n)%nat -> f k <= Rsum n f.
Proof.
  induction n as [|n IH]; intros P Hk; [lia|]. simpl.
  assert (0 <= Rsum n f) by (apply Rsum_nonneg; intros; apply P; lia).
  assert (0 <= f n) by (apply P; lia).
  destruct (Nat.eq_dec k n) as [->|]; [lra|].
  assert (f k <= Rsum n f) by (apply IH; [intros; apply P|]; lia). lra.
Qed.

(** The loss of an item whose label is one of the classes is not negative. *)
Lemma loss_fn_nonneg (C : nat) (z : nat -> R) (y : Z) :
  (0 <= y < Z.of_nat C)%Z -> 0 <= loss_fn C z y.
Proof.
  intros Hy. unfold loss_fn, label_index.
  destruct (Z.ltb_spec y 0); [lia|].
  assert (Hk : (Z.to_nat y < C)%nat) by lia.
  assert (Hle : exp (z (Z.to_nat y)) <= sum_exp C z).
  { unfold sum_exp.
    apply (Rsum_term_le C (Z.to_nat y) (fun c => exp (z c)));
      [intros; left; apply exp_pos | exact Hk]. }
  assert (Hln : ln (exp (z (Z.to_nat y))) <= ln (sum_exp C z)).
  { destruct Hle as [Hlt|Heq].
    - left. apply ln_increasing; [apply exp_pos | exact Hlt].
    - rewrite Heq. lra. }
  rewrite ln_exp in Hln. lra.
Qed.

Section EdgeCases.

Context {Params Input OptState : Type} {M : Model Params Input OptState}.

Lemma empty_loader_passes (dataset_len : nat) (sizes : list Z) :
  passes_succeed (mkDataLoader [] dataset_len) sizes.
Proof. intros state n store. eexists. reflexivity. Qed.

Lemma train_loop_empty_ggn_loader (dataset_len : nat) (sizes : list Z)
    (ggn_freq n_ggn_iterations : Z) :
  ggn_freq <> 0%Z -> has_classes ->
  forall (bs : list (Batch Input)) (e e' : Epoch),
    train_loop (mkDataLoader [] dataset_len) sizes ggn_freq n_ggn_iterations
      bs e = Ok e' ->
    e_store e' =
    e_store e ++
    map (SaveTotal None)
      (firstn (Z.to_nat (n_ggn_iterations - GGN_iter_counter e))
         (filter (fun s => (s mod ggn_freq =? 0)%Z)
            (step_counters (e_n_steps e) (length bs)))).
Proof.
  intros Hf HC. induction bs as [|b bs IH]; intros e e' H.
  - simpl in H. injection H as <-. simpl. rewrite firstn_nil. simpl.
    rewrite app_nil_r. reflexivity.
  - destruct (train_iter_spec (mkDataLoader [] dataset_len) sizes ggn_freq
                n_ggn_iterations Hf HC (empty_loader_passes dataset_len sizes)
                e b)
      as (store' & state' & loss & n & Hdue & _ & Hiter).
    cbn [train_loop] in H. rewrite Hiter in H. cbn [bind] in H.
    rewrite (IH _ _ H). cbn [e_store GGN_iter_counter e_n_steps].
    cbn [length step_counters filter].
    destruct (Z.ltb_spec (GGN_iter_counter e) n_ggn_iterations) as [Hlt|Hge];
      cbn [andb] in *.
    + destruct (e_n_steps e mod ggn_freq =? 0)%Z.
      * injection Hdue as <-. unfold save_results. rewrite <- app_assoc.
        replace (Z.to_nat (n_ggn_iterations - GGN_iter_counter e))
          with (S (Z.to_nat (n_ggn_iterations - (GGN_iter_counter e + 1))))
          by lia.
        reflexivity.
      * rewrite Hdue. reflexivity.
    + rewrite Hdue.
      replace (Z.to_nat (n_ggn_iterations - GGN_iter_counter e)) with 0%nat
        by lia.
      reflexivity.
Qed.

(** X11.  With a GGN data loader that yields no batch, every GGN iteration
    of a training epoch still counts and saves a total that is [None]: the
    store holds exactly one such save for each scheduled step counter, and no
    samples. *)
Theorem empty_ggn_loader_saves_none
    (state : TrainState Params OptState) (train_dataloader : DataLoader Input)
    (dataset_len : nat) (ggn_batch_sizes : list Z)
    (ggn_freq n_ggn_iterations n_steps : Z) :
  ggn_freq <> 0%Z -> has_classes ->
  batches train_dataloader <> [] ->
  let schedule :=
    ggn_schedule ggn_freq n_ggn_iterations n_steps
      (length (batches train_dataloader)) in
  exists r,
    train_epoch state train_dataloader (mkDataLoader [] dataset_len)
      ggn_batch_sizes ggn_freq n_ggn_iterations n_steps = Ok r /\
    r_store r = map (SaveTotal None) schedule /\
    r_remaining r = (n_ggn_iterations - Z.of_nat (length schedule))%Z.
Proof.
  intros Hf HC Hne schedule.
  set (e0 := mkEpoch state [] 0%Z 0%Z n_steps []).
  pose proof (empty_loader_passes dataset_len ggn_batch_sizes) as HP.
  destruct (train_loop_run (mkDataLoader [] dataset_len) ggn_batch_sizes
              ggn_freq n_ggn_iterations Hf HC HP (batches train_dataloader) e0)
    as (e & Hl & _ & _ & Hloss & Hcnt & Hlen & _).
  assert (Hstore : e_store e = map (SaveTotal None) schedule).
  { rewrite (train_loop_empty_ggn_loader dataset_len ggn_batch_sizes ggn_freq
               n_ggn_iterations Hf HC _ _ _ Hl).
    unfold schedule, ggn_schedule, e0.
    cbn [e_store GGN_iter_counter e_n_steps app]. rewrite Z.sub_0_r.
    reflexivity. }
  unfold train_epoch. fold e0. rewrite Hl. cbn [bind].
  rewrite epoch_statistics_spec.
  - cbn [bind]. eexists. split; [reflexivity|].
    cbn [r_store r_remaining]. split; [exact Hstore|].
    assert (Hct : count_total (e_store e) = length schedule).
    { rewrite Hstore. unfold count_total. clear.
      induction schedule as [|s l IH]; simpl; [reflexivity|].
      rewrite IH. reflexivity. }
    rewrite <- Hct. simpl in Hcnt. lia.
  - rewrite Hloss. unfold e0. simpl. intros E.
    apply (f_equal (@length _)) in E. rewrite length_map in E.
    simpl in E, Hlen. rewrite Hlen in E.
    destruct (batches train_dataloader); [contradiction | discriminate].
Qed.

Lemma test_outputs_losses_nonneg (state : TrainState Params OptState)
    (bs : list (Batch Input)) :
  has_classes -> labels_in_range state bs ->
  0 <= losses_sum (map fst (test_outputs state bs)).
Proof.
  intros HC. unfold test_outputs.
  induction bs as [|b bs IH]; intros HL; simpl; [lra|].
  rewrite (test_step_ok state b HC). simpl.
  assert (0 <= losses_sum
            (map fst (flat_map (fun b0 => match test_step state b0 with
                                          | Ok o => [o]
                                          | Raise _ => []
                                          end) bs))).
  { apply IH. intros b' i Hb' Hi. apply HL; [right; exact Hb' | exact Hi]. }
  assert (0 <= Rsum (rows (apply_fn (params state) (batch_x b)))
                 (fun i => loss_fn (cols (apply_fn (params state) (batch_x b)))
                             (at2 (apply_fn (params state) (batch_x b)) i)
                             (batch_y b i))).
  { apply Rsum_nonneg. intros i Hi. apply loss_fn_nonneg.
    apply HL; [left; reflexivity | exact Hi]. }
  lra.
Qed.

(** X12.  A test epoch over at least one item and fewer than [2^31] items,
    with labels among the classes and no more items than the dataset holds,
    returns a loss that is not negative and an accuracy between zero and
    one. *)
Theorem test_epoch_ranges
    (state : TrainState Params OptState) (test_dataloader : DataLoader Input) :
  let outs := test_outputs state (batches test_dataloader) in
  has_classes ->
  labels_in_range state (batches test_dataloader) ->
  (0 < cat1_len (map fst outs))%nat ->
  (Z.of_nat (cat1_len (map fst outs)) < 2 ^ 31)%Z ->
  (cat1_len (map fst outs) <= dataset_len test_dataloader)%nat ->
  exists loss accuracy,
    test_epoch state test_dataloader = Ok (loss, accuracy) /\
    0 <= loss /\ 0 <= accuracy <= 1.
Proof.
  intros outs HC HL Hpos Hb Hlen.
  destruct (test_loop_run HC state (batches test_dataloader) ([], 0%Z))
    as [Hl Hn].
  cbn [fst snd app] in Hl. fold outs in Hl, Hn.
  destruct (wrap32_accumulate outs 0%Z) as [E B];
    [apply (test_outputs_bounds HC); exact Hb | lia | lia |].
  assert (Hne : map fst outs <> []).
  { intros E0. rewrite E0 in Hpos. simpl in Hpos. lia. }
  unfold test_epoch. rewrite Hl. cbn [bind].
  rewrite (epoch_statistics_spec _ _ _ Hne), E, Z.add_0_l.
  do 2 eexists. split; [reflexivity|].
  assert (Hi : 0 < INR (cat1_len (map fst outs))) by (apply lt_0_INR; lia).
  assert (Hd : 0 < INR (dataset_len test_dataloader))
    by (apply lt_0_INR; lia).
  assert (Hc0 : 0 <= IZR (correct_sum (map snd outs)))
    by (apply IZR_le; lia).
  assert (Hc1 : IZR (correct_sum (map snd outs))
                <= INR (dataset_len test_dataloader)).
  { rewrite INR_IZR_INZ. apply IZR_le. lia. }
  split; [|split].
  - apply Rmult_le_pos; [|left; apply Rinv_0_lt_compat; exact Hi].
    apply test_outputs_losses_nonneg; assumption.
  - apply Rmult_le_pos; [exact Hc0 | left; apply Rinv_0_lt_compat; exact Hd].
  - apply (Rmult_le_reg_r (INR (dataset_len test_dataloader))); [exact Hd|].
    unfold Rdiv. rewrite Rmult_assoc, Rinv_l by lra. lra.
Qed.

End EdgeCases.

(** * Further properties of the samples aggregate and of the entries *)

Lemma position_sum_symmetric (gs : list Arr3) (i x y : nat) :
  Forall (fun g => forall n x y, at3 g n x y = at3 g n y x) gs ->
  position_sum gs i x y = position_sum gs i y x.
Proof.
  induction 1 as [|g l Hg _ IH]; simpl; [reflexivity|].
  rewrite IH, (Hg i x y). reflexivity.
Qed.

Lemma position_sum_quad (D : nat) (gs : list Arr3) (i : nat) (v : nat -> R) :
  Forall (fun g => dim1 g = D /\ dim2 g = D) gs ->
  Rsum D (fun x => Rsum D (fun y => v x * position_sum gs i x y * v y)) =
  position_quad gs i v.
Proof.
  induction 1 as [|g l [G1 G2] _ IH]; simpl.
  - rewrite (Rsum_ext D _ (fun _ => 0)); [apply Rsum_zero|].
    intros x _. rewrite (Rsum_ext D _ (fun _ => 0)); [apply Rsum_zero|].
    intros y _. lra.
  - rewrite <- IH. unfold quad_form. simpl. rewrite G1, G2.
    rewrite <- Rsum_plus. apply Rsum_ext. intros x _.
    rewrite <- Rsum_plus. apply Rsum_ext. intros y _. lra.
Qed.

Lemma position_quad_nonneg (gs : list Arr3) (i : nat) (v : nat -> R) :
  Forall (fun g => forall n v, 0 <= quad_form (slice0 g n) v) gs ->
  0 <= position_quad gs i v.
Proof.
  induction 1 as [|g l Hg _ IH]; simpl; [lra|].
  pose proof (Hg i v). lra.
Qed.

(** A quadratic with a non-negative leading coefficient that is never
    negative has a non-positive discriminant. *)
Lemma discriminant_nonpos (A B C : R) :
  0 <= C ->
  (forall t, 0 <= A + 2 * t * B + t * t * C) -> B * B <= A * C.
Proof.
  intros HC Q.
  destruct HC as [Cpos|C0].
  - specialize (Q (- B / C)).
    replace (A + 2 * (- B / C) * B + - B / C * (- B / C) * C)
      with ((A * C - B * B) / C) in Q by (field; lra).
    assert (H : 0 <= (A * C - B * B) / C * C) by (apply Rmult_le_pos; lra).
    replace ((A * C - B * B) / C * C) with (A * C - B * B) in H
      by (field; lra).
    lra.
  - subst C. destruct (Req_dec B 0) as [->|HB]; [lra|].
    exfalso. specialize (Q (- (A + 1) / (2 * B))).
    replace (A + 2 * (- (A + 1) / (2 * B)) * B
             + - (A + 1) / (2 * B) * (- (A + 1) / (2 * B)) * 0)
      with (- 1) in Q by (field; exact HB).
    lra.
Qed.

(** The Cauchy-Schwarz inequality for a sum with non-negative weights. *)
Lemma weighted_cauchy_schwarz (n : nat) (p a b : nat -> R) :
  (forall i, (i < n)%nat -> 0 <= p i) ->
  Rsum n (fun i => p i * (a i * b i)) * Rsum n (fun i => p i * (a i * b i))
  <= Rsum n (fun i => p i * (a i * a i)) * Rsum n (fun i => p i * (b i * b i)).
Proof.
  intros Hp. apply discriminant_nonpos.
  { apply Rsum_nonneg. intros i Hi.
    apply Rmult_le_pos; [apply Hp; exact Hi | apply Rle_0_sqr]. }
  intros t.
  replace (Rsum n (fun i => p i * (a i * a i))
           + 2 * t * Rsum n (fun i => p i * (a i * b i))
           + t * t * Rsum n (fun i => p i * (b i * b i)))
    with (Rsum n (fun i => p i * ((a i + t * b i) * (a i + t * b i)))).
  - apply Rsum_nonneg. intros i Hi.
    apply Rmult_le_pos; [apply Hp; exact Hi|].
    apply Rle_0_sqr.
  - rewrite <- !Rsum_scal_l, <- !Rsum_plus. apply Rsum_ext. intros i _. ring.
Qed.

(** The bilinear form of the Hessian is a covariance under the softmax
    distribution. *)
Lemma H_loss_fn_bilinear (C : nat) (z : nat -> R) (y : Z) (u w : nat -> R) :
  (0 < C)%nat ->
  Rsum C (fun a => Rsum C (fun b => u a * at2 (H_loss_fn C z y) a b * w b)) =
  Rsum C (fun a =>
    softmax C z a *
    ((u a - Rsum C (fun c => softmax C z c * u c)) *
     (w a - Rsum C (fun c => softmax C z c * w c)))).
Proof.
  intros HC. simpl.
  set (p := softmax C z).
  set (mu := Rsum C (fun c => p c * u c)).
  set (mw := Rsum C (fun c => p c * w c)).
  rewrite (Rsum_ext C _ (fun a => p a * u a * w a - p a * u a * mw)).
  2:{ intros a Ha.
      rewrite (Rsum_ext C _
        (fun b => (if (b =? a)%nat then u a * p a * w b else 0)
                  - (u a * p a) * (p b * w b))).
      2:{ intros b Hb. rewrite (Nat.eqb_sym a b).
          destruct (b =? a)%nat; lra. }
      rewrite Rsum_minus, (Rsum_single C a (fun b => u a * p a * w b)) by lia.
      rewrite Rsum_scal_l. fold mw. lra. }
  rewrite (Rsum_ext C (fun a => p a * ((u a - mu) * (w a - mw)))
             (fun a => (p a * u a * w a - p a * u a * mw)
                       - (mu * (p a * w a) - mu * mw * p a)))
    by (intros; lra).
  rewrite (Rsum_minus C _ (fun a => mu * (p a * w a) - mu * mw * p a)).
  rewrite (Rsum_minus C (fun a => mu * (p a * w a))).
  rewrite !Rsum_scal_l. fold mw.
  replace (Rsum C p) with 1 by (symmetry; apply softmax_sum; assumption).
  lra.
Qed.

Section Entries.

Context {Params Input OptState : Type} {M : Model Params Input OptState}.

Variables (state : TrainState Params OptState) (sizes : list Z) (n_steps : Z).

(** X13.  With one batch shape [[N, D, D]], every position of the samples
    aggregate is a symmetric, positive semi-definite matrix. *)
Theorem samples_aggregate_symmetric_psd
    (batches : list (Batch Input)) (g0 : Arr3) (rest : list Arr3) (N D : nat)
    (store0 : list event) :
  Forall2 (fun b g => compute_ggn state b = Ok g) batches (g0 :: rest) ->
  Forall (fun g => dim0 g = N /\ dim1 g = D /\ dim2 g = D) (g0 :: rest) ->
  exists stats store S,
    ggn_loop state sizes n_steps 0 batches (GGN_init, store0) =
      Ok (stats, store) /\
    GGN_samples stats = Some S /\
    forall i, (i < N)%nat -> symmetric (slice0 S i) /\ psd (slice0 S i).
Proof.
  intros F2 FU.
  set (gs := g0 :: rest) in *.
  assert (FD : Forall (fun g => dim1 g = D /\ dim2 g = D) gs)
    by (eapply Forall_impl; [|exact FU]; simpl; tauto).
  destruct (ggn_fold_succeeds sizes n_steps D gs store0
              (uniform_accumulable N D _ FU)) as (stats & store & Hf).
  destruct (ggn_fold_samples sizes n_steps D N gs store0 stats store)
    as (S & HS & S0 & S1 & S2 & HV); [discriminate | exact FU | exact Hf |].
  assert (Hlen : 0 < INR (length gs)) by (apply lt_0_INR; simpl; lia).
  assert (HE : forall i x y, (i < N)%nat -> (x < D)%nat -> (y < D)%nat ->
             at3 S i x y = position_sum gs i x y / INR (length gs)).
  { intros i x y Hi Hx Hy. rewrite <- HV by assumption. field. lra. }
  exists stats, store, S.
  rewrite (ggn_loop_fold state sizes n_steps _ _ F2).
  split; [exact Hf|]. split; [exact HS|]. intros i Hi. split.
  - split; [simpl; congruence|]. simpl. intros x y Hx Hy.
    rewrite S1 in Hx, Hy. rewrite !HE by assumption. f_equal.
    apply position_sum_symmetric.
    apply (Forall2_right _ _ _ _
             (fun b g H => proj2 (compute_ggn_item_symmetric state b g H)) F2).
  - intros v. unfold quad_form. simpl. rewrite S1, S2.
    rewrite (Rsum_ext D _
      (fun x => Rsum D (fun y => v x * position_sum gs i x y * v y)
                * / INR (length gs))).
    2:{ intros x Hx. rewrite <- Rsum_scal_r. apply Rsum_ext. intros y Hy.
        rewrite HE by assumption. unfold Rdiv. ring. }
    rewrite Rsum_scal_r, (position_sum_quad D gs i v FD).
    apply Rmult_le_pos.
    + apply position_quad_nonneg.
      apply (Forall2_right _ _ _ _
               (fun b g H n v => compute_ggn_item_psd state b g n v H) F2).
    + left. apply Rinv_0_lt_compat. exact Hlen.
Qed.

(** X14.  In every per-item GGN the diagonal entries are not negative, and
    they bound the other entries: [GGN[n][x][y]^2 <= GGN[n][x][x] *
    GGN[n][y][y]]. *)
Theorem ggn_entries_bounded_by_diagonal
    (batch : Batch Input) (GGN : Arr3) (n x y : nat) :
  compute_ggn state batch = Ok GGN ->
  0 <= at3 GGN n x x /\
  at3 GGN n x y * at3 GGN n x y <= at3 GGN n x x * at3 GGN n y y.
Proof.
  intros H. destruct (compute_ggn_inv _ _ _ H)
    as (J & _ & _ & _ & _ & _ & _ & HV).
  set (logits := apply_fn (params state) (batch_x batch)) in *.
  rewrite !HV. unfold sandwich.
  set (C := cols logits). set (z := at2 logits n). set (l := batch_y batch n).
  destruct (Nat.eq_dec C 0) as [E|NE].
  - rewrite E. simpl. lra.
  - assert (HC : (0 < C)%nat) by lia.
    set (p := softmax C z).
    assert (B : forall u w : nat -> R,
      Rsum C (fun a => Rsum C (fun b =>
        u a * at2 (H_loss_fn C z l) a b * w b)) =
      Rsum C (fun a => p a *
        ((u a - Rsum C (fun c => p c * u c))
         * (w a - Rsum C (fun c => p c * w c)))))
      by (intros u w; apply H_loss_fn_bilinear; exact HC).
    rewrite !(B (fun a => at3 J n a _)).
    split.
    + apply Rsum_nonneg. intros a _.
      apply Rmult_le_pos; [left; apply softmax_pos; exact HC|].
      apply Rle_0_sqr.
    + apply (weighted_cauchy_schwarz C p
               (fun a => at3 J n a x - Rsum C (fun c => p c * at3 J n c x))
               (fun a => at3 J n a y - Rsum C (fun c => p c * at3 J n c y))).
      intros a _. left. apply softmax_pos. exact HC.
Qed.

End Entries.

(** * The further properties at work on the toy model *)

Lemma ggn_passes_follow_schedule_witness :
  exists r,
    train_epoch toy_state (toy_loader [2; 2; 2; 2; 2; 2; 2]%nat)
      (toy_loader [2; 2; 2; 2; 2]%nat) [1%Z; 3%Z] 3 2 0 = Ok r /\
    total_tags (r_store r) = [0%Z; 3%Z] /\ r_remaining r = 0%Z.
Proof.
  destruct (ggn_passes_follow_schedule toy_state
              (toy_loader [2; 2; 2; 2; 2; 2; 2]%nat)
              (toy_loader [2; 2; 2; 2; 2]%nat) [1%Z; 3%Z] 3 2 0)
    as (r & Hr & Ht & Hrem & _).
  - lia.
  - exact toy_has_classes.
  - apply toy_passes_succeed.
  - discriminate.
  - exists r. split; [exact Hr|]. split; [exact Ht | exact Hrem].
Defined.

Lemma no_ggn_iteration_without_budget_witness :
  exists r,
    train_epoch toy_state (toy_loader [2; 1]%nat) (toy_loader [3; 2]%nat)
      [1%Z] 0 0 5 = Ok r /\
    r_store r = [] /\ r_remaining r = 0%Z /\ r_n_steps r = 7%Z.
Proof.
  destruct (no_ggn_iteration_without_budget toy_state (toy_loader [2; 1]%nat)
              (toy_loader [3; 2]%nat) [1%Z] 0 0 5)
    as (r & Hr & Hs & Hrem & Hn & _).
  - lia.
  - exact toy_has_classes.
  - discriminate.
  - exists r. split; [exact Hr|]. split; [exact Hs|].
    split; [exact Hrem | exact Hn].
Defined.

Lemma ggn_iterations_leave_training_alone_witness :
  exists r r0,
    train_epoch toy_state (toy_loader [2; 2; 1]%nat)
      (toy_loader [2; 2; 2; 2; 2]%nat) [1%Z; 3%Z] 2 3 0 = Ok r /\
    train_epoch toy_state (toy_loader [2; 2; 1]%nat)
      (toy_loader [2; 2; 2; 2; 2]%nat) [1%Z; 3%Z] 2 0 0 = Ok r0 /\
    r_state r = r_state r0 /\ r_loss r = r_loss r0 /\
    r_accuracy r = r_accuracy r0.
Proof.
  destruct (ggn_iterations_leave_training_alone toy_state
              (toy_loader [2; 2; 1]%nat) (toy_loader [2; 2; 2; 2; 2]%nat)
              [1%Z; 3%Z] 2 3 0)
    as (r & r0 & Hr & Hr0 & Hs & Hl & Ha & _).
  - lia.
  - exact toy_has_classes.
  - apply toy_passes_succeed.
  - discriminate.
  - exists r, r0. auto.
Defined.

(** The direction that raises both biases by one moves both logits by one. *)
Lemma ggn_annihilates_class_shifts_witness :
  matvec (slice0 (toy_ggn 2) 1) (fun k => if (k <? 2)%nat then 1 else 0) 3
  = 0.
Proof.
  apply (ggn_annihilates_class_shifts toy_state (toy_batch 2)
           (toy_ggn 2) (toy_J 2) 1 (fun k => if (k <? 2)%nat then 1 else 0) 1).
  - reflexivity.
  - reflexivity.
  - intros a Ha. simpl in Ha.
    destruct a as [|[|a]]; [simpl; lra | simpl; lra | lia].
Defined.

Lemma total_aggregate_symmetric_psd_witness :
  exists stats store T,
    ggn_loop toy_state [1%Z; 3%Z] 0 0 (batches (toy_loader [2; 2; 1]%nat))
      (GGN_init, []) = Ok (stats, store) /\
    GGN_total stats = Some T /\ symmetric T /\ psd T.
Proof.
  apply (total_aggregate_symmetric_psd toy_state [1%Z; 3%Z] 0
           (batches (toy_loader [2; 2; 1]%nat))
           (toy_ggn 2) [toy_ggn 2; toy_ggn 1] 4 []).
  - repeat constructor.
  - split; [repeat constructor | discriminate].
  - simpl. lia.
Defined.

Lemma aggregates_ignore_batch_order_witness :
  exists stats stats' store store' T T',
    ggn_loop toy_state [] 0 0 [toy_batch 2; toy_batch' 2] (GGN_init, []) =
      Ok (stats, store) /\
    ggn_loop toy_state [] 0 0 [toy_batch' 2; toy_batch 2] (GGN_init, []) =
      Ok (stats', store') /\
    GGN_total stats = Some T /\ GGN_total stats' = Some T' /\
    at2 T 2 3 = at2 T' 2 3.
Proof.
  destruct (aggregates_ignore_batch_order toy_state [] 0
              [toy_batch 2; toy_batch' 2] [toy_batch' 2; toy_batch 2]
              [toy_ggn 2; toy_ggn' 2] 2 4 [] [])
    as (stats & stats' & store & store' & T & T' & S & S'
        & Hl & Hl' & HT & HT' & _ & _ & HV & _).
  - apply perm_swap.
  - repeat constructor.
  - repeat constructor.
  - discriminate.
  - lia.
  - exists stats, stats', store, store', T, T'.
    repeat (split; [assumption|]). apply HV; lia.
Defined.

Lemma total_of_concatenated_loaders_witness :
  exists stats1 stats2 stats store1 store2 store,
    ggn_loop toy_state [] 0 0 [toy_batch 2] (GGN_init, []) =
      Ok (stats1, store1) /\
    ggn_loop toy_state [] 0 0 [toy_batch' 2; toy_batch 2] (GGN_init, []) =
      Ok (stats2, store2) /\
    ggn_loop toy_state [] 0 0 ([toy_batch 2] ++ [toy_batch' 2; toy_batch 2])
      (GGN_init, []) = Ok (stats, store) /\
    GGN_counter stats = (GGN_counter stats1 + GGN_counter stats2)%nat.
Proof.
  destruct (total_of_concatenated_loaders toy_state [] 0
              [toy_batch 2] [toy_batch' 2; toy_batch 2]
              [toy_ggn 2] [toy_ggn' 2; toy_ggn 2] 2 4 [])
    as (stats1 & stats2 & stats & store1 & store2 & store & T1 & T2 & T
        & H1 & H2 & H & _ & _ & _ & Hc & _).
  - repeat constructor.
  - repeat constructor.
  - repeat constructor.
  - discriminate.
  - discriminate.
  - lia.
  - exists stats1, stats2, stats, store1, store2, store. auto.
Defined.

(** Five GGN items in batches of three and two: the second batch does not
    broadcast. *)
Lemma ragged_ggn_batches_abort_witness :
  ggn_pass toy_state (toy_loader [3; 2]%nat) [1%Z] 0 [] = Raise BroadcastError /\
  train_epoch toy_state (toy_loader [2; 2]%nat) (toy_loader [3; 2]%nat)
    [1%Z] 3 2 0 = Raise BroadcastError.
Proof.
  destruct (ragged_ggn_batches_abort toy_state [1%Z] 0
              (toy_loader [3; 2]%nat) (toy_ggn 3) [toy_ggn 2] 4)
    as [H _].
  - repeat constructor.
  - repeat constructor.
  - destruct H as [Hp Ht]; [reflexivity|]. split.
    + apply Hp.
    + apply Ht; [discriminate | lia | lia | reflexivity].
Defined.

Lemma empty_ggn_loader_saves_none_witness :
  exists r,
    train_epoch toy_state (toy_loader [2; 2; 2; 2; 2; 2; 2]%nat)
      (mkDataLoader [] 0) [1%Z; 3%Z] 3 2 0 = Ok r /\
    r_store r = [SaveTotal None 0; SaveTotal None 3].
Proof.
  destruct (empty_ggn_loader_saves_none toy_state
              (toy_loader [2; 2; 2; 2; 2; 2; 2]%nat) 0 [1%Z; 3%Z] 3 2 0)
    as (r & Hr & Hs & _).
  - lia.
  - exact toy_has_classes.
  - discriminate.
  - exists r. split; [exact Hr | exact Hs].
Defined.

Lemma test_epoch_ranges_witness :
  exists loss accuracy,
    test_epoch toy_state (toy_loader [2; 2; 1]%nat) = Ok (loss, accuracy) /\
    0 <= loss /\ 0 <= accuracy <= 1.
Proof.
  apply (test_epoch_ranges toy_state (toy_loader [2; 2; 1]%nat)).
  - exact toy_has_classes.
  - intros b i Hb Hi. simpl in Hb.
    pose proof (Nat.mod_upper_bound i 2 ltac:(lia)) as Hm.
    destruct Hb as [<-|[<-|[<-|[]]]];
      cbn [toy_batch batch_y batch_x apply_fn toy_model toy_apply cols];
      lia.
  - simpl. lia.
  - simpl. lia.
  - simpl. lia.
Defined.

Lemma samples_aggregate_symmetric_psd_witness :
  exists stats store S,
    ggn_loop toy_state [1%Z] 0 0 [toy_batch 2; toy_batch' 2] (GGN_init, []) =
      Ok (stats, store) /\
    GGN_samples stats = Some S /\
    symmetric (slice0 S 1) /\ psd (slice0 S 1).
Proof.
  destruct (samples_aggregate_symmetric_psd toy_state [1%Z] 0
              [toy_batch 2; toy_batch' 2] (toy_ggn 2) [toy_ggn' 2] 2 4 [])
    as (stats & store & S & Hl & HS & HP).
  - repeat constructor.
  - repeat constructor.
  - exists stats, store, S. split; [exact Hl|]. split; [exact HS|].
    apply HP. lia.
Defined.

Lemma ggn_entries_bounded_by_diagonal_witness :
  0 <= at3 (toy_ggn 2) 1 2 2 /\
  at3 (toy_ggn 2) 1 2 3 * at3 (toy_ggn 2) 1 2 3
  <= at3 (toy_ggn 2) 1 2 2 * at3 (toy_ggn 2) 1 3 3.
Proof.
  apply (ggn_entries_bounded_by_diagonal toy_state (toy_batch 2) (toy_ggn 2)).
  reflexivity.
Defined.
